(** * Partition transfer pipeline: BigQuery -> GCS staging -> PostgreSQL

    A shallow embedding of the export script
    [scripts/export_bq_partitions_to_gcs.py], the load script
    [scripts/load_partitions_to_pg.py] and the orchestrator [main.py],
    together with the properties of the pipeline that are stated in its
    specification.

    The external collaborators (the system clock, the warehouse, the object
    store, the relational database, pandas' CSV codec) are part of an
    explicit [World]; every call that leaves the process can raise, which
    is driven by a schedule of faults carried by the world. *)

From Stdlib Require Import ZArith Ascii String List Lia Bool.
From stdpp Require Import base option list sorting strings gmap fin_maps.

Local Open Scope string_scope.
Local Open Scope list_scope.

(** ** Python string methods used by the scripts *)

Module PyStr.

(** [s.startswith(p)] *)
Definition startswith (p s : string) : bool := String.prefix p s.

(** the characters of [s] in reverse order *)
Fixpoint rev_string (s acc : string) : string :=
  match s with
  | EmptyString => acc
  | String c s' => rev_string s' (String c acc)
  end.

(** [s.endswith(p)] *)
Definition endswith (p s : string) : bool :=
  String.prefix (rev_string p EmptyString) (rev_string s EmptyString).

(** [s.replace(old, new)] for a non-empty [old]: the occurrences are
    found from the left and do not overlap.  [skip] counts the characters
    of an occurrence that are still to be dropped. *)
Fixpoint replace_go (old new : string) (skip : nat) (s : string) : string :=
  match s with
  | EmptyString => EmptyString
  | String c s' =>
      match skip with
      | S k => replace_go old new k s'
      | O =>
          if String.prefix old s
          then new +:+ replace_go old new (String.length old - 1) s'
          else String c (replace_go old new 0 s')
      end
  end.

Definition replace (old new s : string) : string := replace_go old new 0 s.

(** [s.split(sep)] for a one-character separator: never the empty list,
    and empty tokens are kept. *)
Fixpoint split (sep : ascii) (s : string) : list string :=
  match s with
  | EmptyString => [EmptyString]
  | String c s' =>
      if Ascii.eqb c sep then EmptyString :: split sep s'
      else match split sep s' with
           | tok :: toks => String c tok :: toks
           | [] => [String c EmptyString]
           end
  end.

(** [sep.join(parts)] *)
Fixpoint join (sep : string) (parts : list string) : string :=
  match parts with
  | [] => EmptyString
  | [p] => p
  | p :: rest => p +:+ sep +:+ join sep rest
  end.

(** [s.rfind(c)] for a character: the index of its last occurrence, or
    [-1]. [i] is the index of the head of [s]. *)
Fixpoint rfind_from (c : ascii) (s : string) (i : Z) : Z :=
  match s with
  | EmptyString => (-1)%Z
  | String a s' =>
      let r := rfind_from c s' (i + 1)%Z in
      if (0 <=? r)%Z then r else if Ascii.eqb a c then i else (-1)%Z
  end.

Definition rfind (c : ascii) (s : string) : Z := rfind_from c s 0%Z.

(** the slice [s[lo:hi]] for [0 <= lo] *)
Definition slice (lo hi : Z) (s : string) : string :=
  String.substring (Z.to_nat lo) (Z.to_nat (hi - lo)) s.

(** does [s] hold a character other than [c]? *)
Fixpoint has_other (c : ascii) (s : string) : bool :=
  match s with
  | EmptyString => false
  | String a s' => negb (Ascii.eqb a c) || has_other c s'
  end.

(** [os.path.splitext(p)] on a POSIX system ([genericpath._splitext] with
    separator [/] and extension separator [.]): the extension starts at
    the last dot of the last path component, dots that lead the component
    do not count. *)
Definition splitext (p : string) : string * string :=
  let sepIndex := rfind "/"%char p in
  let dotIndex := rfind "."%char p in
  if (sepIndex <? dotIndex)%Z
     && has_other "."%char (slice (sepIndex + 1) dotIndex p)
  then (slice 0 dotIndex p, slice dotIndex (Z.of_nat (String.length p)) p)
  else (p, EmptyString).

End PyStr.

(** ** Loader: the target table of a staged file *)

(** [extract_table_name_from_filename] *)
Definition extract_table_name_from_filename (file_name : string) : string :=
  let table := fst (PyStr.splitext file_name) in
  let table_name_parts := PyStr.split "_"%char table in
  let table_name := PyStr.join "_" (take 2 table_name_parts) in
  table_name.

(** ** Data of the pipeline *)

(** A pandas [DataFrame] as the scripts use it: the column labels and the
    rows, cell by cell. *)
Record DataFrame := mkDataFrame {
  columns : list string;
  rows : list (list string)
}.

(** [df.empty]: some axis has length zero. *)
Definition df_empty (df : DataFrame) : bool :=
  (length (columns df) =? 0)%nat || (length (rows df) =? 0)%nat.

(** [df.columns = cols] *)
Definition set_columns (cols : list string) (df : DataFrame) : DataFrame :=
  {| columns := cols; rows := rows df |}.

(** The exceptions an external call can raise, by the classes the scripts
    tell apart: [NotFound] and [Forbidden] are [GoogleAPIError]s, [ApiError]
    is any other [GoogleAPIError], [OtherError] any other [Exception]. *)
Inductive exn := NotFound | Forbidden | ApiError | OtherError.

Definition is_GoogleAPIError (e : exn) : bool :=
  match e with OtherError => false | _ => true end.

#[global] Instance exn_eq_dec : EqDecision exn.
Proof. solve_decision. Defined.

(** A reading of [datetime.now()]. *)
Record datetime := mkDatetime {
  year : Z; month : Z; day : Z;
  hour : Z; minute : Z; second : Z
}.

(** What the warehouse catalog knows of a table: [time_partitioning] is
    [Some field] for a time-partitioned table ([field] is [None] for
    ingestion-time partitioning), [range_partitioning] holds the field of a
    range-partitioned one. *)
Record TableMeta := mkTableMeta {
  table_id : string;
  time_partitioning : option (option string);
  range_partitioning : option string
}.

(** [if_exists] of [DataFrame.to_sql] *)
Inductive write_mode := Replace | Append.

#[global] Instance write_mode_eq_dec : EqDecision write_mode.
Proof. solve_decision. Defined.

(** The calls that leave the process. *)
Inductive call :=
| Now
| GetGcpClients | GetBigQueryClient | GetGcsClient
| GetPgClient | PgConnect | PgClose | PgClientClose
| ListTables (dataset : string)
| GetTable (table : string)
| PartitionsQuery (full_dataset table : string)
| SelectQuery (dataset table field date : string)
| QueryResult
| ToDataframe
| ListBlobs (prefix : string)
| Download (name : string)
| Upload (name data : string)
| Copy (src dst : string)
| Delete (name : string)
| ToSql (table : string) (mode : write_mode) (cols : list string)
        (chunksize : nat).

(** A call and the exception it raised, if any. *)
Definition event : Type := call * option exn.

(** ** The world outside the process *)

Record World := mkWorld {
  (** successive readings of the wall clock, and how many were taken *)
  clock : nat -> datetime;
  ticks : nat;
  (** the outcome of the external calls to come: [Some e] makes the next
      call raise [e]; past the end of the schedule no call is disturbed *)
  faults : list (option exn);
  (** config.yaml *)
  project_id : string;
  dataset_id : string;
  bucket_name : string;
  (** the warehouse: the tables of the dataset, the rows answered to the
      query on [INFORMATION_SCHEMA.PARTITIONS] (column [max_partition_id]),
      and the rows of a table for a value of its partitioning field *)
  bq_tables : list TableMeta;
  bq_partitions : string -> string -> list (option string);
  bq_select : string -> string -> string -> string -> DataFrame;
  (** the bucket: object name to content *)
  gcs : gmap string string;
  (** the database: table name to content *)
  pg : gmap string DataFrame;
  (** the calls made so far, oldest first *)
  trace : list event
}.

Definition set_ticks (n : nat) (w : World) : World :=
  mkWorld (clock w) n (faults w) (project_id w) (dataset_id w)
          (bucket_name w) (bq_tables w) (bq_partitions w) (bq_select w)
          (gcs w) (pg w) (trace w).

Definition set_faults (fs : list (option exn)) (w : World) : World :=
  mkWorld (clock w) (ticks w) fs (project_id w) (dataset_id w)
          (bucket_name w) (bq_tables w) (bq_partitions w) (bq_select w)
          (gcs w) (pg w) (trace w).

Definition set_gcs (g : gmap string string) (w : World) : World :=
  mkWorld (clock w) (ticks w) (faults w) (project_id w) (dataset_id w)
          (bucket_name w) (bq_tables w) (bq_partitions w) (bq_select w)
          g (pg w) (trace w).

Definition set_pg (d : gmap string DataFrame) (w : World) : World :=
  mkWorld (clock w) (ticks w) (faults w) (project_id w) (dataset_id w)
          (bucket_name w) (bq_tables w) (bq_partitions w) (bq_select w)
          (gcs w) d (trace w).

Definition log (ev : event) (w : World) : World :=
  mkWorld (clock w) (ticks w) (faults w) (project_id w) (dataset_id w)
          (bucket_name w) (bq_tables w) (bq_partitions w) (bq_select w)
          (gcs w) (pg w) (trace w ++ [ev]).

(** ** Computations: state passing with exceptions

    A Python exception leaves the effects made before it in place, so the
    world is returned on both outcomes. *)

Inductive result (A : Type) :=
| Ok (a : A)
| Raise (e : exn).
Arguments Ok {A} a.
Arguments Raise {A} e.

Definition M (A : Type) : Type := World -> World * result A.

Definition ret {A} (a : A) : M A := fun w => (w, Ok a).

Definition raise {A} (e : exn) : M A := fun w => (w, Raise e).

Definition bind {A B} (m : M A) (k : A -> M B) : M B :=
  fun w =>
    match m w with
    | (w', Ok a) => k a w'
    | (w', Raise e) => (w', Raise e)
    end.

(** [try: m  except ... as e: h e] *)
Definition try_except {A} (m : M A) (h : exn -> M A) : M A :=
  fun w =>
    match m w with
    | (w', Raise e) => h e w'
    | r => r
    end.

(** [try: m  finally: f] *)
Definition try_finally {A} (m : M A) (f : M unit) : M A :=
  fun w =>
    match m w with
    | (w', r) =>
        match f w' with
        | (w'', Ok _) => (w'', r)
        | (w'', Raise e) => (w'', Raise e)
        end
    end.

Declare Scope py_scope.
Delimit Scope py_scope with py.
Notation "x <- m ;; k" := (bind m (fun x => k))
  (at level 100, m at next level, right associativity) : py_scope.
Notation "m ;; k" := (bind m (fun _ => k))
  (at level 100, right associativity) : py_scope.
Local Open Scope py_scope.

Definition outcome {A} (r : result A) : option exn :=
  match r with Ok _ => None | Raise e => Some e end.

(** An external call [c] whose service does [op]: the next entry of the
    fault schedule decides whether the call is disturbed (it then raises
    and the service does nothing); the call is recorded with its outcome. *)
Definition external {A} (c : call) (op : World -> World * result A) : M A :=
  fun w =>
    match faults w with
    | Some e :: fs => (log (c, Some e) (set_faults fs w), Raise e)
    | _ =>
        match op (set_faults (tail (faults w)) w) with
        | (w', r) => (log (c, outcome r) w', r)
        end
    end.

(** A call that cannot fail; it is recorded all the same. *)
Definition local_call {A} (c : call) (op : World -> World * A) : M A :=
  fun w => match op w with (w', a) => (log (c, None) w', Ok a) end.

(** ** The object store *)

(** The order of a listing: the object store lists the names of a bucket
    in lexicographic order. *)
Definition name_le (a b : string) : Prop := String.leb a b = true.

#[global] Instance name_le_dec : RelDecision name_le.
Proof. intros a b. unfold name_le. apply _. Defined.

(** The names of the objects of a bucket, in the order of a listing. *)
Definition object_names (g : gmap string string) : list string :=
  merge_sort name_le (map fst (map_to_list g)).

(** [bucket.list_blobs(prefix=...)]: the names of the objects under the
    prefix. *)
Definition list_blobs (prefix : string) : M (list string) :=
  external (ListBlobs prefix)
    (fun w => (w, Ok (List.filter (PyStr.startswith prefix)
                                  (object_names (gcs w))))).

(** [blob.download_to_file(buffer)] *)
Definition download (name : string) : M string :=
  external (Download name)
    (fun w => match gcs w !! name with
              | Some data => (w, Ok data)
              | None => (w, Raise NotFound)
              end).

(** [blob.upload_from_string(data)]: creates or overwrites the object. *)
Definition upload_from_string (name data : string) : M unit :=
  external (Upload name data)
    (fun w => (set_gcs (<[name := data]> (gcs w)) w, Ok tt)).

(** [bucket.copy_blob(source_blob, bucket, destination_blob_name)] *)
Definition copy_blob (src dst : string) : M unit :=
  external (Copy src dst)
    (fun w => match gcs w !! src with
              | Some data => (set_gcs (<[dst := data]> (gcs w)) w, Ok tt)
              | None => (w, Raise NotFound)
              end).

(** [blob.delete()] *)
Definition blob_delete (name : string) : M unit :=
  external (Delete name)
    (fun w => match gcs w !! name with
              | Some _ => (set_gcs (delete name (gcs w)) w, Ok tt)
              | None => (w, Raise NotFound)
              end).

(** ** The database behind [DataFrame.to_sql] *)

(** The rows [start_i, end_i) of a frame. *)
Definition row_slice {A} (start_i end_i : nat) (rs : list A) : list A :=
  take (end_i - start_i) (drop start_i rs).

(** The insert loop of pandas' [SQLTable.insert]: for [i] in
    [range(chunks)], rows [i * chunksize] to
    [min((i + 1) * chunksize, nrows)] make one batch, and the loop breaks
    at the first empty range. *)
Fixpoint insert_loop {A} (chunksize nrows : nat) (rs : list A)
    (range : list nat) : list (list A) :=
  match range with
  | [] => []
  | i :: range' =>
      let start_i := i * chunksize in
      let end_i := Nat.min ((i + 1) * chunksize) nrows in
      if (end_i <=? start_i)%nat then []
      else row_slice start_i end_i rs
             :: insert_loop chunksize nrows rs range'
  end.

(** The batches in which [to_sql(chunksize=...)] sends the rows. *)
Definition insert_batches {A} (chunksize : nat) (rs : list A)
    : list (list A) :=
  let nrows := length rs in
  if (nrows =? 0)%nat then []
  else insert_loop chunksize nrows rs (seq 0 (nrows / chunksize + 1)).

(** The table as [to_sql] leaves it: [replace] drops what was there,
    [append] adds the rows to a table with the same columns and creates a
    missing one; the database rejects rows for a table with other
    columns. *)
Definition write_table (mode : write_mode) (old : option DataFrame)
    (cols : list string) (batches : list (list (list string)))
    : option DataFrame :=
  match mode, old with
  | Replace, _ | Append, None => Some (mkDataFrame cols (concat batches))
  | Append, Some t =>
      if decide (columns t = cols)
      then Some (mkDataFrame cols (rows t ++ concat batches))
      else None
  end.

(** What [DataFrame.to_sql] can be given as [con]: a connectable of
    SQLAlchemy, through which pandas writes, or a plain DBAPI2 connection of
    another driver than sqlite3's, as [psycopg2.connect] returns. *)
Inductive sql_connection := Engine | RawConnection.

(** [df.to_sql(name=..., con=..., schema='public', chunksize=...,
    index=False, if_exists=...)]. pandas takes a DBAPI2 connection that is
    no connectable of SQLAlchemy for a connection to SQLite: the first
    statement it sends, the look-up of the table in [sqlite_master], fails
    on any other server, the call raises and nothing is written. *)
Definition to_sql (name : string) (con : sql_connection) (chunksize : nat)
    (if_exists : write_mode) (df : DataFrame) : M unit :=
  external (ToSql name if_exists (columns df) chunksize)
    (fun w =>
       match con with
       | RawConnection => (w, Raise OtherError)
       | Engine =>
           let batches := insert_batches chunksize (rows df) in
           match write_table if_exists (pg w !! name) (columns df) batches
           with
           | Some t => (set_pg (<[name := t]> (pg w)) w, Ok tt)
           | None => (w, Raise OtherError)
           end
       end).

(** ** The clock *)

Definition is_leap (y : Z) : bool :=
  (((y mod 4 =? 0) && negb (y mod 100 =? 0)) || (y mod 400 =? 0))%Z.

Definition days_in_month (y m : Z) : Z :=
  if (m =? 2)%Z then (if is_leap y then 29 else 28)%Z
  else if ((m =? 4) || (m =? 6) || (m =? 9) || (m =? 11))%Z then 30%Z
  else 31%Z.

(** [d - timedelta(days=1)] *)
Definition minus_one_day (d : datetime) : datetime :=
  if (1 <? day d)%Z then
    mkDatetime (year d) (month d) (day d - 1) (hour d) (minute d) (second d)
  else if (1 <? month d)%Z then
    mkDatetime (year d) (month d - 1) (days_in_month (year d) (month d - 1))
               (hour d) (minute d) (second d)
  else
    mkDatetime (year d - 1) 12 31 (hour d) (minute d) (second d).

Definition digit (n : Z) : ascii := ascii_of_nat (48 + Z.to_nat (n mod 10)).

Definition pad2 (n : Z) : string :=
  String (digit (n / 10)) (String (digit n) EmptyString).

Definition pad4 (n : Z) : string :=
  String (digit (n / 1000)) (String (digit (n / 100)) (pad2 n)).

(** [%Y] as the C library prints it for [strftime]: the year in decimal,
    without padding. The year of a [datetime] is between 1 and 9999. *)
Definition year_digits (y : Z) : string :=
  if (y <? 10)%Z then String (digit y) EmptyString
  else if (y <? 100)%Z then pad2 y
  else if (y <? 1000)%Z then String (digit (y / 100)) (pad2 y)
  else pad4 y.

(** [d.strftime('%Y-%m-%d')] *)
Definition strftime_Y_m_d (d : datetime) : string :=
  year_digits (year d) +:+ "-" +:+ pad2 (month d) +:+ "-" +:+ pad2 (day d).

(** [datetime.now()]: the next reading of the clock. *)
Definition datetime_now : M datetime :=
  local_call Now (fun w => (set_ticks (S (ticks w)) w, clock w (ticks w))).

(** [get_yesterday_date] *)
Definition get_yesterday_date : M string :=
  now <- datetime_now ;;
  let yesterday := minus_one_day now in
  ret (strftime_Y_m_d yesterday).

(** ** Loader ([scripts/load_partitions_to_pg.py]) *)

Section Pipeline.

(** pandas' CSV codec: [DataFrame.to_csv(index=False)] and [pd.read_csv],
    which raises on bytes it cannot parse. *)
Variable to_csv : DataFrame -> string.
Variable read_csv : string -> option DataFrame.

(** [str.lower()], which lower-cases every cased character of a string,
    the letters outside ASCII too. *)
Variable str_lower : string -> string.

(** [get_gcs_files_in_processing_zone] *)
Definition get_gcs_files_in_processing_zone (bucket_name : string)
    : M (list string) :=
  try_except
    (blobs <- list_blobs "processing_zone/" ;;
     let csv_files :=
       map (PyStr.replace "processing_zone/" EmptyString)
           (List.filter
              (fun name => PyStr.endswith ".csv" name
                           && PyStr.startswith "processing_zone/" name)
              blobs) in
     ret csv_files)
    (fun _ => ret []).

(** [move_file_in_gcs] *)
Definition move_file_in_gcs (bucket_name source_blob_name
    destination_blob_name : string) : M bool :=
  try_except
    (copy_blob source_blob_name destination_blob_name ;;
     blob_delete source_blob_name ;;
     ret true)
    (fun _ => ret false).

(** [delete_file_from_gcs] *)
Definition delete_file_from_gcs (bucket_name blob_name : string) : M bool :=
  try_except
    (blob_delete blob_name ;;
     ret true)
    (fun _ => ret false).

(** [pd.read_csv(buffer)] *)
Definition pd_read_csv (data : string) : M DataFrame :=
  match read_csv data with
  | Some df => ret df
  | None => raise OtherError
  end.

Definition CHUNKSIZE : nat := 5000.

(** [load_partition_to_postgresql] *)
Definition load_partition_to_postgresql (bucket_name file_name : string)
    (pg_connection : sql_connection) (table_name : string) : M bool :=
  try_except
    (buffer <- download ("processing_zone/" +:+ file_name) ;;
     df <- pd_read_csv buffer ;;
     let df := set_columns (map str_lower (columns df)) df in
     let if_exists :=
       if String.eqb table_name "partitioned_table3"
       then Replace else Append in
     to_sql table_name pg_connection CHUNKSIZE if_exists df ;;
     ret true)
    (fun _ => ret false).

(** The body of the loop of [load_all_partitions_to_postgresql] for one
    file; the two lists are [successful_files] and [failed_files]. *)
Definition load_one (pg_connection : sql_connection)
    (bucket_name file_name : string)
    (acc : list string * list string) : M (list string * list string) :=
  let '(successful_files, failed_files) := acc in
  let table_name := extract_table_name_from_filename file_name in
  success <- load_partition_to_postgresql bucket_name file_name
               pg_connection table_name ;;
  if success : bool then
    delete_success <-
      delete_file_from_gcs bucket_name ("processing_zone/" +:+ file_name) ;;
    if delete_success : bool
    then ret (successful_files ++ [file_name], failed_files)
    else ret (successful_files, failed_files ++ [file_name])
  else
    move_success <-
      move_file_in_gcs bucket_name ("processing_zone/" +:+ file_name)
                       ("unprocess_zone/" +:+ file_name) ;;
    if move_success : bool
    then ret (successful_files, failed_files ++ [file_name])
    else ret (successful_files, failed_files).

(** [for file_name in gcs_files: ...] *)
Fixpoint load_files (pg_connection : sql_connection) (bucket_name : string)
    (gcs_files : list string) (acc : list string * list string)
    : M (list string * list string) :=
  match gcs_files with
  | [] => ret acc
  | file_name :: rest =>
      acc' <- load_one pg_connection bucket_name file_name acc ;;
      load_files pg_connection bucket_name rest acc'
  end.

(** The configuration and client accessors; each can raise. *)
Definition get_gcp_clients : M unit :=
  external GetGcpClients (fun w => (w, Ok tt)).
Definition get_bigquery_client : M unit :=
  external GetBigQueryClient (fun w => (w, Ok tt)).
Definition get_gcs_client : M unit :=
  external GetGcsClient (fun w => (w, Ok tt)).
Definition get_postgresql_connection : M unit :=
  external GetPgClient (fun w => (w, Ok tt)).
(** [pg_client.get_postgresql_connection()]: the connection that
    [psycopg2.connect] made ([postgresql_conn/pg_conn.py]). *)
Definition pg_client_get_postgresql_connection : M sql_connection :=
  external PgConnect (fun w => (w, Ok RawConnection)).
Definition config_bucket_name : M string := fun w => (w, Ok (bucket_name w)).
Definition config_project_id : M string := fun w => (w, Ok (project_id w)).
Definition config_dataset_id : M string := fun w => (w, Ok (dataset_id w)).

(** [pg_connection.close()] and [pg_client.close_postgresql_connection()] *)
Definition pg_connection_close : M unit :=
  local_call PgClose (fun w => (w, tt)).
Definition close_postgresql_connection : M unit :=
  local_call PgClientClose (fun w => (w, tt)).

(** Python's truth value of a string *)
Definition truthy (s : string) : bool :=
  match s with EmptyString => false | _ => true end.

(** [load_all_partitions_to_postgresql].  The [finally] clause closes
    what the [try] block got to bind: the two nested [try_finally] are
    entered right after [pg_client] and [pg_connection] are bound. *)
Definition load_all_partitions_to_postgresql
    : M (list string * list string) :=
  try_except
    (get_gcp_clients ;;
     get_gcs_client ;;
     get_postgresql_connection ;;
     try_finally
       (pg_connection <- pg_client_get_postgresql_connection ;;
        try_finally
          (bucket_name <- config_bucket_name ;;
           if negb (truthy bucket_name) then ret ([], [])
           else
             gcs_files <- get_gcs_files_in_processing_zone bucket_name ;;
             match gcs_files with
             | [] => ret ([], [])
             | _ => load_files pg_connection bucket_name gcs_files ([], [])
             end)
          pg_connection_close)
       close_postgresql_connection)
    (fun _ => ret ([], [])).


(** ** Exporter ([scripts/export_bq_partitions_to_gcs.py]) *)

(** [bq_client.list_tables(dataset_ref)] *)
Definition list_tables (dataset_id : string) : M (list TableMeta) :=
  external (ListTables dataset_id) (fun w => (w, Ok (bq_tables w))).

(** [bq_client.get_table(table.reference)] *)
Definition get_table_ref (table : TableMeta) : M TableMeta :=
  external (GetTable (table_id table)) (fun w => (w, Ok table)).

(** [bq_client.get_table(table_id)] by name *)
Definition get_table (full_name table : string) : M TableMeta :=
  external (GetTable full_name)
    (fun w => match List.find (fun t => String.eqb (table_id t) table)
                              (bq_tables w) with
              | Some t => (w, Ok t)
              | None => (w, Raise NotFound)
              end).

(** [bq_client.query(query)] *)
Definition bq_query (q : call) : M unit :=
  external q (fun w => (w, Ok tt)).

(** [query_job.result()] *)
Definition query_job_result : M unit :=
  external QueryResult (fun w => (w, Ok tt)).

(** Python's truth value of an object that may be [None] *)
Definition is_Some_b {A} (o : option A) : bool :=
  match o with Some _ => true | None => false end.

(** The loop of [list_partitioned_tables]. *)
Fixpoint list_partitioned_loop (tables : list TableMeta)
    (partitioned_tables : list string) : M (list string) :=
  match tables with
  | [] => ret partitioned_tables
  | table :: rest =>
      partitioned_tables' <-
        try_except
          (table_ref <- get_table_ref table ;;
           if is_Some_b (time_partitioning table_ref)
              || is_Some_b (range_partitioning table_ref)
           then ret (partitioned_tables ++ [table_id table])
           else ret partitioned_tables)
          (fun e => match e with
                    | NotFound => ret partitioned_tables
                    | Forbidden => ret partitioned_tables
                    | _ => raise e
                    end) ;;
      list_partitioned_loop rest partitioned_tables'
  end.

(** [list_partitioned_tables] *)
Definition list_partitioned_tables (dataset_id : string) : M (list string) :=
  try_except
    (tables <- list_tables dataset_id ;;
     list_partitioned_loop tables [])
    (fun e => match e with
              | NotFound => ret []
              | Forbidden => ret []
              | _ => if is_GoogleAPIError e then ret [] else raise e
              end).

(** [check_for_yesterdays_partition] *)
Definition check_for_yesterdays_partition (table full_dataset_id
    yesterday : string) : M (option string) :=
  let new_partition := PyStr.replace "-" EmptyString yesterday in
  try_except
    (bq_query (PartitionsQuery full_dataset_id table) ;;
     query_job_result ;;
     result <- (fun w => (w, Ok (bq_partitions w full_dataset_id table))) ;;
     let partition_id :=
       if (0 <? length result)%nat then hd None result else None in
     if match partition_id with
        | Some p => String.eqb p new_partition
        | None => false
        end
     then ret partition_id
     else ret None)
    (fun _ => ret None).

(** [get_partitioning_field]. Its handlers name [bigquery.NotFound],
    [bigquery.Forbidden] and [bigquery.GoogleCloudError], and the module
    [google.cloud.bigquery] has no such attributes: when the body raises,
    the look-up of the first handler's class raises [AttributeError], which
    is what leaves the function, whatever the body raised. *)
Definition get_partitioning_field (table dataset_id : string)
    : M (option string) :=
  let table_id := dataset_id +:+ "." +:+ table in
  try_except
    (bq_table <- get_table table_id table ;;
     match time_partitioning bq_table with
     | Some field => ret field
     | None =>
         match range_partitioning bq_table with
         | Some field => ret (Some field)
         | None => ret None
         end
     end)
    (fun _ => raise OtherError).

(** [export_partition_to_csv] *)
Definition export_partition_to_csv (bucket_name dataset_id table
    partition_field partition_id yesterday destination_uri : string)
    : M bool :=
  let destination_uri :=
    destination_uri +:+ "/" +:+ table +:+ "_" +:+ partition_id +:+ ".csv" in
  let blob_name :=
    "processing_zone/" +:+ table +:+ "_" +:+ partition_id +:+ ".csv" in
  try_except
    (bq_query (SelectQuery dataset_id table partition_field yesterday) ;;
     query_job_result ;;
     df <- external ToDataframe
             (fun w => (w, Ok (bq_select w dataset_id table partition_field
                                         yesterday))) ;;
     if df_empty df then ret false
     else
       let csv_data := to_csv df in
       upload_from_string blob_name csv_data ;;
       ret true)
    (fun e => if is_GoogleAPIError e then ret false else ret false).

(** Python's truth value of [None] or a string *)
Definition truthy_opt (o : option string) : bool :=
  match o with Some s => truthy s | None => false end.

(** The body of the loop of [export_all_new_partitions_to_gcs] for one
    table; the two lists are [exported_tables] and [failed_tables]. *)
Definition export_one (bucket_name full_dataset_id dataset_id yesterday
    partition_id table : string) (acc : list string * list string)
    : M (list string * list string) :=
  let '(exported_tables, failed_tables) := acc in
  partition_exists <-
    check_for_yesterdays_partition table full_dataset_id yesterday ;;
  if truthy_opt partition_exists then
    partition_field <- get_partitioning_field table dataset_id ;;
    if truthy_opt partition_field then
      let destination_uri :=
        "gs://" +:+ bucket_name +:+ "/processing_zone" in
      success <-
        export_partition_to_csv bucket_name full_dataset_id table
          (default EmptyString partition_field) partition_id
          yesterday destination_uri ;;
      if success : bool
      then ret (exported_tables ++ [table], failed_tables)
      else ret (exported_tables, failed_tables ++ [table])
    else ret (exported_tables, failed_tables ++ [table])
  else ret (exported_tables, failed_tables).

(** [for table in partitioned_tables: ...] *)
Fixpoint export_loop (bucket_name full_dataset_id dataset_id yesterday
    partition_id : string) (partitioned_tables : list string)
    (acc : list string * list string) : M (list string * list string) :=
  match partitioned_tables with
  | [] => ret acc
  | table :: rest =>
      acc' <- export_one bucket_name full_dataset_id dataset_id yesterday
                         partition_id table acc ;;
      export_loop bucket_name full_dataset_id dataset_id yesterday
                  partition_id rest acc'
  end.

(** [export_all_new_partitions_to_gcs] *)
Definition export_all_new_partitions_to_gcs : M (list string) :=
  try_except
    (get_gcp_clients ;;
     get_bigquery_client ;;
     get_gcs_client ;;
     project_id <- config_project_id ;;
     dataset_id <- config_dataset_id ;;
     bucket_name <- config_bucket_name ;;
     if negb (truthy project_id) || negb (truthy dataset_id)
        || negb (truthy bucket_name)
     then ret []
     else
       let full_dataset_id := project_id +:+ "." +:+ dataset_id in
       yesterday <- get_yesterday_date ;;
       let partition_id := PyStr.replace "-" EmptyString yesterday in
       partitioned_tables <- list_partitioned_tables dataset_id ;;
       match partitioned_tables with
       | [] => ret []
       | _ =>
           r <- export_loop bucket_name full_dataset_id dataset_id
                            yesterday partition_id partitioned_tables
                            ([], []) ;;
           ret (fst r)
       end)
    (fun _ => ret []).

(** The loop of [main] of the export script. *)
Fixpoint check_loop (full_dataset_id yesterday : string)
    (partitioned_tables : list string)
    (tables_with_yesterday_partition : list string) : M (list string) :=
  match partitioned_tables with
  | [] => ret tables_with_yesterday_partition
  | table :: rest =>
      partition_id <-
        check_for_yesterdays_partition table full_dataset_id yesterday ;;
      check_loop full_dataset_id yesterday rest
        (if truthy_opt partition_id
         then tables_with_yesterday_partition ++ [table]
         else tables_with_yesterday_partition)
  end.

(** [main] of the export script *)
Definition export_main : M (list string) :=
  try_except
    (get_gcp_clients ;;
     get_bigquery_client ;;
     project_id <- config_project_id ;;
     dataset_id <- config_dataset_id ;;
     if negb (truthy project_id) || negb (truthy dataset_id)
     then ret []
     else
       let full_dataset_id := project_id +:+ "." +:+ dataset_id in
       yesterday <- get_yesterday_date ;;
       partitioned_tables <- list_partitioned_tables dataset_id ;;
       match partitioned_tables with
       | [] => ret []
       | _ =>
           tables_with_yesterday_partition <-
             check_loop full_dataset_id yesterday partitioned_tables [] ;;
           match tables_with_yesterday_partition with
           | _ :: _ =>
               exported_tables <- export_all_new_partitions_to_gcs ;;
               ret exported_tables
           | [] => ret tables_with_yesterday_partition
           end
       end)
    (fun _ => ret []).

(** ** Orchestrator ([main.py]) *)



End Pipeline.

(** ** Definitions used to state the properties *)

(** The prefix of [s] that ends before the [n]-th occurrence of [sep]; all
    of [s] when [sep] occurs fewer than [n] times. *)
Fixpoint before_nth_sep (sep : ascii) (n : nat) (s : string) {struct s}
    : string :=
  match s with
  | EmptyString => EmptyString
  | String c s' =>
      if Ascii.eqb c sep then
        match n with
        | 0 | 1 => EmptyString
        | S m => String c (before_nth_sep sep m s')
        end
      else
        match n with
        | 0 => EmptyString
        | _ => String c (before_nth_sep sep n s')
        end
  end.

(** The number of occurrences of [c] in [s]. *)
Fixpoint count_char (c : ascii) (s : string) : nat :=
  match s with
  | EmptyString => 0
  | String a s' => (if Ascii.eqb a c then 1 else 0) + count_char c s'
  end.

(** The name of the staged file of a table and a partition. *)
Definition staged_name (table partition_id : string) : string :=
  table +:+ "_" +:+ partition_id +:+ ".csv".

(** The next [n] external calls are not disturbed by the fault schedule. *)
Definition undisturbed (n : nat) (fs : list (option exn)) : bool :=
  forallb (fun o => match o with None => true | Some _ => false end)
          (take n fs).

Definition calm (n : nat) (w : World) : Prop :=
  undisturbed n (faults w) = true.

(** The events recorded between two worlds. *)
Definition events_since (w w' : World) : list event :=
  drop (length (trace w)) (trace w').

(** The objects a list of calls tried to download, in order. *)
Definition downloads (evs : list event) : list string :=
  omap (fun ev : event =>
          match fst ev with Download name => Some name | _ => None end) evs.

(** The names of the staged files of a bucket, as the loader derives them
    from the listing of the processing zone. *)
Definition staged_files (g : gmap string string) : list string :=
  map (PyStr.replace "processing_zone/" EmptyString)
      (List.filter
         (fun name => PyStr.endswith ".csv" name
                      && PyStr.startswith "processing_zone/" name)
         (List.filter (PyStr.startswith "processing_zone/")
                      (object_names g))).

(** The [if_exists] policy of the loader. *)
Definition write_policy (table_name : string) : write_mode :=
  if String.eqb table_name "partitioned_table3" then Replace else Append.

(** ** A small CSV codec and concrete worlds, to run the pipeline on *)

(** Cells joined by commas, lines by line feeds; no quoting. *)
Definition toy_to_csv (df : DataFrame) : string :=
  PyStr.join (String (ascii_of_nat 10) EmptyString)
             (map (PyStr.join ",") (columns df :: rows df)).

Definition toy_read_csv (data : string) : option DataFrame :=
  match data with
  | EmptyString => None
  | _ =>
      match map (PyStr.split ","%char)
                (PyStr.split (ascii_of_nat 10) data) with
      | header :: body => Some (mkDataFrame header body)
      | [] => None
      end
  end.

(** Lower-casing of the letters A to Z: [str.lower()] on the strings of
    ASCII characters, which the names of the examples are. *)
Definition toy_lower_char (c : ascii) : ascii :=
  let n := nat_of_ascii c in
  if (65 <=? n)%nat && (n <=? 90)%nat then ascii_of_nat (n + 32) else c.

Fixpoint toy_lower (s : string) : string :=
  match s with
  | EmptyString => EmptyString
  | String c s' => String (toy_lower_char c) (toy_lower s')
  end.

(** A frame as the warehouse answers it for a partition of two rows. *)
Definition two_rows : DataFrame :=
  mkDataFrame ["Id"; "Event_Date"]
              [["1"; "2024-01-14"]; ["2"; "2024-01-14"]].

Definition no_rows : DataFrame := mkDataFrame ["Id"; "Event_Date"] [].

(** A world in the night of 2024-01-15 whose dataset holds one table with
    yesterday's partition, one without and one that is not partitioned, and
    whose bucket holds the given objects. *)
Definition world_with (fs : list (option exn)) (g : gmap string string)
    : World :=
  mkWorld (fun _ => mkDatetime 2024 1 15 3 0 0) 0 fs
    "proj" "ds" "bucket"
    [mkTableMeta "user_events" (Some (Some "event_date")) None;
     mkTableMeta "orders" None (Some "day_key");
     mkTableMeta "plain" None None]
    (fun _ table =>
       if String.eqb table "user_events" then [Some "20240114"]
       else [Some "20240110"])
    (fun _ _ _ date =>
       if String.eqb date "2024-01-14" then two_rows else no_rows)
    g ∅ [].

(** One staged file left in the processing zone. *)
Definition one_staged_file : gmap string string :=
  {[ "processing_zone/user_events_20240114.csv" := toy_to_csv two_rows ]}.

(** ** The terminal states of a staged file

    Between the bucket [g] before a load pass and the bucket [g'] after it,
    the file [f] was deleted from the processing zone, moved to the failed
    zone, or left where it was (with or without a copy in the failed
    zone). *)
Definition deleted_state (g g' : gmap string string) (f : string) : Prop :=
  is_Some (g !! ("processing_zone/" +:+ f))
  /\ g' !! ("processing_zone/" +:+ f) = None
  /\ g' !! ("unprocess_zone/" +:+ f) = g !! ("unprocess_zone/" +:+ f).

Definition moved_state (g g' : gmap string string) (f : string) : Prop :=
  is_Some (g !! ("processing_zone/" +:+ f))
  /\ g' !! ("processing_zone/" +:+ f) = None
  /\ g' !! ("unprocess_zone/" +:+ f) = g !! ("processing_zone/" +:+ f).

Definition left_in_place (g g' : gmap string string) (f : string) : Prop :=
  g' !! ("processing_zone/" +:+ f) = g !! ("processing_zone/" +:+ f)
  /\ (g' !! ("unprocess_zone/" +:+ f) = g !! ("unprocess_zone/" +:+ f)
      \/ (is_Some (g !! ("processing_zone/" +:+ f))
          /\ g' !! ("unprocess_zone/" +:+ f)
             = g !! ("processing_zone/" +:+ f))).

(** How a load pass that reports [successful] and [failed] left the file. *)
Definition file_outcome (g g' : gmap string string)
    (successful failed : list string) (f : string) : Prop :=
  (In f successful /\ ~ In f failed /\ deleted_state g g' f)
  \/ (In f failed /\ ~ In f successful /\ moved_state g g' f)
  \/ (~ In f successful /\ left_in_place g g' f).

(** The object of the file was in the processing zone of [g] and is not in
    that of [g']. *)
Definition gone (g g' : gmap string string) (f : string) : Prop :=
  is_Some (g !! ("processing_zone/" +:+ f))
  /\ g' !! ("processing_zone/" +:+ f) = None.

(** Among the calls is a finalize call for the file: the delete of its
    object, or its copy to the failed zone. *)
Definition finalize_called (evs : list event) (f : string) : Prop :=
  exists o,
    In (Delete ("processing_zone/" +:+ f), o) evs
    \/ In (Copy ("processing_zone/" +:+ f) ("unprocess_zone/" +:+ f), o) evs.


Definition load_and_copy_fault : list (option exn) :=
  [None; None; None; None; None; None; Some OtherError; Some ApiError].

(** Between the two worlds only the fault schedule and the record of calls
    may differ. *)
Definition static (w w' : World) : Prop :=
  clock w' = clock w
  /\ project_id w' = project_id w
  /\ dataset_id w' = dataset_id w
  /\ bucket_name w' = bucket_name w
  /\ bq_tables w' = bq_tables w
  /\ bq_partitions w' = bq_partitions w
  /\ bq_select w' = bq_select w.

Definition same_but_log (w w' : World) : Prop :=
  static w w' /\ ticks w' = ticks w /\ gcs w' = gcs w /\ pg w' = pg w.

(** The date [get_yesterday_date] makes of a reading of the clock, and the
    partition id of that date. *)
Definition yesterday_of (now : datetime) : string :=
  strftime_Y_m_d (minus_one_day now).

Definition date_key (yesterday : string) : string :=
  PyStr.replace "-" EmptyString yesterday.

(** The first row of the catalog's answer for a table. *)
Definition catalog_max (w : World) (full_dataset_id table : string)
    : option string :=
  hd None (bq_partitions w full_dataset_id table).

(** Every object of [g] is still an object of [g']. *)
Definition keeps_objects (g g' : gmap string string) : Prop :=
  forall k, is_Some (g !! k) -> is_Some (g' !! k).

(** A run that starts one second before midnight: the first reading of the
    clock falls on 2024-01-15, the later ones on 2024-01-16. The catalog
    answers 20240114 for [user_events] and 20240115 for [orders]. *)
Definition midnight_world : World :=
  mkWorld (fun n => if (n <? 1)%nat
                    then mkDatetime 2024 1 15 23 59 59
                    else mkDatetime 2024 1 16 0 0 1)
    0 [] "proj" "ds" "bucket"
    [mkTableMeta "user_events" (Some (Some "event_date")) None;
     mkTableMeta "orders" None (Some "day_key")]
    (fun _ table =>
       if String.eqb table "user_events" then [Some "20240114"]
       else [Some "20240115"])
    (fun _ _ _ _ => two_rows)
    ∅ ∅ [].

(** ** Definitions used to state further properties *)

(** [table_ref.time_partitioning or table_ref.range_partitioning] *)
Definition is_partitioned (t : TableMeta) : bool :=
  is_Some_b (time_partitioning t) || is_Some_b (range_partitioning t).

(** The ids of the partitioned tables of a listing, in its order. *)
Definition partitioned_ids (tables : list TableMeta) : list string :=
  map table_id (List.filter is_partitioned tables).

(** No call is disturbed, however many are made. *)
Definition fault_free (w : World) : Prop := forall n, calm n w.

(** The calls of an undisturbed load of the file [f] with content [data]
    into [table], on the connection of the loader. *)
Definition load_events (read_csv : string -> option DataFrame)
    (str_lower : string -> string) (f table data : string) : list event :=
  (Download ("processing_zone/" +:+ f), None)
  :: match read_csv data with
     | Some df =>
         [(ToSql table (write_policy table) (map str_lower (columns df))
                 CHUNKSIZE, Some OtherError)]
     | None => []
     end.

(** The calls that list, read or write the objects of the bucket or the
    tables of the database; getting the clients and opening or closing the
    database connection are not among them. *)
Definition data_call (c : call) : bool :=
  match c with
  | ListBlobs _ | Download _ | ToSql _ _ _ _ | Copy _ _ | Delete _ => true
  | _ => false
  end.

(** The calls with which a load pass gets its clients, and those with which
    it gives the connection back. *)
Definition opening : list event :=
  [(GetGcpClients, None); (GetGcsClient, None); (GetPgClient, None);
   (PgConnect, None)].

Definition closing : list event :=
  [(PgClose, None); (PgClientClose, None)].

(** The event is a call on the objects of the bucket or on the tables of
    the database. *)
Definition data_event (ev : event) : Prop := data_call (fst ev) = true.

(** A world whose configuration names no dataset. *)
Definition no_dataset_world : World :=
  mkWorld (fun _ => mkDatetime 2024 1 15 3 0 0) 0 [] "proj" EmptyString
    "bucket" [] (fun _ _ => []) (fun _ _ _ _ => no_rows)
    one_staged_file ∅ [].

(** A world whose configuration names no bucket. *)
Definition no_bucket_world : World :=
  mkWorld (fun _ => mkDatetime 2024 1 15 3 0 0) 0 [] "proj" "ds"
    EmptyString [] (fun _ _ => []) (fun _ _ _ _ => no_rows)
    one_staged_file ∅ [].

(** A world whose one table is partitioned by ingestion time, with
    yesterday's partition in the catalog. *)
Definition ingestion_time_world : World :=
  mkWorld (fun _ => mkDatetime 2024 1 15 3 0 0) 0 [] "proj" "ds" "bucket"
    [mkTableMeta "page_views" (Some None) None]
    (fun _ _ => [Some "20240114"])
    (fun _ _ _ _ => two_rows) ∅ ∅ [].

(** A world whose two tables both hold yesterday's partition, and the
    schedule of an export pass over it in which the first call to raise is
    the [get_table] that looks up the partitioning field of the second
    table. *)
Definition two_tables_world (fs : list (option exn)) : World :=
  mkWorld (fun _ => mkDatetime 2024 1 15 3 0 0) 0 fs "proj" "ds" "bucket"
    [mkTableMeta "user_events" (Some (Some "event_date")) None;
     mkTableMeta "orders" None (Some "day_key")]
    (fun _ _ => [Some "20240114"])
    (fun _ _ _ _ => two_rows) ∅ ∅ [].

Definition field_lookup_fault : list (option exn) :=
  replicate 15 None ++ [Some NotFound].

(** * The database client ([postgresql_conn/pg_conn.py])

    The scripts see the client through two calls that can raise; here is
    what stands behind them. The connection objects live in a heap, so
    that the handle the loader holds and the one the client keeps are the
    same object. *)

Module PgConn.

(** A scalar of [config.yaml]. *)
Inductive yaml := YNull | YBool (b : bool) | YInt (n : Z) | YStr (s : string).

(** Python's truth value of a scalar *)
Definition yaml_truthy (v : yaml) : bool :=
  match v with
  | YNull => false
  | YBool b => b
  | YInt n => negb (n =? 0)%Z
  | YStr s => match s with EmptyString => false | _ => true end
  end.

(** What [open] and [yaml.safe_load] make of the configuration file: the
    file is missing, it does not parse, or it gives a document, of which
    the [postgresql] section is kept ([None] when the document has none). *)
Inductive config_file :=
| Missing
| Malformed
| Parsed (postgresql : option (gmap string yaml)).

(** Why [initialize_postgresql_connection] failed. *)
Inductive init_cause :=
| NoKey (key : string)
| NotConfigured (param : string)
| ConnectRefused.

Inductive error :=
| FileNotFoundError
| ValueError
| InitFailed (cause : init_cause)
| InterfaceError
| AttributeError
| ExecuteError.

Inductive outcome (A : Type) :=
| Returns (a : A)
| Raises (e : error).
Arguments Returns {A} a.
Arguments Raises {A} e.

(** A [PostgreSQLConnection] object. *)
Record obj := mkObj {
  config : option (gmap string yaml);
  pg_connection : option nat
}.

(** The connection objects made so far, each closed or not; the schedule
    of the calls of the driver that raise; the parameters of every call of
    [psycopg2.connect]. *)
Record heap := mkHeap {
  closed : list bool;
  refused : list bool;
  connects : list (list (string * yaml))
}.

Definition section_get (pg_config : gmap string yaml) (key : string)
    : yaml + init_cause :=
  match pg_config !! key with
  | Some v => inl v
  | None => inr (NoKey key)
  end.

(** The dictionary [connection_params], in the order of its keys. *)
Definition connection_params (self : obj)
    : list (string * yaml) + init_cause :=
  match config self with
  | None => inr (NoKey "postgresql")
  | Some pg_config =>
      match section_get pg_config "host" with
      | inr c => inr c
      | inl host =>
      match section_get pg_config "port" with
      | inr c => inr c
      | inl port =>
      match section_get pg_config "database" with
      | inr c => inr c
      | inl database =>
      match section_get pg_config "username" with
      | inr c => inr c
      | inl user =>
      match section_get pg_config "password" with
      | inr c => inr c
      | inl password =>
          inl [("host", host); ("port", port); ("database", database);
               ("user", user); ("password", password)]
      end end end end end
  end.

(** [for key, value in connection_params.items(): if not value: raise] *)
Fixpoint validate (params : list (string * yaml)) : option init_cause :=
  match params with
  | [] => None
  | (key, value) :: rest =>
      if negb (yaml_truthy value) then Some (NotConfigured key)
      else validate rest
  end.

(** [psycopg2.connect] on the parameters: a new open connection, unless
    the schedule has the call raise. *)
Definition psycopg2_connect (params : list (string * yaml)) (h : heap)
    : heap * (nat + init_cause) :=
  match refused h with
  | true :: rest =>
      (mkHeap (closed h) rest (connects h ++ [params]), inr ConnectRefused)
  | _ =>
      (mkHeap (closed h ++ [false]) (tail (refused h))
              (connects h ++ [params]),
       inl (length (closed h)))
  end.

(** [initialize_postgresql_connection]: every exception of the body comes
    out wrapped in one [Exception]. *)
Definition initialize_postgresql_connection (self : obj) (h : heap)
    : obj * heap * outcome nat :=
  match connection_params self with
  | inr c => (self, h, Raises (InitFailed c))
  | inl params =>
      match validate params with
      | Some c => (self, h, Raises (InitFailed c))
      | None =>
          match psycopg2_connect params h with
          | (h', inl conn) =>
              (mkObj (config self) (Some conn), h', Returns conn)
          | (h', inr c) => (self, h', Raises (InitFailed c))
          end
      end
  end.

(** [connection.closed] *)
Definition is_closed (h : heap) (conn : nat) : bool :=
  default true (closed h !! conn).

(** [connection.close()] *)
Definition connection_close (conn : nat) (h : heap) : heap :=
  mkHeap (<[conn := true]> (closed h)) (refused h) (connects h).

(** [get_postgresql_connection] of the object *)
Definition get_postgresql_connection (self : obj) (h : heap)
    : obj * heap * outcome (option nat) :=
  if match pg_connection self with
     | None => true
     | Some conn => is_closed h conn
     end
  then
    match initialize_postgresql_connection self h with
    | (self', h', Raises e) => (self', h', Raises e)
    | (self', h', Returns _) => (self', h', Returns (pg_connection self'))
    end
  else (self, h, Returns (pg_connection self)).

(** [get_postgresql_cursor]: the cursor of a connection, which a closed
    connection does not give. *)
Definition get_postgresql_cursor (self : obj) (h : heap)
    : obj * heap * outcome nat :=
  match get_postgresql_connection self h with
  | (self', h', Raises e) => (self', h', Raises e)
  | (self', h', Returns None) => (self', h', Raises AttributeError)
  | (self', h', Returns (Some conn)) =>
      if is_closed h' conn then (self', h', Raises InterfaceError)
      else (self', h', Returns conn)
  end.

(** [close_postgresql_connection] *)
Definition close_postgresql_connection (self : obj) (h : heap)
    : obj * heap :=
  match pg_connection self with
  | Some conn =>
      if negb (is_closed h conn)
      then (mkObj (config self) None, connection_close conn h)
      else (self, h)
  | None => (self, h)
  end.

(** [cursor.execute("SELECT 1")] *)
Definition cursor_execute (h : heap) : heap * outcome unit :=
  match refused h with
  | true :: rest =>
      (mkHeap (closed h) rest (connects h), Raises ExecuteError)
  | _ => (mkHeap (closed h) (tail (refused h)) (connects h), Returns tt)
  end.

(** [test_connection] *)
Definition test_connection (self : obj) (h : heap)
    : obj * heap * outcome bool :=
  match get_postgresql_cursor self h with
  | (self', h', Raises _) => (self', h', Returns false)
  | (self', h', Returns _) =>
      match cursor_execute h' with
      | (h'', Raises _) => (self', h'', Returns false)
      | (h'', Returns _) => (self', h'', Returns true)
      end
  end.

(** The module: the configuration file, how often it was opened, and
    [_postgresql_connection_instance]. *)
Record module := mkModule {
  file : config_file;
  reads : nat;
  instance : option obj
}.

(** [_load_config] *)
Definition load_config (m : module)
    : module * outcome (option (gmap string yaml)) :=
  let m' := mkModule (file m) (S (reads m)) (instance m) in
  match file m with
  | Missing => (m', Raises FileNotFoundError)
  | Malformed => (m', Raises ValueError)
  | Parsed postgresql => (m', Returns postgresql)
  end.

(** [PostgreSQLConnection(config_path)] *)
Definition new_connection_object (m : module) : module * outcome obj :=
  match load_config m with
  | (m', Raises e) => (m', Raises e)
  | (m', Returns cfg) => (m', Returns (mkObj cfg None))
  end.

(** The module's [get_postgresql_connection(config_path)]: it returns the
    one object, made on the first call that gets through. The object is
    the one kept in [instance]; what is returned stands for the reference
    to it. *)
Definition get_instance (m : module) : module * outcome unit :=
  match instance m with
  | Some _ => (m, Returns tt)
  | None =>
      match new_connection_object m with
      | (m', Raises e) => (m', Raises e)
      | (m', Returns o) =>
          (mkModule (file m') (reads m') (Some o), Returns tt)
      end
  end.

(** No handle dangles: the connection the object holds is in the heap. *)
Definition well_formed (self : obj) (h : heap) : Prop :=
  match pg_connection self with
  | Some conn => (conn < length (closed h))%nat
  | None => True
  end.

(** The object holds an open connection. *)
Definition holds_open (self : obj) (h : heap) : Prop :=
  exists conn, pg_connection self = Some conn /\ is_closed h conn = false.

(** Every recorded call of [psycopg2.connect] had five parameters, none of
    them falsy. *)
Definition connects_checked (h : heap) : Prop :=
  Forall (fun params : list (string * yaml) =>
            map fst params = ["host"; "port"; "database"; "user"; "password"]
            /\ Forall (fun kv => yaml_truthy (snd kv) = true) params)
         (connects h).

(** A complete configuration section. *)
Definition good_section : gmap string yaml :=
  <["host" := YStr "db.internal"]>
    (<["port" := YInt 5432]>
       (<["database" := YStr "warehouse"]>
          (<["username" := YStr "loader"]>
             {["password" := YStr "secret"]}))).

Definition empty_heap : heap := mkHeap [] [] [].

End PgConn.

(** * The cloud clients ([gcp_clients/clients.py]) *)

Module GcpClients.

Inductive service := BigQuery | Storage.

(** Why the initialization of a client failed. *)
Inductive init_cause :=
| NoPath
| NoCredentialsFile (path : string)
| ClientRefused.

Inductive error :=
| InitFailed (s : service) (cause : init_cause).

Inductive outcome (A : Type) :=
| Returns (a : A)
| Raises (e : error).
Arguments Returns {A} a.
Arguments Raises {A} e.

(** A [GCPClients] object: of its configuration the two
    [service_account_path] entries ([None] where the subscripts raise), and
    the two clients. *)
Record obj := mkObj {
  bigquery_path : option string;
  gcs_path : option string;
  bq_client : option nat;
  gcs_client : option nat
}.

(** The directory of the package, the files that exist, the schedule of
    the calls of [from_service_account_json] that raise, and the clients
    made so far, each with its service and the path of its credentials. *)
Record env := mkEnv {
  base : string;
  file_exists : string -> bool;
  refused : list bool;
  made : list (service * string)
}.

(** [os.path.isabs] *)
Definition isabs (path : string) : bool := PyStr.startswith "/" path.

(** [os.path.join(a, b)] for a [b] that is not absolute *)
Definition path_join (a b : string) : string :=
  match a with
  | EmptyString => b
  | _ => if PyStr.endswith "/" a then a +:+ b else a +:+ "/" +:+ b
  end.

(** The path of the credentials as the initializers resolve it. *)
Definition resolve (e : env) (credentials_path : string) : string :=
  if negb (isabs credentials_path)
  then path_join (base e) credentials_path
  else credentials_path.

(** [Client.from_service_account_json(credentials_path)] *)
Definition from_service_account_json (s : service) (path : string) (e : env)
    : env * (nat + init_cause) :=
  match refused e with
  | true :: rest =>
      (mkEnv (base e) (file_exists e) rest (made e), inr ClientRefused)
  | _ =>
      (mkEnv (base e) (file_exists e) (tail (refused e))
             (made e ++ [(s, path)]),
       inl (length (made e)))
  end.

(** The body the two initializers share, up to the service. *)
Definition make_client (s : service) (configured : option string) (e : env)
    : env * (nat + init_cause) :=
  match configured with
  | None => (e, inr NoPath)
  | Some credentials_path =>
      let credentials_path := resolve e credentials_path in
      if negb (file_exists e credentials_path)
      then (e, inr (NoCredentialsFile credentials_path))
      else from_service_account_json s credentials_path e
  end.

(** [initialize_bigquery_client] *)
Definition initialize_bigquery_client (self : obj) (e : env)
    : obj * env * outcome nat :=
  match make_client BigQuery (bigquery_path self) e with
  | (e', inl client) =>
      (mkObj (bigquery_path self) (gcs_path self) (Some client)
             (gcs_client self),
       e', Returns client)
  | (e', inr c) => (self, e', Raises (InitFailed BigQuery c))
  end.

(** [initialize_gcs_client] *)
Definition initialize_gcs_client (self : obj) (e : env)
    : obj * env * outcome nat :=
  match make_client Storage (gcs_path self) e with
  | (e', inl client) =>
      (mkObj (bigquery_path self) (gcs_path self) (bq_client self)
             (Some client),
       e', Returns client)
  | (e', inr c) => (self, e', Raises (InitFailed Storage c))
  end.

(** [get_bigquery_client] *)
Definition get_bigquery_client (self : obj) (e : env)
    : obj * env * outcome (option nat) :=
  match bq_client self with
  | Some _ => (self, e, Returns (bq_client self))
  | None =>
      match initialize_bigquery_client self e with
      | (self', e', Raises err) => (self', e', Raises err)
      | (self', e', Returns _) => (self', e', Returns (bq_client self'))
      end
  end.

(** [get_gcs_client] *)
Definition get_gcs_client (self : obj) (e : env)
    : obj * env * outcome (option nat) :=
  match gcs_client self with
  | Some _ => (self, e, Returns (gcs_client self))
  | None =>
      match initialize_gcs_client self e with
      | (self', e', Raises err) => (self', e', Raises err)
      | (self', e', Returns _) => (self', e', Returns (gcs_client self'))
      end
  end.

(** [get_clients] *)
Definition get_clients (self : obj) (e : env)
    : obj * env * outcome (option nat * option nat) :=
  match
    match bq_client self with
    | Some _ => (self, e, Returns tt)
    | None =>
        match initialize_bigquery_client self e with
        | (self', e', Raises err) => (self', e', Raises err)
        | (self', e', Returns _) => (self', e', Returns tt)
        end
    end
  with
  | (self1, e1, Raises err) => (self1, e1, Raises err)
  | (self1, e1, Returns _) =>
      match
        match gcs_client self1 with
        | Some _ => (self1, e1, Returns tt)
        | None =>
            match initialize_gcs_client self1 e1 with
            | (self', e', Raises err) => (self', e', Raises err)
            | (self', e', Returns _) => (self', e', Returns tt)
            end
        end
      with
      | (self2, e2, Raises err) => (self2, e2, Raises err)
      | (self2, e2, Returns _) =>
          (self2, e2, Returns (bq_client self2, gcs_client self2))
      end
  end.

(** Every client was made from a credentials file that exists. *)
Definition made_from_files (e : env) : Prop :=
  Forall (fun c : service * string => file_exists e (snd c) = true)
         (made e).

(** The clients the object holds are among those made, each for its own
    service. *)
Definition clients_known (self : obj) (e : env) : Prop :=
  (forall c, bq_client self = Some c ->
             exists path, made e !! c = Some (BigQuery, path))
  /\ (forall c, gcs_client self = Some c ->
                exists path, made e !! c = Some (Storage, path)).

(** A project whose key for BigQuery is in place and whose key for the
    bucket is missing. *)
Definition half_keyed : env :=
  mkEnv "/app"
        (fun path => String.eqb path "/app/keys/bq.json")
        [] [].

Definition fresh_object : obj :=
  mkObj (Some "keys/bq.json") (Some "keys/gcs.json") None None.

End GcpClients.

(** * Properties *)

(** ** Strings *)

Section StringFacts.

#[local] Arguments String.append : simpl nomatch.

Lemma append_assoc (a b c : string) : (a +:+ b) +:+ c = a +:+ (b +:+ c).
Proof.
  induction a as [|x a IH]; cbn [String.append]; [reflexivity|].
  now rewrite IH.
Qed.

Lemma split_not_nil sep s : PyStr.split sep s <> [].
Proof.
  destruct s as [|c s]; simpl; [discriminate|].
  destruct (Ascii.eqb c sep); [discriminate|].
  destruct (PyStr.split sep s); discriminate.
Qed.

Lemma join_cons_char sep c tok toks :
  PyStr.join sep (String c tok :: toks) = String c (PyStr.join sep (tok :: toks)).
Proof. destruct toks; reflexivity. Qed.

(** Joining the first [n] tokens gives back the text before the [n]-th
    separator. *)
Lemma join_take_split sep s : forall n,
  (1 <= n)%nat ->
  PyStr.join (String sep EmptyString) (take n (PyStr.split sep s))
  = before_nth_sep sep n s.
Proof.
  induction s as [|c s IH]; intros n Hn.
  - destruct n; [lia|]. cbn [PyStr.split take]. now rewrite take_nil.
  - destruct n as [|n]; [lia|].
    cbn [PyStr.split before_nth_sep].
    destruct (Ascii.eqb c sep) eqn:Hc.
    + apply Ascii.eqb_eq in Hc; subst c.
      destruct n as [|n]; [reflexivity|].
      cbn [take]. specialize (IH (S n) ltac:(lia)).
      rewrite <- IH. cbn [take].
      pose proof (split_not_nil sep s) as Hne.
      destruct (PyStr.split sep s) as [|tok toks]; [congruence|].
      reflexivity.
    + pose proof (split_not_nil sep s) as Hne.
      specialize (IH (S n) ltac:(lia)).
      destruct (PyStr.split sep s) as [|tok toks]; [congruence|].
      cbn [take] in *. rewrite join_cons_char, IH. reflexivity.
Qed.

Lemma before_nth_sep_app sep s r : forall n,
  (n <= count_char sep s)%nat ->
  before_nth_sep sep n (s +:+ r) = before_nth_sep sep n s.
Proof.
  induction s as [|c s IH]; intros n Hn; cbn [count_char] in Hn.
  - assert (n = 0%nat) by lia; subst. cbn [String.append].
    destruct r as [|a r]; cbn [before_nth_sep]; [reflexivity|].
    destruct (Ascii.eqb a sep); reflexivity.
  - cbn [String.append before_nth_sep].
    destruct (Ascii.eqb c sep).
    + destruct n as [|[|n]]; try reflexivity.
      rewrite IH; [reflexivity | lia].
    + destruct n; [reflexivity|]. rewrite IH; [reflexivity | lia].
Qed.

Lemma count_before_nth_sep sep s : forall n,
  (1 <= n)%nat -> (count_char sep (before_nth_sep sep n s) < n)%nat.
Proof.
  induction s as [|c s IH]; intros n Hn; cbn [before_nth_sep].
  - simpl; lia.
  - destruct (Ascii.eqb c sep) eqn:Hc.
    + destruct n as [|[|n]]; [lia | simpl; lia |].
      cbn [count_char]. rewrite Hc. specialize (IH (S n) ltac:(lia)). lia.
    + destruct n; [lia|]. cbn [count_char]. rewrite Hc.
      specialize (IH (S n) ltac:(lia)). lia.
Qed.

Lemma before_nth_sep_few sep s : forall n,
  (count_char sep s < n)%nat -> before_nth_sep sep n s = s.
Proof.
  induction s as [|c s IH]; intros n Hn; [reflexivity|].
  cbn [before_nth_sep count_char] in *.
  destruct (Ascii.eqb c sep).
  - destruct n as [|[|n]]; try lia. rewrite IH; [reflexivity | lia].
  - destruct n; [lia|]. rewrite IH; [reflexivity | lia].
Qed.

Lemma before_nth_sep_prefix sep s : forall n,
  exists dropped, s = before_nth_sep sep n s +:+ dropped.
Proof.
  induction s as [|c s IH]; intros n; cbn [before_nth_sep].
  - exists EmptyString. reflexivity.
  - destruct (Ascii.eqb c sep).
    + destruct n as [|[|n]]; try (exists (String c s); reflexivity).
      destruct (IH (S n)) as [d Hd]. exists d.
      cbn [String.append]. now rewrite <- Hd.
    + destruct n as [|n]; [exists (String c s); reflexivity|].
      destruct (IH (S n)) as [d Hd]. exists d.
      cbn [String.append]. now rewrite <- Hd.
Qed.

Lemma append_nil_r (s : string) : s +:+ EmptyString = s.
Proof.
  induction s as [|c s IH]; cbn [String.append]; [reflexivity|].
  now rewrite IH.
Qed.

Lemma length_split sep s :
  length (PyStr.split sep s) = S (count_char sep s).
Proof.
  induction s as [|c s IH]; [reflexivity|].
  cbn [PyStr.split count_char].
  destruct (Ascii.eqb c sep); cbn [length]; [lia|].
  pose proof (split_not_nil sep s).
  destruct (PyStr.split sep s); [congruence|]. simpl in *. lia.
Qed.

Lemma rfind_from_app_ext c (x : string) ext : forall i,
  (0 <= i)%Z ->
  PyStr.rfind_from c ext (i + Z.of_nat (String.length x)) = (i + Z.of_nat (String.length x))%Z ->
  PyStr.rfind_from c (x +:+ ext) i = (i + Z.of_nat (String.length x))%Z.
Proof.
  induction x as [|a x IH]; intros i Hi Hext.
  - cbn [String.append String.length] in *.
    change (Z.of_nat 0) with 0%Z in *. now rewrite Z.add_0_r in *.
  - cbn [String.append PyStr.rfind_from String.length] in *.
    rewrite IH.
    + destruct (Z.leb_spec 0 (i + 1 + Z.of_nat (String.length x))); lia.
    + lia.
    + replace (i + 1 + Z.of_nat (String.length x))%Z
        with (i + Z.of_nat (S (String.length x)))%Z by lia.
      exact Hext.
Qed.

Lemma rfind_dot_csv x :
  PyStr.rfind "."%char (x +:+ ".csv") = Z.of_nat (String.length x).
Proof.
  unfold PyStr.rfind. rewrite rfind_from_app_ext; [lia | lia |].
  cbn. destruct (Z.leb_spec 0 (-1)); [lia|]. reflexivity.
Qed.

Lemma substring_app_l (x y : string) :
  String.substring 0 (String.length x) (x +:+ y) = x.
Proof.
  induction x as [|a x IH]; cbn [String.append String.length String.substring].
  - destruct y; reflexivity.
  - now rewrite IH.
Qed.

(** Stripping the extension of [x.csv] leaves [x], or the whole name when
    the last path component of [x] holds nothing but dots. *)
Lemma splitext_csv x :
  fst (PyStr.splitext (x +:+ ".csv")) = x
  \/ fst (PyStr.splitext (x +:+ ".csv")) = x +:+ ".csv".
Proof.
  unfold PyStr.splitext. rewrite rfind_dot_csv.
  match goal with |- context [if ?b then _ else _] => destruct b end.
  - left. cbn [fst]. unfold PyStr.slice.
    rewrite Z.sub_0_r, Nat2Z.id. apply substring_app_l.
  - right. reflexivity.
Qed.

End StringFacts.

(** ** The target table of a staged file *)

Lemma extract_before_second_underscore file_name :
  extract_table_name_from_filename file_name
  = before_nth_sep "_" 2 (fst (PyStr.splitext file_name)).
Proof.
  unfold extract_table_name_from_filename.
  apply (join_take_split "_"%char). lia.
Qed.

Lemma staged_name_root table partition_id :
  exists r, fst (PyStr.splitext (staged_name table partition_id))
            = table +:+ String "_"%char r.
Proof.
  unfold staged_name.
  replace (table +:+ "_" +:+ partition_id +:+ ".csv")
    with ((table +:+ "_" +:+ partition_id) +:+ ".csv")
    by now rewrite !append_assoc.
  destruct (splitext_csv (table +:+ "_" +:+ partition_id)) as [-> | ->].
  - exists partition_id. reflexivity.
  - exists (partition_id +:+ ".csv"). now rewrite !append_assoc.
Qed.

Lemma before_nth_sep_exact sep s r : forall n,
  count_char sep s = n ->
  before_nth_sep sep (S n) (s +:+ String sep r) = s.
Proof.
  induction s as [|c s IH]; intros n Hn; cbn [count_char] in Hn.
  - subst n. change (EmptyString +:+ String sep r) with (String sep r).
    cbn [before_nth_sep]. now rewrite Ascii.eqb_refl.
  - change (String c s +:+ String sep r) with (String c (s +:+ String sep r)).
    cbn [before_nth_sep].
    destruct (Ascii.eqb c sep).
    + destruct n as [|n]; [lia|]. rewrite IH; [reflexivity | lia].
    + rewrite IH; [reflexivity | lia].
Qed.

(** C3 (amended). The target table of a staged file is its name without the
    extension, cut before the second underscore, which is what joining
    the first two underscore-delimited tokens gives. For a table whose name
    holds exactly one underscore that is the table: [user_events_20240114.csv]
    goes to [user_events]. For a table name without underscore the partition
    id stays in: [events_20240114.csv] goes to [events_20240114]. *)
Theorem C3_target_table_name :
  (forall file_name,
      extract_table_name_from_filename file_name
      = before_nth_sep "_" 2 (fst (PyStr.splitext file_name)))
  /\ (forall table partition_id,
         count_char "_" table = 1%nat ->
         extract_table_name_from_filename (staged_name table partition_id)
         = table)
  /\ extract_table_name_from_filename "user_events_20240114.csv" = "user_events"
  /\ extract_table_name_from_filename "events_20240114.csv" = "events_20240114".
Proof.
  split; [exact extract_before_second_underscore|].
  split; [|split; reflexivity].
  intros table partition_id Hone.
  rewrite extract_before_second_underscore.
  destruct (staged_name_root table partition_id) as [r ->].
  now apply before_nth_sep_exact.
Qed.

Lemma C3_target_table_name_witness :
  extract_table_name_from_filename (staged_name "user_events" "20240114")
  = "user_events".
Proof.
  apply (proj1 (proj2 C3_target_table_name) "user_events" "20240114").
  reflexivity.
Defined.

(** C3, as stated, fails: the staged file of the table [events] does not go
    to the target [events]. *)
Lemma C3_counterexample :
  extract_table_name_from_filename "events_20240114.csv" <> "events".
Proof. vm_compute. discriminate. Qed.

(** C10. A name of fewer than two tokens is returned as it is, without its
    extension ([events.csv] gives [events]); of a name with more than two
    tokens only the first two are kept. So the staged file of a table whose
    name holds two or more underscores goes to a proper prefix of that name,
    and two such tables can go to one target. *)
Theorem C10_token_truncation :
  (forall file_name,
      (length (PyStr.split "_" (fst (PyStr.splitext file_name))) < 2)%nat ->
      extract_table_name_from_filename file_name
      = fst (PyStr.splitext file_name))
  /\ extract_table_name_from_filename "events.csv" = "events"
  /\ (forall file_name t1 t2 t3 rest,
         PyStr.split "_" (fst (PyStr.splitext file_name))
         = t1 :: t2 :: t3 :: rest ->
         extract_table_name_from_filename file_name = t1 +:+ "_" +:+ t2)
  /\ (forall table partition_id,
         (2 <= count_char "_" table)%nat ->
         extract_table_name_from_filename (staged_name table partition_id)
         = before_nth_sep "_" 2 table
         /\ extract_table_name_from_filename (staged_name table partition_id)
            <> table
         /\ exists dropped,
              dropped <> EmptyString
              /\ table = extract_table_name_from_filename
                           (staged_name table partition_id) +:+ dropped)
  /\ (exists table1 table2 partition_id,
         table1 <> table2
         /\ (2 <= count_char "_" table1)%nat
         /\ (2 <= count_char "_" table2)%nat
         /\ extract_table_name_from_filename (staged_name table1 partition_id)
            = extract_table_name_from_filename (staged_name table2 partition_id)).
Proof.
  repeat split.
  - intros file_name Hlen.
    rewrite extract_before_second_underscore.
    apply before_nth_sep_few. rewrite length_split in Hlen. lia.
  - intros file_name t1 t2 t3 rest Htok.
    unfold extract_table_name_from_filename. now rewrite Htok.
  - rewrite extract_before_second_underscore.
    destruct (staged_name_root table partition_id) as [r ->].
    now apply before_nth_sep_app.
  - rewrite extract_before_second_underscore.
    destruct (staged_name_root table partition_id) as [r ->].
    rewrite before_nth_sep_app by assumption.
    intros Heq.
    pose proof (count_before_nth_sep "_" table 2 ltac:(lia)) as Hlt.
    rewrite Heq in Hlt. lia.
  - rewrite extract_before_second_underscore.
    destruct (staged_name_root table partition_id) as [r ->].
    rewrite before_nth_sep_app by assumption.
    destruct (before_nth_sep_prefix "_" table 2) as [d Hd].
    exists d. split; [|exact Hd].
    intros ->. rewrite append_nil_r in Hd.
    pose proof (count_before_nth_sep "_" table 2 ltac:(lia)) as Hlt.
    rewrite <- Hd in Hlt. lia.
  - exists "a_b_c", "a_b_d", "20240114".
    repeat split; try discriminate; vm_compute; lia.
Qed.

Lemma C10_token_truncation_witness :
  extract_table_name_from_filename "plain.csv" = "plain"
  /\ extract_table_name_from_filename "a_b_c_20240114.csv" = "a" +:+ "_" +:+ "b"
  /\ extract_table_name_from_filename (staged_name "daily_user_events" "20240114")
     <> "daily_user_events".
Proof.
  destruct C10_token_truncation as (Hfew & _ & Hmany & Htable & _).
  split; [|split].
  - apply (Hfew "plain.csv"). vm_compute. lia.
  - apply (Hmany "a_b_c_20240114.csv" "a" "b" "c" ["20240114"]). reflexivity.
  - apply (Htable "daily_user_events" "20240114"). vm_compute. lia.
Defined.

(** ** Single calls *)

Ltac destruct_world w :=
  let ck := fresh "ck" in let tk := fresh "tk" in let fs := fresh "fs" in
  let pj := fresh "pj" in let ds := fresh "ds" in let bk := fresh "bk" in
  let tbs := fresh "tbs" in let bqp := fresh "bqp" in let bqs := fresh "bqs" in
  let g := fresh "g" in let db := fresh "db" in let tr := fresh "tr" in
  destruct w as [ck tk fs pj ds bk tbs bqp bqs g db tr].

Ltac crush_faults :=
  repeat match goal with
         | |- context [match ?fs with [] => _ | _ :: _ => _ end] =>
             is_var fs; destruct fs as [|[?|] fs]; simpl
         end.

Lemma same_but_log_refl (w : World) : same_but_log w w.
Proof. repeat split. Qed.

Lemma same_but_log_trans (a b c : World) :
  same_but_log a b -> same_but_log b c -> same_but_log a c.
Proof.
  unfold same_but_log, static. intros H1 H2.
  decompose [and] H1. decompose [and] H2. repeat split; congruence.
Qed.

Ltac solve_same_but_log :=
  unfold same_but_log, static; cbn; repeat split; reflexivity.

(** What [check_for_yesterdays_partition] does, for every schedule of
    faults. *)
Lemma check_for_yesterdays_partition_spec (table full_dataset_id
    yesterday : string) (w : World) :
  exists w' r,
    check_for_yesterdays_partition table full_dataset_id yesterday w
    = (w', Ok r)
    /\ same_but_log w w'
    /\ (forall pid,
           r = Some pid <->
           calm 2 w
           /\ catalog_max w full_dataset_id table = Some pid
           /\ pid = date_key yesterday)
    /\ (~ calm 2 w -> r = None).
Proof.
  unfold check_for_yesterdays_partition, try_except, bind, bq_query,
    query_job_result, external, ret, calm, undisturbed, catalog_max, date_key.
  destruct_world w. simpl. crush_faults;
    try (do 2 eexists; split; [reflexivity|];
         split; [solve_same_but_log|];
         split; [intros pid; split; [discriminate | intros [? _]; discriminate]
                | reflexivity]).
  all: destruct (bqp full_dataset_id table) as [|[p|] rs]; simpl;
    try (do 2 eexists; split; [reflexivity|];
         split; [solve_same_but_log|];
         split; [intros pid; split; [discriminate | intros (_ & ? & _); discriminate]
                | intros H; now destruct H]).
  all: destruct (String.eqb_spec p (PyStr.replace "-" EmptyString yesterday)) as [->|Hne];
    do 2 eexists; (split; [reflexivity|]);
    (split; [solve_same_but_log|]);
    (split; [intros pid; split;
              [ intros H; inversion H; subst; auto
              | intros (_ & H1 & H2); inversion H1; subst; congruence ]
            | intros H; now destruct H ]).
Qed.

(** C6. [check_for_yesterdays_partition] always returns, and it returns a
    partition id exactly when the two calls of the catalog query went
    through and the first row of the answer holds yesterday's date with its
    dashes removed; a failed query gives [None]. *)
Theorem C6_yesterdays_partition_check (table full_dataset_id yesterday : string)
    (w : World) :
  exists w' r,
    check_for_yesterdays_partition table full_dataset_id yesterday w
    = (w', Ok r)
    /\ (forall pid,
           r = Some pid <->
           calm 2 w
           /\ hd None (bq_partitions w full_dataset_id table) = Some pid
           /\ pid = PyStr.replace "-" EmptyString yesterday)
    /\ (~ calm 2 w -> r = None).
Proof.
  destruct (check_for_yesterdays_partition_spec table full_dataset_id
              yesterday w) as (w' & r & Hrun & _ & Hiff & Hfail).
  exists w', r. split; [exact Hrun|]. split; [exact Hiff | exact Hfail].
Qed.

Section ExportFacts.
Variable to_csv : DataFrame -> string.

(** What [export_partition_to_csv] does, for every schedule of faults. *)
Lemma export_partition_to_csv_spec bucket dataset table field partition_id
    yesterday uri (w : World) :
  let df := bq_select w dataset table field yesterday in
  let blob_name := "processing_zone/" +:+ staged_name table partition_id in
  exists w' b,
    export_partition_to_csv to_csv bucket dataset table field partition_id
      yesterday uri w = (w', Ok b)
    /\ (b = true ->
        df_empty df = false /\ calm 4 w
        /\ gcs w' = <[blob_name := to_csv df]> (gcs w))
    /\ (b = false ->
        gcs w' = gcs w /\ (df_empty df = true \/ ~ calm 4 w))
    /\ static w w' /\ ticks w' = ticks w /\ pg w' = pg w.
Proof.
  unfold export_partition_to_csv, upload_from_string, try_except, bind,
    bq_query, query_job_result, external, ret, calm, undisturbed, staged_name.
  destruct_world w. simpl. crush_faults;
    repeat match goal with
           | |- context [is_GoogleAPIError ?e] =>
               destruct (is_GoogleAPIError e); simpl
           end;
    try (do 2 eexists; split; [reflexivity|]; simpl;
         split; [discriminate|]; split; [|unfold static; cbn; repeat split];
         intros _; split; [reflexivity | right; discriminate]).
  all: destruct (df_empty _) eqn:Hempty; simpl; crush_faults;
    repeat match goal with
           | |- context [is_GoogleAPIError ?e] =>
               destruct (is_GoogleAPIError e); simpl
           end;
    do 2 eexists; (split; [reflexivity|]); simpl;
    (split; [|split; [|unfold static; cbn; repeat split]]);
    try discriminate; try (intros _; split; [reflexivity|]; auto; right; discriminate);
    try (intros _; auto).
Qed.

(** C7. [export_partition_to_csv] always returns a boolean. For a query
    that gives no row it returns [False] and leaves the bucket as it was;
    it returns [True] only for a non-empty result, which it has then
    written to [processing_zone/{table}_{partition_id}.csv]; a query or
    an upload that raises gives [False] and no object. *)
Theorem C7_export_partition (bucket dataset table field partition_id
    yesterday uri : string) (w : World) :
  let df := bq_select w dataset table field yesterday in
  let blob_name :=
    "processing_zone/" +:+ table +:+ "_" +:+ partition_id +:+ ".csv" in
  exists w' b,
    export_partition_to_csv to_csv bucket dataset table field partition_id
      yesterday uri w = (w', Ok b)
    /\ (rows df = [] -> b = false /\ gcs w' = gcs w)
    /\ (b = true ->
        rows df <> [] /\ gcs w' = <[blob_name := to_csv df]> (gcs w))
    /\ (~ calm 4 w -> b = false /\ gcs w' = gcs w)
    /\ (b = false -> gcs w' = gcs w)
    /\ (calm 4 w -> df_empty df = false -> b = true).
Proof.
  intros df blob_name.
  destruct (export_partition_to_csv_spec bucket dataset table field
              partition_id yesterday uri w)
    as (w' & b & Hrun & Htrue & Hfalse & _).
  fold df in Htrue, Hfalse.
  exists w', b. split; [exact Hrun|].
  assert (Hrows : rows df = [] -> df_empty df = true).
  { intros Hr. unfold df_empty. rewrite Hr. simpl. apply orb_true_r. }
  repeat split.
  - destruct b; [|reflexivity].
    destruct (Htrue eq_refl) as (He & _). rewrite Hrows in He by assumption.
    discriminate.
  - destruct b; [|now apply Hfalse].
    destruct (Htrue eq_refl) as (He & _). rewrite Hrows in He by assumption.
    discriminate.
  - intros Hr. destruct (Htrue H) as (He & _).
    rewrite Hrows in He by assumption. discriminate.
  - now apply Htrue.
  - destruct b; [|reflexivity]. destruct (Htrue eq_refl) as (_ & Hc & _).
    contradiction.
  - destruct b; [|now apply Hfalse]. destruct (Htrue eq_refl) as (_ & Hc & _).
    contradiction.
  - now apply Hfalse.
  - destruct b; [reflexivity|]. destruct (Hfalse eq_refl) as (_ & [He | Hc]).
    + congruence.
    + contradiction.
Qed.

End ExportFacts.

Section StoreFacts.

Lemma copy_blob_spec src dst (w : World) :
  exists w' r,
    copy_blob src dst w = (w', r)
    /\ pg w' = pg w
    /\ faults w' = tail (faults w)
    /\ trace w' = trace w ++ [(Copy src dst, outcome r)]
    /\ ((exists e, r = Raise e /\ gcs w' = gcs w)
        \/ (exists data,
               r = Ok tt /\ gcs w !! src = Some data
               /\ gcs w' = <[dst := data]> (gcs w))).
Proof.
  unfold copy_blob, external. destruct_world w. simpl.
  destruct fs as [|[e|] fs]; simpl;
    try (destruct (g !! src) as [data|] eqn:Hsrc; simpl);
    do 2 eexists; (split; [reflexivity|]); simpl;
    repeat split; eauto.
Qed.

Lemma blob_delete_spec name (w : World) :
  exists w' r,
    blob_delete name w = (w', r)
    /\ pg w' = pg w
    /\ faults w' = tail (faults w)
    /\ trace w' = trace w ++ [(Delete name, outcome r)]
    /\ ((exists e, r = Raise e /\ gcs w' = gcs w)
        \/ (r = Ok tt /\ is_Some (gcs w !! name)
            /\ gcs w' = delete name (gcs w))).
Proof.
  unfold blob_delete, external. destruct_world w. simpl.
  destruct fs as [|[e|] fs]; simpl;
    try (destruct (g !! name) as [data|] eqn:Hsrc; simpl);
    do 2 eexists; (split; [reflexivity|]); simpl;
    repeat split; eauto.
Qed.

(** What [move_file_in_gcs] does, for every schedule of faults: the copy
    is the first call, and the delete is made only after a copy that went
    through. *)
Lemma move_file_in_gcs_spec bucket src dst (w : World) :
  exists w' b,
    move_file_in_gcs bucket src dst w = (w', Ok b)
    /\ pg w' = pg w
    /\ ((exists e,
            b = false /\ gcs w' = gcs w
            /\ trace w' = trace w ++ [(Copy src dst, Some e)])
        \/ (exists data e,
               gcs w !! src = Some data
               /\ b = false /\ gcs w' = <[dst := data]> (gcs w)
               /\ trace w' = trace w ++ [(Copy src dst, None);
                                         (Delete src, Some e)])
        \/ (exists data,
               gcs w !! src = Some data
               /\ b = true
               /\ gcs w' = delete src (<[dst := data]> (gcs w))
               /\ trace w' = trace w ++ [(Copy src dst, None);
                                         (Delete src, None)])).
Proof.
  unfold move_file_in_gcs, try_except, bind, ret.
  destruct (copy_blob_spec src dst w)
    as (w1 & r1 & -> & Hpg1 & _ & Htr1 & [(e & -> & Hg1) | (data & -> & Hsrc & Hg1)]).
  { do 2 eexists. split; [reflexivity|]. split; [exact Hpg1|].
    left. exists e. auto. }
  destruct (blob_delete_spec src w1)
    as (w2 & r2 & -> & Hpg2 & _ & Htr2 & [(e & -> & Hg2) | (-> & _ & Hg2)]).
  - do 2 eexists. split; [reflexivity|]. split; [congruence|].
    right; left. exists data, e. repeat split; auto; try congruence.
    rewrite Htr2, Htr1, <- app_assoc. reflexivity.
  - do 2 eexists. split; [reflexivity|]. split; [congruence|].
    right; right. exists data. repeat split; auto; try congruence.
    rewrite Htr2, Htr1, <- app_assoc. reflexivity.
Qed.

Lemma undisturbed_drop (k n : nat) : forall fs,
  undisturbed (k + n) fs = true -> undisturbed n (drop k fs) = true.
Proof.
  unfold undisturbed. induction k as [|k IH]; intros fs H; [exact H|].
  destruct fs as [|o fs]; [now rewrite drop_nil, take_nil|].
  cbn in H. apply andb_true_iff in H as [_ H]. now apply IH.
Qed.

Lemma undisturbed_le (m n : nat) : forall fs,
  (m <= n)%nat -> undisturbed n fs = true -> undisturbed m fs = true.
Proof.
  unfold undisturbed. revert n. induction m as [|m IH]; intros n fs Hle H.
  - now rewrite take_0.
  - destruct n as [|n]; [lia|]. destruct fs as [|o fs]; [reflexivity|].
    cbn in *. apply andb_true_iff in H as [-> H]. cbn.
    apply (IH n); [lia | exact H].
Qed.

Lemma calm_drop (k n : nat) (w w' : World) :
  calm (k + n) w -> faults w' = drop k (faults w) -> calm n w'.
Proof. unfold calm. intros H ->. now apply undisturbed_drop. Qed.

Lemma calm_le (m n : nat) (w : World) :
  (m <= n)%nat -> calm n w -> calm m w.
Proof. unfold calm. apply undisturbed_le. Qed.

Lemma fault_free_drop (k : nat) (w w' : World) :
  fault_free w -> faults w' = drop k (faults w) -> fault_free w'.
Proof. intros H Hf n. exact (calm_drop k n w w' (H _) Hf). Qed.

Lemma tail_drop {A} (k : nat) : forall l : list A,
  tail (drop k l) = drop (S k) l.
Proof.
  induction k as [|k IH]; intros [|x l]; try reflexivity.
  exact (IH l).
Qed.

Lemma copy_blob_calm src dst data (w : World) :
  calm 1 w -> gcs w !! src = Some data ->
  exists w',
    copy_blob src dst w = (w', Ok tt)
    /\ gcs w' = <[dst := data]> (gcs w) /\ pg w' = pg w
    /\ faults w' = drop 1 (faults w)
    /\ trace w' = trace w ++ [(Copy src dst, None)].
Proof.
  unfold copy_blob, external, calm, undisturbed. destruct_world w. simpl.
  intros Hc ->. destruct fs as [|[e|] fs]; simpl in *; try discriminate;
    eexists; repeat split.
Qed.

Lemma blob_delete_calm name (w : World) :
  calm 1 w -> is_Some (gcs w !! name) ->
  exists w',
    blob_delete name w = (w', Ok tt)
    /\ gcs w' = delete name (gcs w) /\ pg w' = pg w
    /\ faults w' = drop 1 (faults w)
    /\ trace w' = trace w ++ [(Delete name, None)].
Proof.
  unfold blob_delete, external, calm, undisturbed. destruct_world w. simpl.
  intros Hc [data ->]. destruct fs as [|[e|] fs]; simpl in *;
    try discriminate; eexists; repeat split.
Qed.

Lemma delete_file_calm bucket name (w : World) :
  calm 1 w -> is_Some (gcs w !! name) ->
  exists w',
    delete_file_from_gcs bucket name w = (w', Ok true)
    /\ gcs w' = delete name (gcs w) /\ pg w' = pg w
    /\ faults w' = drop 1 (faults w)
    /\ trace w' = trace w ++ [(Delete name, None)].
Proof.
  intros Hc Hname. unfold delete_file_from_gcs, try_except, bind, ret.
  destruct (blob_delete_calm name w Hc Hname) as (w' & -> & H).
  now exists w'.
Qed.

(** An undisturbed move of an object that is there: the copy, then the
    delete. *)
Lemma move_file_calm bucket src dst data (w : World) :
  calm 2 w -> gcs w !! src = Some data -> src <> dst ->
  exists w',
    move_file_in_gcs bucket src dst w = (w', Ok true)
    /\ gcs w' = delete src (<[dst := data]> (gcs w)) /\ pg w' = pg w
    /\ faults w' = drop 2 (faults w)
    /\ trace w' = trace w ++ [(Copy src dst, None); (Delete src, None)].
Proof.
  intros Hc Hsrc Hne. unfold move_file_in_gcs, try_except, bind, ret.
  destruct (copy_blob_calm src dst data w (calm_le 1 2 w ltac:(lia) Hc) Hsrc)
    as (w1 & -> & Hg1 & Hpg1 & Hf1 & Htr1).
  destruct (blob_delete_calm src w1) as (w2 & -> & Hg2 & Hpg2 & Hf2 & Htr2).
  - exact (calm_drop 1 1 w w1 Hc Hf1).
  - rewrite Hg1, lookup_insert_ne by congruence. eauto.
  - exists w2. split; [reflexivity|]. split; [congruence|].
    split; [congruence|]. split; [rewrite Hf2, Hf1; apply tail_drop|].
    rewrite Htr2, Htr1, <- app_assoc. reflexivity.
Qed.

(** C9. [move_file_in_gcs], as the loader calls it for a file, moves
    [processing_zone/{file}] to [unprocess_zone/{file}] by a copy followed
    by a delete of the original. Its calls are one of three sequences: a
    copy that raised, and then nothing else, the bucket as it was; a copy
    that went through and a delete that raised, the content then under
    both names; a copy and a delete that both went through, the content
    then under the new name only, and only then is the answer [True]. When
    the original is there and the two calls are undisturbed, it is the
    third: the copy is made, then the delete, and the object is relocated
    with its content, every other object as before. So a delete is never
    the first call, it always follows a copy that went through, and an
    original that is gone has its copy in place. *)
Theorem C9_copy_then_delete (bucket file_name : string) (w : World) :
  let src := "processing_zone/" +:+ file_name in
  let dst := "unprocess_zone/" +:+ file_name in
  exists w' b evs,
    move_file_in_gcs bucket src dst w = (w', Ok b)
    /\ trace w' = trace w ++ evs
    /\ pg w' = pg w
    /\ ((exists e,
            evs = [(Copy src dst, Some e)]
            /\ b = false /\ gcs w' = gcs w)
        \/ (exists data e,
               gcs w !! src = Some data
               /\ evs = [(Copy src dst, None); (Delete src, Some e)]
               /\ b = false /\ gcs w' = <[dst := data]> (gcs w))
        \/ (exists data,
               gcs w !! src = Some data
               /\ evs = [(Copy src dst, None); (Delete src, None)]
               /\ b = true
               /\ gcs w' = delete src (<[dst := data]> (gcs w))))
    /\ (forall data,
           calm 2 w -> gcs w !! src = Some data ->
           b = true
           /\ evs = [(Copy src dst, None); (Delete src, None)]
           /\ gcs w' !! src = None
           /\ gcs w' !! dst = Some data
           /\ forall k, k <> src -> k <> dst -> gcs w' !! k = gcs w !! k)
    /\ (exists o, head evs = Some (Copy src dst, o))
    /\ (forall i o,
           evs !! i = Some (Delete src, o) ->
           exists j, (j < i)%nat /\ evs !! j = Some (Copy src dst, None))
    /\ (forall i src' dst' o,
           evs !! i = Some (Copy src' dst', o) -> src' = src /\ dst' = dst)
    /\ (gcs w' !! src <> gcs w !! src ->
        is_Some (gcs w !! src) /\ gcs w' !! dst = gcs w !! src)
    /\ (b = true <-> In (Delete src, None) evs).
Proof.
  intros src dst.
  assert (Hne : src <> dst).
  { unfold src, dst. intros H. apply (f_equal (String.get 0)) in H.
    discriminate H. }
  assert (Hcalm : forall w' b evs,
             move_file_in_gcs bucket src dst w = (w', Ok b) ->
             trace w' = trace w ++ evs ->
             forall data,
               calm 2 w -> gcs w !! src = Some data ->
               b = true
               /\ evs = [(Copy src dst, None); (Delete src, None)]
               /\ gcs w' !! src = None
               /\ gcs w' !! dst = Some data
               /\ forall k, k <> src -> k <> dst ->
                            gcs w' !! k = gcs w !! k).
  { intros w' b evs Hrun Htr data Hc Hsrc.
    destruct (move_file_calm bucket src dst data w Hc Hsrc Hne)
      as (w2 & Hrun2 & Hg2 & _ & _ & Htr2).
    rewrite Hrun in Hrun2. inversion Hrun2; subst w2 b. clear Hrun2.
    rewrite Htr in Htr2. apply app_inv_head in Htr2.
    split; [reflexivity|]. split; [exact Htr2|]. rewrite Hg2.
    split; [apply lookup_delete_eq|].
    split; [now rewrite lookup_delete_ne, lookup_insert_eq by exact Hne|].
    intros k H1 H2.
    now rewrite lookup_delete_ne, lookup_insert_ne by congruence. }
  destruct (move_file_in_gcs_spec bucket src dst w)
    as (w' & b & Hrun & Hpg & [(e & Hb & Hg & Htr)
                              | [(data & e & Hsrc & Hb & Hg & Htr)
                                | (data & Hsrc & Hb & Hg & Htr)]]);
    exists w', b; eexists; (split; [exact Hrun|]); (split; [exact Htr|]);
    (split; [exact Hpg|]);
    (split; [|split; [exact (Hcalm _ _ _ Hrun Htr)|]]);
    subst b.
  - left. exists e. auto.
  - repeat split.
    + eexists; reflexivity.
    + intros [|[|i]] o H; simpl in H; discriminate.
    + destruct i as [|[|i]]; simpl in H; congruence.
    + destruct i as [|[|i]]; simpl in H; congruence.
    + rewrite Hg in H. contradiction.
    + rewrite Hg in H. contradiction.
    + discriminate.
    + intros [H|[]]. discriminate.
  - right; left. exists data, e. auto.
  - repeat split.
    + eexists; reflexivity.
    + intros [|[|[|i]]] o H; simpl in H; try discriminate.
      exists 0%nat. split; [lia | reflexivity].
    + destruct i as [|[|[|i]]]; simpl in H; congruence.
    + destruct i as [|[|[|i]]]; simpl in H; congruence.
    + rewrite Hsrc. eauto.
    + rewrite Hg, lookup_insert_eq. congruence.
    + discriminate.
    + intros [H|[H|[]]]; discriminate.
  - right; right. exists data. auto.
  - repeat split.
    + eexists; reflexivity.
    + intros [|[|[|i]]] o H; simpl in H; try discriminate.
      exists 0%nat. split; [lia | reflexivity].
    + destruct i as [|[|[|i]]]; simpl in H; congruence.
    + destruct i as [|[|[|i]]]; simpl in H; congruence.
    + rewrite Hsrc. eauto.
    + rewrite Hg, lookup_delete_ne, lookup_insert_eq by exact Hne. congruence.
    + intros _. right; left. reflexivity.
Qed.

End StoreFacts.

(** ** The loader *)

Section LoadFacts.
Variable read_csv : string -> option DataFrame.
Variable str_lower : string -> string.

Lemma download_spec name (w : World) :
  exists w' r,
    download name w = (w', r)
    /\ gcs w' = gcs w /\ pg w' = pg w
    /\ faults w' = tail (faults w)
    /\ trace w' = trace w ++ [(Download name, outcome r)]
    /\ match r with
       | Ok data => gcs w !! name = Some data
       | Raise _ => ~ calm 1 w \/ gcs w !! name = None
       end.
Proof.
  unfold download, external, calm, undisturbed. destruct_world w. simpl.
  destruct fs as [|[e|] fs]; simpl;
    try (destruct (g !! name) as [data|] eqn:Hsrc; simpl);
    do 2 eexists; (split; [reflexivity|]); simpl;
    repeat split; eauto.
Qed.

Lemma to_sql_spec name con chunksize mode df (w : World) :
  exists w' r,
    to_sql name con chunksize mode df w = (w', r)
    /\ gcs w' = gcs w
    /\ faults w' = tail (faults w)
    /\ trace w' = trace w ++ [(ToSql name mode (columns df) chunksize,
                               outcome r)]
    /\ match r with
       | Ok _ =>
           con = Engine
           /\ exists t,
                write_table mode (pg w !! name) (columns df)
                            (insert_batches chunksize (rows df)) = Some t
                /\ pg w' = <[name := t]> (pg w)
       | Raise _ => pg w' = pg w
       end.
Proof.
  unfold to_sql, external. destruct_world w. simpl.
  destruct con; destruct fs as [|[e|] fs]; simpl;
    try (destruct (write_table _ _ _ _) as [t|] eqn:Hwt; simpl);
    do 2 eexists; (split; [reflexivity|]); simpl;
    repeat split; eauto.
Qed.

(** What [load_partition_to_postgresql] does, for every schedule of
    faults: it returns [True] only after a [to_sql] that went through,
    which takes a connectable of SQLAlchemy. *)
Lemma load_partition_to_postgresql_spec bucket file_name con table_name
    (w : World) :
  let blob := "processing_zone/" +:+ file_name in
  exists w' b,
    load_partition_to_postgresql read_csv str_lower bucket file_name con
      table_name w
    = (w', Ok b)
    /\ gcs w' = gcs w
    /\ ((exists e,
            b = false /\ pg w' = pg w
            /\ (~ calm 1 w \/ gcs w !! blob = None)
            /\ trace w' = trace w ++ [(Download blob, Some e)])
        \/ (exists data,
               b = false /\ pg w' = pg w
               /\ gcs w !! blob = Some data /\ read_csv data = None
               /\ trace w' = trace w ++ [(Download blob, None)])
        \/ (exists data df o,
               gcs w !! blob = Some data /\ read_csv data = Some df
               /\ let cols := map str_lower (columns df) in
                  trace w' = trace w ++ [(Download blob, None);
                                         (ToSql table_name
                                            (write_policy table_name)
                                            cols CHUNKSIZE, o)]
                  /\ match o with
                     | None =>
                         b = true /\ con = Engine
                         /\ exists t,
                             write_table (write_policy table_name)
                               (pg w !! table_name) cols
                               (insert_batches CHUNKSIZE (rows df)) = Some t
                             /\ pg w' = <[table_name := t]> (pg w)
                     | Some _ => b = false /\ pg w' = pg w
                     end)).
Proof.
  intros blob.
  unfold load_partition_to_postgresql, try_except, bind, ret, pd_read_csv,
    raise.
  cbv zeta. fold blob. fold (write_policy table_name).
  destruct (download_spec blob w)
    as (w1 & r1 & -> & Hg1 & Hpg1 & Hf1 & Htr1 & Hr1).
  destruct r1 as [data | e].
  2:{ do 2 eexists. split; [reflexivity|]. split; [exact Hg1|].
      left. exists e. auto. }
  destruct (read_csv data) as [df|] eqn:Hparse; unfold ret, raise.
  2:{ do 2 eexists. split; [reflexivity|]. split; [exact Hg1|].
      right; left. exists data. auto. }
  destruct (to_sql_spec table_name con CHUNKSIZE (write_policy table_name)
              (set_columns (map str_lower (columns df)) df) w1)
    as (w2 & r2 & -> & Hg2 & Hf2 & Htr2 & Hr2).
  cbn [set_columns columns rows] in *.
  destruct r2 as [[] | e].
  - do 2 eexists. split; [reflexivity|]. split; [congruence|].
    right; right. exists data, df, None. split; [exact Hr1|].
    split; [exact Hparse|]. cbn zeta. split.
    + rewrite Htr2, Htr1, <- app_assoc. reflexivity.
    + split; [reflexivity|]. destruct Hr2 as (Hcon & t & Ht & Hpg).
      split; [exact Hcon|]. exists t. rewrite <- Hpg1. auto.
  - do 2 eexists. split; [reflexivity|]. split; [congruence|].
    right; right. exists data, df, (Some e). split; [exact Hr1|].
    split; [exact Hparse|]. cbn zeta. split.
    + rewrite Htr2, Htr1, <- app_assoc. reflexivity.
    + split; [reflexivity | congruence].
Qed.

(** With the connection the loader passes, the one [psycopg2.connect]
    made, [load_partition_to_postgresql] returns [False] and writes
    nothing, whatever the file holds and whatever is disturbed. *)
Lemma load_partition_raw bucket file_name table_name (w : World) :
  exists w',
    load_partition_to_postgresql read_csv str_lower bucket file_name
      RawConnection table_name w
    = (w', Ok false)
    /\ gcs w' = gcs w /\ pg w' = pg w.
Proof.
  destruct (load_partition_to_postgresql_spec bucket file_name RawConnection
              table_name w)
    as (w' & b & Hrun & Hg & [(e & -> & Hpg & _)
                            | [(data & -> & Hpg & _)
                              | (data & df & o & _ & _ & _ & Ho)]]).
  - now exists w'.
  - now exists w'.
  - destruct o as [e|].
    + destruct Ho as [-> Hpg]. now exists w'.
    + destruct Ho as (_ & Hcon & _). discriminate.
Qed.

End LoadFacts.

(** ** The load pass *)

Section LoadPass.
Variable read_csv : string -> option DataFrame.
Variable str_lower : string -> string.

Lemma delete_file_from_gcs_spec bucket name (w : World) :
  exists w' b,
    delete_file_from_gcs bucket name w = (w', Ok b)
    /\ pg w' = pg w
    /\ ((b = true /\ is_Some (gcs w !! name)
         /\ gcs w' = delete name (gcs w)
         /\ trace w' = trace w ++ [(Delete name, None)])
        \/ (exists e,
               b = false /\ gcs w' = gcs w
               /\ trace w' = trace w ++ [(Delete name, Some e)])).
Proof.
  unfold delete_file_from_gcs, try_except, bind, ret.
  destruct (blob_delete_spec name w)
    as (w1 & r1 & -> & Hpg & _ & Htr & [(e & -> & Hg) | (-> & Hsome & Hg)]);
    do 2 eexists; (split; [reflexivity|]); (split; [exact Hpg|]).
  - right. exists e. auto.
  - left. auto.
Qed.

Lemma load_partition_downloads bucket file_name con table_name (w : World) :
  exists w' b evs,
    load_partition_to_postgresql read_csv str_lower bucket file_name con
      table_name w
    = (w', Ok b)
    /\ gcs w' = gcs w
    /\ trace w' = trace w ++ evs
    /\ downloads evs = ["processing_zone/" +:+ file_name]
    /\ (forall name o, ~ In (Delete name, o) evs).
Proof.
  destruct (load_partition_to_postgresql_spec read_csv str_lower bucket file_name
              con table_name w)
    as (w' & b & Hrun & Hg & [(e & _ & _ & _ & Htr)
                             | [(data & _ & _ & _ & _ & Htr)
                               | (data & df & o & _ & _ & Htr & _)]]);
    exists w', b; eexists; (split; [exact Hrun|]); (split; [exact Hg|]);
    (split; [exact Htr|]); (split; [reflexivity|]);
    intros name o' Hin; cbn [In] in Hin;
    repeat (destruct Hin as [Hin | Hin]; [discriminate|]); exact Hin.
Qed.

(** One turn of the loop of the load pass. *)
Lemma load_one_spec bucket f successful failed (w : World) :
  let src := "processing_zone/" +:+ f in
  let dst := "unprocess_zone/" +:+ f in
  exists w' s1 f1 evs1 evs2,
    load_one read_csv str_lower RawConnection bucket f (successful, failed) w
    = (w', Ok (successful ++ s1, failed ++ f1))
    /\ trace w' = trace w ++ evs1 ++ evs2
    /\ downloads evs1 = [src]
    /\ (forall name o, ~ In (Delete name, o) evs1)
    /\ ((s1 = [f] /\ f1 = [] /\ is_Some (gcs w !! src)
         /\ gcs w' = delete src (gcs w)
         /\ evs2 = [(Delete src, None)])
        \/ (s1 = [] /\ f1 = [f]
            /\ evs2 = [(Copy src dst, None); (Delete src, None)]
            /\ exists data, gcs w !! src = Some data
               /\ gcs w' = delete src (<[dst := data]> (gcs w)))
        \/ (s1 = [] /\ gcs w' = gcs w
            /\ exists e, (f1 = [f] /\ evs2 = [(Delete src, Some e)])
                         \/ (f1 = [] /\ evs2 = [(Copy src dst, Some e)]))
        \/ (s1 = [] /\ f1 = []
            /\ exists data e, gcs w !! src = Some data
               /\ gcs w' = <[dst := data]> (gcs w)
               /\ evs2 = [(Copy src dst, None); (Delete src, Some e)])).
Proof.
  intros src dst. unfold load_one, bind, ret. fold src dst.
  destruct (load_partition_downloads bucket f RawConnection
              (extract_table_name_from_filename f) w)
    as (w1 & b & evs1 & -> & Hg1 & Htr1 & Hd1 & Hnodel).
  destruct b.
  - destruct (delete_file_from_gcs_spec bucket src w1)
      as (w2 & b2 & -> & _ & [(-> & Hsome & Hg2 & Htr2) | (e & -> & Hg2 & Htr2)]).
    + exists w2, [f], [], evs1, [(Delete src, None)].
      rewrite app_nil_r. split; [reflexivity|].
      split; [rewrite Htr2, Htr1, <- app_assoc; reflexivity|].
      split; [exact Hd1|]. split; [exact Hnodel|].
      left. rewrite <- Hg1. auto.
    + exists w2, [], [f], evs1, [(Delete src, Some e)].
      rewrite app_nil_r. split; [reflexivity|].
      split; [rewrite Htr2, Htr1, <- app_assoc; reflexivity|].
      split; [exact Hd1|]. split; [exact Hnodel|].
      right; right; left. split; [reflexivity|]. split; [congruence|].
      exists e. left. auto.
  - destruct (move_file_in_gcs_spec bucket src dst w1)
      as (w2 & b2 & -> & _ & [(e & -> & Hg2 & Htr2)
                             | [(data & e & Hsrc & -> & Hg2 & Htr2)
                               | (data & Hsrc & -> & Hg2 & Htr2)]]).
    + exists w2, [], [], evs1, [(Copy src dst, Some e)].
      rewrite !app_nil_r. split; [reflexivity|].
      split; [rewrite Htr2, Htr1, <- app_assoc; reflexivity|].
      split; [exact Hd1|]. split; [exact Hnodel|].
      right; right; left. split; [reflexivity|]. split; [congruence|].
      exists e. right. auto.
    + exists w2, [], [], evs1, [(Copy src dst, None); (Delete src, Some e)].
      rewrite !app_nil_r. split; [reflexivity|].
      split; [rewrite Htr2, Htr1, <- app_assoc; reflexivity|].
      split; [exact Hd1|]. split; [exact Hnodel|].
      right; right; right. split; [reflexivity|]. split; [reflexivity|].
      exists data, e. rewrite <- Hg1. auto.
    + exists w2, [], [f], evs1, [(Copy src dst, None); (Delete src, None)].
      rewrite !app_nil_r. split; [reflexivity|].
      split; [rewrite Htr2, Htr1, <- app_assoc; reflexivity|].
      split; [exact Hd1|]. split; [exact Hnodel|].
      right; left. split; [reflexivity|]. split; [reflexivity|].
      split; [reflexivity|]. exists data. rewrite <- Hg1. auto.
Qed.

End LoadPass.

Section ZoneNames.

Lemma processing_name_inj a b :
  "processing_zone/" +:+ a = "processing_zone/" +:+ b -> a = b.
Proof. apply (inj (String.app "processing_zone/")). Qed.

Lemma unprocess_name_inj a b :
  "unprocess_zone/" +:+ a = "unprocess_zone/" +:+ b -> a = b.
Proof. apply (inj (String.app "unprocess_zone/")). Qed.

Lemma processing_neq_unprocess a b :
  "processing_zone/" +:+ a <> "unprocess_zone/" +:+ b.
Proof. intros H. apply (f_equal (String.get 0)) in H. discriminate H. Qed.

Lemma file_outcome_ext (g0 g0' g g' : gmap string string) s0 fl0 s fl f :
  g !! ("processing_zone/" +:+ f) = g0 !! ("processing_zone/" +:+ f) ->
  g !! ("unprocess_zone/" +:+ f) = g0 !! ("unprocess_zone/" +:+ f) ->
  g' !! ("processing_zone/" +:+ f) = g0' !! ("processing_zone/" +:+ f) ->
  g' !! ("unprocess_zone/" +:+ f) = g0' !! ("unprocess_zone/" +:+ f) ->
  (In f s <-> In f s0) ->
  (In f fl <-> In f fl0) ->
  file_outcome g0 g0' s0 fl0 f ->
  file_outcome g g' s fl f.
Proof.
  unfold file_outcome, deleted_state, moved_state, left_in_place.
  intros -> -> -> -> Hs Hfl. rewrite Hs, Hfl. tauto.
Qed.

(** The three states of a file exclude one another: a file that is
    deleted or moved is not left in place, and the first two differ by the
    list that reports the file. *)
Lemma gone_not_left_in_place (g g' : gmap string string) f :
  gone g g' f -> ~ left_in_place g g' f.
Proof.
  unfold gone, left_in_place. intros [[x Hx] Hnone] [Hsame _].
  rewrite Hnone, Hx in Hsame. discriminate.
Qed.

Lemma file_outcome_exclusive (g g' : gmap string string) successful failed f :
  file_outcome g g' successful failed f ->
  (In f successful /\ deleted_state g g' f /\ ~ left_in_place g g' f)
  \/ (~ In f successful /\ moved_state g g' f /\ ~ left_in_place g g' f)
  \/ (~ In f successful /\ left_in_place g g' f /\ ~ gone g g' f).
Proof.
  unfold file_outcome.
  intros [(Hs & _ & Hd) | [(_ & Hns & Hm) | (Hns & Hl)]].
  - left. split; [exact Hs|]. split; [exact Hd|].
    apply gone_not_left_in_place. unfold gone, deleted_state in *. tauto.
  - right; left. split; [exact Hns|]. split; [exact Hm|].
    apply gone_not_left_in_place. unfold gone, moved_state in *. tauto.
  - right; right. split; [exact Hns|]. split; [exact Hl|].
    intros Hg. now apply (gone_not_left_in_place g g' f).
Qed.

End ZoneNames.

Section LoadLoop.
Variable read_csv : string -> option DataFrame.
Variable str_lower : string -> string.

Lemma load_one_outcome bucket f successful failed (w : World) :
  let src := "processing_zone/" +:+ f in
  let dst := "unprocess_zone/" +:+ f in
  exists w' s1 f1 evs,
    load_one read_csv str_lower RawConnection bucket f (successful, failed) w
    = (w', Ok (successful ++ s1, failed ++ f1))
    /\ trace w' = trace w ++ evs
    /\ downloads evs = [src]
    /\ (forall x, In x s1 -> x = f)
    /\ (forall x, In x f1 -> x = f)
    /\ (forall k, k <> src -> k <> dst -> gcs w' !! k = gcs w !! k)
    /\ file_outcome (gcs w) (gcs w') s1 f1 f
    /\ (forall name, In (Delete name, None) evs -> name = src)
    /\ (In (Delete src, None) evs <-> gone (gcs w) (gcs w') f)
    /\ finalize_called evs f.
Proof.
  intros src dst.
  assert (Hne : src <> dst) by apply processing_neq_unprocess.
  destruct (load_one_spec read_csv str_lower bucket f successful failed w)
    as (w' & s1 & f1 & evs1 & evs2 & Hrun & Htr & Hd & Hnodel & Hcases).
  fold src dst in Hd, Hcases.
  assert (Hd2 : downloads evs2 = [] -> downloads (evs1 ++ evs2) = [src]).
  { intros H. unfold downloads in *. now rewrite omap_app, Hd, H. }
  exists w', s1, f1, (evs1 ++ evs2). do 2 (split; [assumption|]).
  unfold file_outcome, deleted_state, moved_state, left_in_place, gone,
    finalize_called.
  fold src dst.
  destruct Hcases as [(-> & -> & Hsome & -> & ->)
                     | [(-> & -> & -> & data & Hsrc & ->)
                       | [(-> & -> & e & [(-> & ->) | (-> & ->)])
                         | (-> & -> & data & e & Hsrc & -> & ->)]]].
  - split; [now apply Hd2|].
    split; [intros x [<-|[]]; reflexivity|].
    split; [intros x []|].
    split; [intros k Hk _; now rewrite lookup_delete_ne|].
    split.
    { left. split; [left; reflexivity|]. split; [intros []|].
      split; [exact Hsome|]. split; [apply lookup_delete_eq|].
      now rewrite lookup_delete_ne. }
    split.
    { intros name [H|[H|[]]]%in_app_or; [now apply Hnodel in H | congruence]. }
    split.
    { split; [intros _; split; [exact Hsome | apply lookup_delete_eq]|].
      intros _. apply in_or_app. right; left; reflexivity. }
    exists None. left. apply in_or_app. right; left; reflexivity.
  - split; [now apply Hd2|].
    split; [intros x []|].
    split; [intros x [<-|[]]; reflexivity|].
    split; [intros k Hk Hk'; now rewrite lookup_delete_ne, lookup_insert_ne|].
    split.
    { right; left. split; [left; reflexivity|]. split; [intros []|].
      rewrite Hsrc. split; [eauto|]. split; [apply lookup_delete_eq|].
      rewrite lookup_delete_ne, lookup_insert_eq by assumption. reflexivity. }
    split.
    { intros name [H|[H|[H|[]]]]%in_app_or;
        [now apply Hnodel in H | discriminate | congruence]. }
    split.
    { split; [intros _; rewrite Hsrc; split; [eauto | apply lookup_delete_eq]|].
      intros _. apply in_or_app. right; right; left; reflexivity. }
    exists None. left. apply in_or_app. right; right; left; reflexivity.
  - split; [now apply Hd2|].
    split; [intros x []|].
    split; [intros x [<-|[]]; reflexivity|].
    split; [reflexivity|].
    split.
    { right; right. split; [intros []|]. split; [reflexivity|].
      left; reflexivity. }
    split.
    { intros name [H|[H|[]]]%in_app_or;
        [now apply Hnodel in H | discriminate]. }
    split.
    { split.
      - intros [H|[H|[]]]%in_app_or; [now apply Hnodel in H | discriminate].
      - intros [[x Hx] Hnone]. congruence. }
    exists (Some e). left. apply in_or_app. right; left; reflexivity.
  - split; [now apply Hd2|].
    split; [intros x []|].
    split; [intros x []|].
    split; [reflexivity|].
    split.
    { right; right. split; [intros []|]. split; [reflexivity|].
      left; reflexivity. }
    split.
    { intros name [H|[H|[]]]%in_app_or;
        [now apply Hnodel in H | discriminate]. }
    split.
    { split.
      - intros [H|[H|[]]]%in_app_or; [now apply Hnodel in H | discriminate].
      - intros [[x Hx] Hnone]. congruence. }
    exists (Some e). right. apply in_or_app. right; left; reflexivity.
  - split; [now apply Hd2|].
    split; [intros x []|].
    split; [intros x []|].
    split; [intros k _ Hk'; now rewrite lookup_insert_ne|].
    split.
    { right; right. split; [intros []|]. rewrite Hsrc.
      split; [now rewrite lookup_insert_ne|].
      right. split; [eauto | apply lookup_insert_eq]. }
    split.
    { intros name [H|[H|[H|[]]]]%in_app_or;
        [now apply Hnodel in H | discriminate | discriminate]. }
    split.
    { split.
      - intros [H|[H|[H|[]]]]%in_app_or;
          [now apply Hnodel in H | discriminate | discriminate].
      - intros [_ Hnone]. rewrite lookup_insert_ne, Hsrc in Hnone by auto.
        discriminate. }
    exists (Some e). left. apply in_or_app. right; right; left; reflexivity.
Qed.

(** The loop of the load pass: every file of the listing is tried, in
    order, whatever happens to the others; the lists only take names of
    the listing; objects of other files are not touched; and when no name
    is listed twice every file has one outcome. *)
Lemma load_files_spec bucket : forall files successful failed (w : World),
  exists w' s1 f1 evs,
    load_files read_csv str_lower RawConnection bucket files (successful, failed) w
    = (w', Ok (successful ++ s1, failed ++ f1))
    /\ trace w' = trace w ++ evs
    /\ downloads evs = map (String.app "processing_zone/") files
    /\ (forall x, In x s1 -> In x files)
    /\ (forall x, In x f1 -> In x files)
    /\ (forall k,
           (forall f, In f files ->
                      k <> "processing_zone/" +:+ f
                      /\ k <> "unprocess_zone/" +:+ f) ->
           gcs w' !! k = gcs w !! k)
    /\ (NoDup files ->
        forall f, In f files -> file_outcome (gcs w) (gcs w') s1 f1 f)
    /\ (forall name,
           In (Delete name, None) evs ->
           exists f, In f files /\ name = "processing_zone/" +:+ f)
    /\ (NoDup files ->
        forall f, In f files ->
          (In (Delete ("processing_zone/" +:+ f), None) evs
           <-> gone (gcs w) (gcs w') f))
    /\ (forall f, In f files -> finalize_called evs f).
Proof.
  induction files as [|f0 rest IH]; intros successful failed w.
  - exists w, [], [], []. rewrite !app_nil_r.
    split; [reflexivity|]. split; [reflexivity|]. split; [reflexivity|].
    split; [intros x []|]. split; [intros x []|].
    split; [reflexivity|]. split; [intros _ f []|].
    split; [intros name []|]. split; [intros _ f []|]. intros f [].
  - cbn [load_files]. unfold bind.
    destruct (load_one_outcome bucket f0 successful failed w)
      as (w1 & s1 & f1 & evs1 & -> & Htr1 & Hd1 & Hs1 & Hf1 & Hframe1 & Hout1
          & Hdel1 & Hgone1 & Hfin1).
    destruct (IH (successful ++ s1) (failed ++ f1) w1)
      as (w2 & s2 & f2 & evs2 & -> & Htr2 & Hd2 & Hs2 & Hf2 & Hframe2 & Hout2
          & Hdel2 & Hgone2 & Hfin2).
    exists w2, (s1 ++ s2), (f1 ++ f2), (evs1 ++ evs2).
    rewrite !app_assoc. split; [reflexivity|].
    split; [rewrite Htr2, Htr1, <- app_assoc; reflexivity|].
    split; [unfold downloads in *; rewrite omap_app, Hd1, Hd2; reflexivity|].
    split; [intros x [H|H]%in_app_or; [left; symmetry; auto | right; auto]|].
    split; [intros x [H|H]%in_app_or; [left; symmetry; auto | right; auto]|].
    assert (Hkeep0 : NoDup (f0 :: rest) ->
              forall k, k = "processing_zone/" +:+ f0
                        \/ k = "unprocess_zone/" +:+ f0 ->
                        gcs w2 !! k = gcs w1 !! k).
    { intros Hnd k Hk. apply NoDup_cons in Hnd as [Hnotin _].
      rewrite list_elem_of_In in Hnotin.
      apply Hframe2. intros f Hf. destruct Hk as [-> | ->]; split.
      - intros Heq%processing_name_inj. subst. contradiction.
      - apply processing_neq_unprocess.
      - intros Heq. symmetry in Heq.
        now apply processing_neq_unprocess in Heq.
      - intros Heq%unprocess_name_inj. subst. contradiction. }
    assert (Hkeep : forall f, f <> f0 ->
              forall k, k = "processing_zone/" +:+ f
                        \/ k = "unprocess_zone/" +:+ f ->
                        gcs w1 !! k = gcs w !! k).
    { intros f Hne k Hk. destruct Hk as [-> | ->]; apply Hframe1.
      - intros Heq%processing_name_inj. contradiction.
      - apply processing_neq_unprocess.
      - intros Heq. symmetry in Heq.
        now apply processing_neq_unprocess in Heq.
      - intros Heq%unprocess_name_inj. contradiction. }
    split.
    { intros k Hk. rewrite Hframe2.
      - apply Hframe1; apply (Hk f0); left; reflexivity.
      - intros f Hf. apply Hk. right; exact Hf. }
    split.
    { intros Hnd f Hin. pose proof Hnd as Hnd'.
      apply NoDup_cons in Hnd' as [Hnotin Hnd'].
      rewrite list_elem_of_In in Hnotin.
      destruct Hin as [<- | Hin].
      - eapply (file_outcome_ext (gcs w) (gcs w1) _ _ s1 f1); eauto.
        + rewrite in_app_iff. split; [intros [H|H]; auto | auto].
          apply Hs2 in H. contradiction.
        + rewrite in_app_iff. split; [intros [H|H]; auto | auto].
          apply Hf2 in H. contradiction.
      - assert (Hne : f <> f0) by (intros ->; contradiction).
        eapply (file_outcome_ext (gcs w1) (gcs w2) _ _ s2 f2); eauto.
        + symmetry. eauto.
        + symmetry. eauto.
        + rewrite in_app_iff. split; [intros [H|H]; auto | auto].
          apply Hs1 in H. contradiction.
        + rewrite in_app_iff. split; [intros [H|H]; auto | auto].
          apply Hf1 in H. contradiction. }
    split.
    { intros name [H|H]%in_app_or.
      - exists f0. split; [left; reflexivity | now apply Hdel1].
      - destruct (Hdel2 name H) as (f & Hf & ->). exists f.
        split; [right; exact Hf | reflexivity]. }
    split.
    { intros Hnd f Hin. pose proof Hnd as Hnd'.
      apply NoDup_cons in Hnd' as [Hnotin Hnd'].
      rewrite list_elem_of_In in Hnotin.
      unfold gone in *.
      destruct Hin as [<- | Hin].
      - rewrite (Hkeep0 Hnd ("processing_zone/" +:+ f0)) by auto.
        rewrite <- Hgone1, in_app_iff. split; [intros [H|H]; auto | auto].
        destruct (Hdel2 _ H) as (f & Hf & Heq%processing_name_inj).
        subst. contradiction.
      - assert (Hne : f <> f0) by (intros ->; contradiction).
        rewrite <- (Hkeep f Hne ("processing_zone/" +:+ f)) by auto.
        rewrite <- (Hgone2 Hnd' f Hin), in_app_iff.
        split; [intros [H|H]; auto | auto].
        apply Hdel1 in H. apply processing_name_inj in H. contradiction. }
    intros f [<- | Hin].
    + destruct Hfin1 as [o [H|H]]; exists o; [left | right];
        apply in_or_app; left; exact H.
    + destruct (Hfin2 f Hin) as [o [H|H]]; exists o; [left | right];
        apply in_or_app; right; exact H.
Qed.

End LoadLoop.

Section LoadAll.
Variable read_csv : string -> option DataFrame.
Variable str_lower : string -> string.


(** A call to a service that keeps no state of the model. *)
Lemma plain_external_spec (c : call) (w : World) :
  exists w' r,
    external c (fun w => (w, Ok tt)) w = (w', r)
    /\ gcs w' = gcs w /\ pg w' = pg w
    /\ bucket_name w' = bucket_name w
    /\ project_id w' = project_id w
    /\ dataset_id w' = dataset_id w
    /\ clock w' = clock w /\ ticks w' = ticks w
    /\ bq_tables w' = bq_tables w
    /\ bq_partitions w' = bq_partitions w
    /\ bq_select w' = bq_select w
    /\ faults w' = tail (faults w)
    /\ trace w' = trace w ++ [(c, outcome r)].
Proof.
  unfold external. destruct_world w. simpl.
  destruct fs as [|[e|] fs]; simpl; do 2 eexists;
    (split; [reflexivity|]); simpl; repeat split.
Qed.

Lemma pg_connect_spec (w : World) :
  exists w' (r : result unit),
    external PgConnect (fun w => (w, Ok RawConnection)) w
    = (w', match r with Ok _ => Ok RawConnection | Raise e => Raise e end)
    /\ gcs w' = gcs w /\ pg w' = pg w
    /\ bucket_name w' = bucket_name w
    /\ project_id w' = project_id w
    /\ dataset_id w' = dataset_id w
    /\ clock w' = clock w /\ ticks w' = ticks w
    /\ bq_tables w' = bq_tables w
    /\ bq_partitions w' = bq_partitions w
    /\ bq_select w' = bq_select w
    /\ faults w' = tail (faults w)
    /\ trace w' = trace w ++ [(PgConnect, outcome r)].
Proof.
  unfold external. destruct_world w. simpl.
  destruct fs as [|[e|] fs]; simpl; eexists;
    [exists (Ok tt) | exists (Raise e) | exists (Ok tt)];
    (split; [reflexivity|]); simpl; repeat split.
Qed.




End LoadAll.



(** C2 fails on the code: when the load of a file fails and the copy to the
    failed zone raises, the file is in neither of the two lists. *)
Lemma C2_failed_move_unreported :
  let w := world_with load_and_copy_fault one_staged_file in
  let w' := fst (load_all_partitions_to_postgresql toy_read_csv toy_lower w) in
  staged_files (gcs w) = ["user_events_20240114.csv"]
  /\ In "processing_zone/user_events_20240114.csv"
        (downloads (events_since w w'))
  /\ In (Copy "processing_zone/user_events_20240114.csv"
              "unprocess_zone/user_events_20240114.csv", Some ApiError)
        (events_since w w')
  /\ snd (load_all_partitions_to_postgresql toy_read_csv toy_lower w) = Ok ([], []).
Proof. vm_compute. repeat split; auto 10. Qed.

(** ** The export pass *)

Lemma same_but_log_step (w : World) (ev : event) (fs : list (option exn)) :
  same_but_log w (log ev (set_faults fs w)).
Proof. destruct_world w. solve_same_but_log. Qed.

Lemma get_partitioning_field_spec (table dataset : string) (w : World) :
  exists w' r,
    get_partitioning_field table dataset w = (w', r)
    /\ same_but_log w w'.
Proof.
  unfold get_partitioning_field, get_table, try_except, bind, external, ret,
    raise.
  destruct_world w. simpl. crush_faults;
    repeat case_match; simplify_eq; do 2 eexists;
    (split; [reflexivity | solve_same_but_log]).
Qed.

Lemma list_partitioned_loop_frame : forall tables acc (w : World),
  same_but_log w (fst (list_partitioned_loop tables acc w)).
Proof.
  induction tables as [|t rest IH]; intros acc w;
    [apply same_but_log_refl|].
  cbn [list_partitioned_loop].
  unfold bind, try_except, get_table_ref, external, ret, raise.
  destruct (faults w) as [|[e|] fs]; cbn.
  - destruct (is_Some_b (time_partitioning t) || is_Some_b (range_partitioning t));
      cbn; (eapply same_but_log_trans; [apply same_but_log_step | apply IH]).
  - destruct e; cbn;
      try (eapply same_but_log_trans; [apply same_but_log_step | apply IH]);
      apply same_but_log_step.
  - destruct (is_Some_b (time_partitioning t) || is_Some_b (range_partitioning t));
      cbn; (eapply same_but_log_trans; [apply same_but_log_step | apply IH]).
Qed.

Lemma list_partitioned_tables_frame (dataset : string) (w : World) :
  same_but_log w (fst (list_partitioned_tables dataset w)).
Proof.
  unfold list_partitioned_tables, try_except, bind, list_tables, external,
    ret, raise.
  destruct (faults w) as [|[e|] fs]; cbn.
  - pose proof (list_partitioned_loop_frame (bq_tables w) []
                  (log (ListTables dataset, None) (set_faults [] w))) as H.
    destruct (list_partitioned_loop _ _ _) as [w1 [l|e]]; cbn in *;
      [|destruct e; cbn];
      (eapply same_but_log_trans; [apply same_but_log_step | exact H]).
  - destruct e; cbn; apply same_but_log_step.
  - pose proof (list_partitioned_loop_frame (bq_tables w) []
                  (log (ListTables dataset, None) (set_faults fs w))) as H.
    destruct (list_partitioned_loop _ _ _) as [w1 [l|e]]; cbn in *;
      [|destruct e; cbn];
      (eapply same_but_log_trans; [apply same_but_log_step | exact H]).
Qed.

Lemma truthy_opt_Some (o : option string) :
  truthy_opt o = true -> exists s, o = Some s.
Proof. destruct o; [eauto | discriminate]. Qed.

(** The pre-check loop of the export script: a table is kept only for a
    catalog answer equal to the key of the date it is given. *)
Lemma check_loop_spec (full yesterday : string) :
  forall tables acc (w : World),
  exists w' found,
    check_loop full yesterday tables acc w = (w', Ok (acc ++ found))
    /\ same_but_log w w'
    /\ forall t, In t found ->
         In t tables /\ catalog_max w full t = Some (date_key yesterday).
Proof.
  induction tables as [|t rest IH]; intros acc w.
  - exists w, []. rewrite app_nil_r. split; [reflexivity|].
    split; [apply same_but_log_refl | intros t []].
  - cbn [check_loop]. unfold bind.
    destruct (check_for_yesterdays_partition_spec t full yesterday w)
      as (w1 & r & -> & Hsame1 & Hiff & _).
    destruct (truthy_opt r) eqn:Htruthy.
    + destruct (IH (acc ++ [t]) w1) as (w2 & found & -> & Hsame2 & Hfound).
      exists w2, (t :: found). rewrite <- app_assoc. split; [reflexivity|].
      split; [eapply same_but_log_trans; eassumption|].
      destruct (truthy_opt_Some r Htruthy) as [pid ->].
      destruct (proj1 (Hiff pid) eq_refl) as (_ & Hmax & ->).
      intros t' [<- | Hin].
      * split; [left; reflexivity | exact Hmax].
      * destruct (Hfound t' Hin) as [Hin' Hmax']. split; [right; exact Hin'|].
        unfold catalog_max in *.
        destruct Hsame1 as ((_ & _ & _ & _ & _ & Hbq & _) & _).
        now rewrite <- Hbq.
    + destruct (IH acc w1) as (w2 & found & -> & Hsame2 & Hfound).
      exists w2, found. split; [reflexivity|].
      split; [eapply same_but_log_trans; eassumption|].
      intros t' Hin. destruct (Hfound t' Hin) as [Hin' Hmax'].
      split; [right; exact Hin'|].
      unfold catalog_max in *.
      destruct Hsame1 as ((_ & _ & _ & _ & _ & Hbq & _) & _).
      now rewrite <- Hbq.
Qed.

Section ExportPass.
Variable to_csv : DataFrame -> string.

Lemma static_trans (a b c : World) : static a b -> static b c -> static a c.
Proof.
  unfold static. intros H1 H2. decompose [and] H1. decompose [and] H2.
  repeat split; congruence.
Qed.

(** One turn of the loop of the export pass: the table is exported only
    for a catalog answer equal to the key of [yesterday], and then to the
    object named after the table and [partition_id]. *)
Lemma export_one_spec bucket full dataset yesterday partition_id table
    exported failed (w : World) :
  exists w' r,
    export_one to_csv bucket full dataset yesterday partition_id table
      (exported, failed) w = (w', r)
    /\ static w w' /\ ticks w' = ticks w /\ pg w' = pg w
    /\ ((r = Ok (exported ++ [table], failed)
         /\ catalog_max w full table = Some (date_key yesterday)
         /\ exists data,
              gcs w' = <["processing_zone/" +:+ staged_name table partition_id
                         := data]> (gcs w))
        \/ (gcs w' = gcs w
            /\ match r with
               | Ok acc => exists f1, acc = (exported, failed ++ f1)
               | Raise _ => True
               end)).
Proof.
  unfold export_one, bind, ret.
  destruct (check_for_yesterdays_partition_spec table full yesterday w)
    as (w1 & r & -> & (Hst1 & Htk1 & Hg1 & Hpg1) & Hiff & _).
  destruct (truthy_opt r) eqn:Htruthy.
  2:{ exists w1. eexists. split; [reflexivity|].
      split; [exact Hst1|]. split; [exact Htk1|]. split; [exact Hpg1|].
      right. split; [exact Hg1|]. exists []. now rewrite app_nil_r. }
  destruct (truthy_opt_Some r Htruthy) as [pid ->].
  destruct (proj1 (Hiff pid) eq_refl) as (_ & Hmax & ->).
  destruct (get_partitioning_field_spec table dataset w1)
    as (w2 & r2 & -> & (Hst2 & Htk2 & Hg2 & Hpg2)).
  destruct r2 as [field | e2].
  2:{ exists w2. eexists. split; [reflexivity|].
      split; [eapply static_trans; eassumption|].
      split; [congruence|]. split; [congruence|].
      right. split; [congruence | exact I]. }
  destruct (truthy_opt field).
  2:{ exists w2. eexists. split; [reflexivity|].
      split; [eapply static_trans; eassumption|].
      split; [congruence|]. split; [congruence|].
      right. split; [congruence | eauto]. }
  destruct (export_partition_to_csv_spec to_csv bucket full table
              (default EmptyString field) partition_id yesterday
              ("gs://" +:+ bucket +:+ "/processing_zone") w2)
    as (w3 & b & -> & Htrue & Hfalse & Hst3 & Htk3 & Hpg3).
  destruct b.
  - exists w3. eexists. split; [reflexivity|].
    split; [eapply static_trans; [eapply static_trans|]; eassumption|].
    split; [congruence|]. split; [congruence|].
    left. split; [reflexivity|]. split; [exact Hmax|].
    destruct (Htrue eq_refl) as (_ & _ & Hg3).
    eexists. rewrite Hg3, Hg2, Hg1. reflexivity.
  - exists w3. eexists. split; [reflexivity|].
    split; [eapply static_trans; [eapply static_trans|]; eassumption|].
    split; [congruence|]. split; [congruence|].
    right. split; [|eauto].
    destruct (Hfalse eq_refl) as (Hg3 & _). congruence.
Qed.

(** The loop of the export pass. *)
Lemma export_loop_spec bucket full dataset yesterday partition_id :
  forall tables exported failed (w : World),
  exists w' r wrote,
    export_loop to_csv bucket full dataset yesterday partition_id tables
      (exported, failed) w = (w', r)
    /\ static w w' /\ ticks w' = ticks w /\ pg w' = pg w
    /\ keeps_objects (gcs w) (gcs w')
    /\ (forall t, In t wrote ->
          In t tables /\ catalog_max w full t = Some (date_key yesterday))
    /\ (forall k, gcs w' !! k <> gcs w !! k ->
          exists t,
            In t wrote
            /\ k = "processing_zone/" +:+ staged_name t partition_id)
    /\ match r with
       | Ok acc => exists f1, acc = (exported ++ wrote, failed ++ f1)
       | Raise _ => True
       end.
Proof.
  induction tables as [|t rest IH]; intros exported failed w.
  - exists w, (Ok (exported, failed)), []. split; [reflexivity|].
    split; [repeat split|]. split; [reflexivity|]. split; [reflexivity|].
    split; [intros k Hk; exact Hk|]. split; [intros t []|].
    split; [intros k Hk; contradiction|].
    exists []. now rewrite !app_nil_r.
  - cbn [export_loop]. unfold bind.
    destruct (export_one_spec bucket full dataset yesterday partition_id t
                exported failed w)
      as (w1 & r1 & -> & Hst1 & Htk1 & Hpg1 & Hcase).
    assert (Hmax : forall t', catalog_max w1 full t' = catalog_max w full t').
    { intros t'. unfold catalog_max.
      destruct Hst1 as (_ & _ & _ & _ & _ & Hbq & _). now rewrite Hbq. }
    destruct Hcase as [(-> & Hmax1 & data & Hg1) | (Hg1 & Hr1)].
    + destruct (IH (exported ++ [t]) failed w1)
        as (w2 & r2 & wrote2 & -> & Hst2 & Htk2 & Hpg2 & Hkeep2 & Hel2
            & Hdiff2 & Hr2).
      exists w2, r2, (t :: wrote2). split; [reflexivity|].
      split; [eapply static_trans; eassumption|].
      split; [congruence|]. split; [congruence|].
      split.
      { intros k Hk. apply Hkeep2. rewrite Hg1.
        destruct (decide ("processing_zone/" +:+ staged_name t partition_id = k))
          as [<- | Hne]; [rewrite lookup_insert_eq; eauto|].
        now rewrite lookup_insert_ne. }
      split.
      { intros t' [<- | Hin].
        - split; [left; reflexivity | exact Hmax1].
        - destruct (Hel2 t' Hin) as [Hin' Hm]. split; [right; exact Hin'|].
          now rewrite <- Hmax. }
      split.
      { intros k Hk.
        destruct (decide (gcs w2 !! k = gcs w1 !! k)) as [Heq | Hne].
        - exists t. split; [left; reflexivity|].
          destruct (decide ("processing_zone/" +:+ staged_name t partition_id
                            = k))
            as [<- | Hne']; [reflexivity|].
          rewrite Heq, Hg1, lookup_insert_ne in Hk by assumption.
          contradiction.
        - destruct (Hdiff2 k Hne) as (t' & Hin & ->). exists t'.
          split; [right; exact Hin | reflexivity]. }
      destruct r2 as [acc | e]; [|exact I].
      destruct Hr2 as (f1 & ->). exists f1.
      now rewrite <- app_assoc.
    + destruct r1 as [acc | e1].
      * destruct Hr1 as (f1 & ->).
        destruct (IH exported (failed ++ f1) w1)
          as (w2 & r2 & wrote2 & -> & Hst2 & Htk2 & Hpg2 & Hkeep2 & Hel2
              & Hdiff2 & Hr2).
        exists w2, r2, wrote2. split; [reflexivity|].
        split; [eapply static_trans; eassumption|].
        split; [congruence|]. split; [congruence|].
        rewrite Hg1 in *. split; [exact Hkeep2|].
        split.
        { intros t' Hin. destruct (Hel2 t' Hin) as [Hin' Hm].
          split; [right; exact Hin'|]. now rewrite <- Hmax. }
        split; [exact Hdiff2|].
        destruct r2 as [acc | e]; [|exact I].
        destruct Hr2 as (f2 & ->). exists (f1 ++ f2).
        now rewrite app_assoc.
      * exists w1, (Raise e1), []. split; [reflexivity|].
        split; [exact Hst1|]. split; [exact Htk1|]. split; [exact Hpg1|].
        rewrite Hg1. split; [intros k Hk; exact Hk|].
        split; [intros t' []|]. split; [intros k Hk; contradiction|].
        exact I.
Qed.

End ExportPass.

Section ExportRun.
Variable to_csv : DataFrame -> string.

Lemma plain_external_same (c : call) (w : World) :
  exists w' r,
    external c (fun w => (w, Ok tt)) w = (w', r) /\ same_but_log w w'.
Proof.
  unfold external. destruct_world w. simpl.
  destruct fs as [|[e|] fs]; simpl; do 2 eexists;
    (split; [reflexivity | solve_same_but_log]).
Qed.

Lemma get_yesterday_date_run (w : World) :
  get_yesterday_date w
  = (log (Now, None) (set_ticks (S (ticks w)) w),
     Ok (yesterday_of (clock w (ticks w)))).
Proof. reflexivity. Qed.

Lemma clock_read_frame (w : World) :
  let w' := log (Now, None) (set_ticks (S (ticks w)) w) in
  static w w' /\ ticks w' = S (ticks w) /\ gcs w' = gcs w /\ pg w' = pg w.
Proof. destruct_world w. cbn. unfold static. cbn. repeat split. Qed.

(** What [export_all_new_partitions_to_gcs] does, for every schedule of
    faults: it reads the clock at most once, and what it exports it exports
    for the date of that reading. *)
Lemma export_all_spec (w : World) :
  let key := date_key (yesterday_of (clock w (ticks w))) in
  let full := project_id w +:+ "." +:+ dataset_id w in
  exists w' exported,
    export_all_new_partitions_to_gcs to_csv w = (w', Ok exported)
    /\ static w w' /\ pg w' = pg w
    /\ keeps_objects (gcs w) (gcs w')
    /\ ((exported = [] /\ gcs w' = gcs w
         /\ (ticks w' = ticks w \/ ticks w' = S (ticks w)))
        \/ (ticks w' = S (ticks w)
            /\ exists wrote,
                 (exported = wrote \/ exported = [])
                 /\ (forall t, In t wrote -> catalog_max w full t = Some key)
                 /\ (forall k, gcs w' !! k <> gcs w !! k ->
                       exists t,
                         In t wrote
                         /\ k = "processing_zone/"
                                +:+ staged_name t key))).
Proof.
  intros key full.
  assert (Hid : forall g : gmap string string, keeps_objects g g)
    by (intros g k Hk; exact Hk).
  unfold export_all_new_partitions_to_gcs, try_except, bind,
    get_gcp_clients, get_bigquery_client, get_gcs_client,
    config_project_id, config_dataset_id, config_bucket_name, ret.
  destruct (plain_external_same GetGcpClients w)
    as (w1 & r1 & -> & (Hst1 & Htk1 & Hg1 & Hpg1)).
  destruct r1 as [[]|e1].
  2:{ do 2 eexists. split; [reflexivity|]. split; [exact Hst1|].
      split; [exact Hpg1|]. rewrite Hg1. split; [apply Hid|]. left. auto. }
  destruct (plain_external_same GetBigQueryClient w1)
    as (w2 & r2 & -> & (Hst2 & Htk2 & Hg2 & Hpg2)).
  assert (Hst12 : static w w2) by (eapply static_trans; eassumption).
  destruct r2 as [[]|e2].
  2:{ do 2 eexists. split; [reflexivity|]. split; [exact Hst12|].
      split; [congruence|]. rewrite Hg2, Hg1. split; [apply Hid|].
      left. split; [reflexivity|]. split; [reflexivity|]. left. congruence. }
  destruct (plain_external_same GetGcsClient w2)
    as (w3 & r3 & -> & (Hst3 & Htk3 & Hg3 & Hpg3)).
  assert (Hst13 : static w w3) by (eapply static_trans; eassumption).
  assert (Hgcs3 : gcs w3 = gcs w) by congruence.
  assert (Htks3 : ticks w3 = ticks w) by congruence.
  destruct r3 as [[]|e3].
  2:{ do 2 eexists. split; [reflexivity|]. split; [exact Hst13|].
      split; [congruence|]. rewrite Hgcs3. split; [apply Hid|]. left. auto. }
  destruct (negb (truthy (project_id w3)) || negb (truthy (dataset_id w3))
            || negb (truthy (bucket_name w3))).
  { do 2 eexists. split; [reflexivity|]. split; [exact Hst13|].
    split; [congruence|]. rewrite Hgcs3. split; [apply Hid|]. left. auto. }
  rewrite get_yesterday_date_run.
  destruct (clock_read_frame w3) as (Hst4 & Htk4 & Hg4 & Hpg4).
  set (w4 := log (Now, None) (set_ticks (S (ticks w3)) w3)) in *.
  assert (Hst14 : static w w4) by (eapply static_trans; eassumption).
  pose proof (list_partitioned_tables_frame (dataset_id w3) w4)
    as (Hst5 & Htk5 & Hg5 & Hpg5).
  destruct (list_partitioned_tables (dataset_id w3) w4) as [w5 [tables|e5]];
    cbn [fst] in *.
  2:{ do 2 eexists. split; [reflexivity|].
      split; [eapply static_trans; eassumption|].
      split; [congruence|].
      replace (gcs w5) with (gcs w) by congruence. split; [apply Hid|].
      left. split; [reflexivity|]. split; [reflexivity|]. right. congruence. }
  assert (Hst15 : static w w5) by (eapply static_trans; eassumption).
  destruct tables as [|t0 rest].
  { do 2 eexists. split; [reflexivity|]. split; [exact Hst15|].
    split; [congruence|].
    replace (gcs w5) with (gcs w) by congruence. split; [apply Hid|].
    left. split; [reflexivity|]. split; [reflexivity|]. right. congruence. }
  destruct (export_loop_spec to_csv (bucket_name w3)
              (project_id w3 +:+ "." +:+ dataset_id w3) (dataset_id w3)
              (yesterday_of (clock w3 (ticks w3)))
              (PyStr.replace "-" EmptyString
                 (yesterday_of (clock w3 (ticks w3))))
              (t0 :: rest) [] [] w5)
    as (w6 & r6 & wrote & Hrun & Hst6 & Htk6 & Hpg6 & Hkeep & Hel & Hdiff
        & Hr6).
  rewrite Hrun.
  assert (Hclock : clock w3 = clock w) by apply Hst13.
  assert (Hproj : project_id w3 = project_id w) by apply Hst13.
  assert (Hdata : dataset_id w3 = dataset_id w) by apply Hst13.
  assert (Hbq : bq_partitions w5 = bq_partitions w) by apply Hst15.
  rewrite Hclock, Htks3, Hproj, Hdata in *.
  fold key in Hdiff. fold (date_key (yesterday_of (clock w (ticks w)))) in Hdiff.
  fold key in Hdiff. fold full in Hel.
  replace (gcs w5) with (gcs w) in * by congruence.
  assert (Hwrote : forall t, In t wrote -> catalog_max w full t = Some key).
  { intros t Hin. destruct (Hel t Hin) as [_ Hmax].
    unfold catalog_max in *. now rewrite <- Hbq. }
  destruct r6 as [[e1 f1] | e6].
  - destruct Hr6 as (f2 & Hacc). cbn [app] in Hacc.
    inversion Hacc; subst e1 f1. cbn [fst].
    do 2 eexists. split; [reflexivity|].
    split; [eapply static_trans; eassumption|].
    split; [congruence|]. split; [exact Hkeep|].
    right. split; [congruence|]. exists wrote.
    split; [now left|]. split; [exact Hwrote | exact Hdiff].
  - do 2 eexists. split; [reflexivity|].
    split; [eapply static_trans; eassumption|].
    split; [congruence|]. split; [exact Hkeep|].
    right. split; [congruence|]. exists wrote.
    split; [now right|]. split; [exact Hwrote | exact Hdiff].
Qed.

End ExportRun.

Section ExportMain.
Variable to_csv : DataFrame -> string.

(** What a run of the export script does, for every schedule of faults:
    its pre-check works on a first reading of the clock, and the export
    pass, entered only when the pre-check found a table, on a second one. *)
Lemma export_main_spec (w : World) :
  let key1 := date_key (yesterday_of (clock w (ticks w))) in
  let key2 := date_key (yesterday_of (clock w (S (ticks w)))) in
  let full := project_id w +:+ "." +:+ dataset_id w in
  exists w' exported,
    export_main to_csv w = (w', Ok exported)
    /\ static w w' /\ pg w' = pg w
    /\ keeps_objects (gcs w) (gcs w')
    /\ ((exported = [] /\ gcs w' = gcs w
         /\ (ticks w' <= ticks w + 2)%nat
         /\ (ticks w' = (ticks w + 2)%nat ->
             exists t, catalog_max w full t = Some key1))
        \/ (ticks w' = (ticks w + 2)%nat
            /\ (exists t, catalog_max w full t = Some key1)
            /\ exists wrote,
                 (exported = wrote \/ exported = [])
                 /\ (forall t, In t wrote ->
                       catalog_max w full t = Some key2)
                 /\ (forall k, gcs w' !! k <> gcs w !! k ->
                       exists t,
                         In t wrote
                         /\ k = "processing_zone/"
                                +:+ staged_name t key2))).
Proof.
  intros key1 key2 full.
  assert (Hid : forall g : gmap string string, keeps_objects g g)
    by (intros g k Hk; exact Hk).
  unfold export_main, try_except, bind, get_gcp_clients, get_bigquery_client,
    config_project_id, config_dataset_id, ret.
  destruct (plain_external_same GetGcpClients w)
    as (w1 & r1 & -> & (Hst1 & Htk1 & Hg1 & Hpg1)).
  destruct r1 as [[]|e1].
  2:{ do 2 eexists. split; [reflexivity|]. split; [exact Hst1|].
      split; [exact Hpg1|]. rewrite Hg1. split; [apply Hid|]. left.
      repeat split; try lia. }
  destruct (plain_external_same GetBigQueryClient w1)
    as (w2 & r2 & -> & (Hst2 & Htk2 & Hg2 & Hpg2)).
  assert (Hst12 : static w w2) by (eapply static_trans; eassumption).
  assert (Hgcs2 : gcs w2 = gcs w) by congruence.
  assert (Htks2 : ticks w2 = ticks w) by congruence.
  destruct r2 as [[]|e2].
  2:{ do 2 eexists. split; [reflexivity|]. split; [exact Hst12|].
      split; [congruence|]. rewrite Hgcs2. split; [apply Hid|]. left.
      repeat split; try lia. }
  destruct (negb (truthy (project_id w2)) || negb (truthy (dataset_id w2))).
  { do 2 eexists. split; [reflexivity|]. split; [exact Hst12|].
    split; [congruence|]. rewrite Hgcs2. split; [apply Hid|]. left.
    repeat split; try lia. }
  rewrite get_yesterday_date_run.
  destruct (clock_read_frame w2) as (Hst3 & Htk3 & Hg3 & Hpg3).
  set (w3 := log (Now, None) (set_ticks (S (ticks w2)) w2)) in *.
  assert (Hst13 : static w w3) by (eapply static_trans; eassumption).
  pose proof (list_partitioned_tables_frame (dataset_id w2) w3)
    as (Hst4 & Htk4 & Hg4 & Hpg4).
  destruct (list_partitioned_tables (dataset_id w2) w3) as [w4 [tables|e4]];
    cbn [fst] in *.
  2:{ do 2 eexists. split; [reflexivity|].
      split; [eapply static_trans; eassumption|].
      split; [congruence|].
      replace (gcs w4) with (gcs w) by congruence. split; [apply Hid|].
      left. repeat split; try lia. }
  assert (Hst14 : static w w4) by (eapply static_trans; eassumption).
  assert (Hgcs4 : gcs w4 = gcs w) by congruence.
  assert (Htks4 : ticks w4 = S (ticks w)) by congruence.
  destruct tables as [|t0 rest].
  { do 2 eexists. split; [reflexivity|]. split; [exact Hst14|].
    split; [congruence|]. rewrite Hgcs4. split; [apply Hid|].
    left. repeat split; try lia. }
  destruct (check_loop_spec (project_id w2 +:+ "." +:+ dataset_id w2)
              (yesterday_of (clock w2 (ticks w2))) (t0 :: rest) [] w4)
    as (w5 & found & Hrun & (Hst5 & Htk5 & Hg5 & Hpg5) & Hfound).
  cbn [app] in Hrun. rewrite Hrun.
  assert (Hst15 : static w w5) by (eapply static_trans; eassumption).
  assert (Hgcs5 : gcs w5 = gcs w) by congruence.
  assert (Htks5 : ticks w5 = S (ticks w)) by congruence.
  assert (Hclock : clock w2 = clock w) by apply Hst12.
  assert (Hproj : project_id w2 = project_id w) by apply Hst12.
  assert (Hdata : dataset_id w2 = dataset_id w) by apply Hst12.
  assert (Hbq4 : bq_partitions w4 = bq_partitions w) by apply Hst14.
  rewrite Hclock, Htks2, Hproj, Hdata in Hfound.
  fold key1 in Hfound. fold full in Hfound.
  destruct found as [|t1 found'].
  { do 2 eexists. split; [reflexivity|]. split; [exact Hst15|].
    split; [congruence|]. rewrite Hgcs5. split; [apply Hid|].
    left. repeat split; try lia. }
  assert (Hfirst : exists t, catalog_max w full t = Some key1).
  { exists t1. destruct (Hfound t1 (or_introl eq_refl)) as [_ Hmax].
    unfold catalog_max in *. now rewrite <- Hbq4. }
  destruct (export_all_spec to_csv w5)
    as (w6 & exported & -> & Hst6 & Hpg6 & Hkeep6 & Hcase).
  assert (Hclock5 : clock w5 = clock w) by apply Hst15.
  assert (Hproj5 : project_id w5 = project_id w) by apply Hst15.
  assert (Hdata5 : dataset_id w5 = dataset_id w) by apply Hst15.
  assert (Hbq5 : bq_partitions w5 = bq_partitions w) by apply Hst15.
  rewrite Hclock5, Htks5, Hproj5, Hdata5, Hgcs5 in *.
  fold key2 in Hcase. fold full in Hcase.
  do 2 eexists. split; [reflexivity|].
  split; [eapply static_trans; eassumption|].
  split; [congruence|]. split; [exact Hkeep6|].
  destruct Hcase
    as [(-> & Hg6 & Htk6) | (Htk6 & wrote & Hexp & Hel & Hdiff)].
  - left. repeat split; auto; lia.
  - right. split; [lia|]. split; [exact Hfirst|]. exists wrote.
    split; [exact Hexp|]. split; [|exact Hdiff].
    intros t Hin. specialize (Hel t Hin). unfold catalog_max in *.
    now rewrite <- Hbq5.
Qed.

(** C8 (amended). A run of the export script reads the clock for
    yesterday's date at most twice: once for the pre-check of its [main],
    and once more in [export_all_new_partitions_to_gcs], which is entered
    only when the pre-check found a table whose catalog answer is the key
    of the first reading. Every table the run reports as exported has a
    catalog answer equal to the key of the second reading, and every object
    the run writes is [processing_zone/{table}_{key}.csv] for that key and
    a table whose catalog answer is that key; the table is among the
    reported ones unless the run reports none. *)
Theorem C8_clock_readings (w : World) :
  let key1 := date_key (yesterday_of (clock w (ticks w))) in
  let key2 := date_key (yesterday_of (clock w (S (ticks w)))) in
  let full := project_id w +:+ "." +:+ dataset_id w in
  exists w' exported,
    export_main to_csv w = (w', Ok exported)
    /\ (ticks w' <= ticks w + 2)%nat
    /\ (ticks w' = (ticks w + 2)%nat ->
        exists t, catalog_max w full t = Some key1)
    /\ (forall t, In t exported ->
          ticks w' = (ticks w + 2)%nat
          /\ catalog_max w full t = Some key2)
    /\ (forall k, gcs w' !! k <> gcs w !! k ->
          ticks w' = (ticks w + 2)%nat
          /\ exists t,
               catalog_max w full t = Some key2
               /\ k = "processing_zone/" +:+ t +:+ "_" +:+ key2 +:+ ".csv"
               /\ (exported <> [] -> In t exported)).
Proof.
  intros key1 key2 full.
  destruct (export_main_spec w)
    as (w' & exported & Hrun & _ & _ & _ & Hcase).
  fold key1 key2 full in Hcase.
  exists w', exported. split; [exact Hrun|].
  destruct Hcase
    as [(-> & Hg & Hle & Hfirst)
       | (Htk & Hfirst & wrote & Hexp & Hel & Hdiff)].
  - split; [exact Hle|]. split; [exact Hfirst|].
    split; [intros t []|]. intros k Hk. rewrite Hg in Hk. contradiction.
  - split; [lia|]. split; [intros _; exact Hfirst|].
    split.
    + intros t Hin. split; [exact Htk|].
      destruct Hexp as [-> | ->]; [now apply Hel | destruct Hin].
    + intros k Hk. split; [exact Htk|].
      destruct (Hdiff k Hk) as (t & Hin & ->). exists t.
      split; [now apply Hel|]. split; [reflexivity|].
      intros Hne. destruct Hexp as [-> | ->]; [exact Hin | contradiction].
Qed.

End ExportMain.

(** C8, as stated, fails: in a run that starts one second before midnight
    the date is computed twice and the two values differ; the pre-check
    finds [user_events] for the first key, 20240114, and the export pass
    stages [orders] under the second key, 20240115. *)
Lemma C8_counterexample :
  let w := midnight_world in
  let w' := fst (export_main toy_to_csv w) in
  snd (get_yesterday_date w) = Ok "2024-01-14"
  /\ ticks w' = 2%nat
  /\ In (PartitionsQuery "proj.ds" "user_events", None) (trace w')
  /\ snd (export_main toy_to_csv w) = Ok ["orders"]
  /\ gcs w' !! "processing_zone/orders_20240115.csv"
     = Some (toy_to_csv two_rows)
  /\ gcs w' !! "processing_zone/orders_20240114.csv" = None
  /\ gcs w' !! "processing_zone/user_events_20240114.csv" = None.
Proof. vm_compute. repeat split; auto 20. Qed.

(** ** The orchestrator *)

Section ListingNames.

#[local] Arguments String.append : simpl nomatch.

Lemma prefix_count_char (c : ascii) (p : string) : forall s,
  String.prefix p s = true -> (count_char c p <= count_char c s)%nat.
Proof.
  induction p as [|a p IH]; intros s Hp; [cbn; lia|].
  destruct s as [|b s]; [discriminate|].
  cbn [String.prefix] in Hp.
  destruct (ascii_dec a b) as [<- | Hne]; [|discriminate].
  cbn [count_char]. specialize (IH s Hp). lia.
Qed.

(** A name without slash holds no occurrence of the prefix to replace. *)
Lemma replace_no_slash (rest : string) :
  count_char "/" rest = 0%nat ->
  PyStr.replace "processing_zone/" EmptyString rest = rest.
Proof.
  unfold PyStr.replace.
  induction rest as [|c rest IH]; intros Hcount; [reflexivity|].
  cbn [PyStr.replace_go].
  destruct (String.prefix "processing_zone/" (String c rest)) eqn:Hp.
  - apply (prefix_count_char "/") in Hp. rewrite Hcount in Hp.
    vm_compute in Hp. lia.
  - cbn [count_char] in Hcount. rewrite IH; [reflexivity | lia].
Qed.

(** The listing gives the object [processing_zone/{rest}] the name [rest],
    so that the loader downloads that very object. *)
Lemma listed_name_roundtrip (rest : string) :
  count_char "/" rest = 0%nat ->
  "processing_zone/"
  +:+ PyStr.replace "processing_zone/" EmptyString ("processing_zone/" +:+ rest)
  = "processing_zone/" +:+ rest.
Proof.
  intros Hcount. f_equal.
  transitivity (PyStr.replace "processing_zone/" EmptyString rest);
    [destruct rest; reflexivity | now apply replace_no_slash].
Qed.

Lemma rev_string_acc (s : string) : forall acc,
  PyStr.rev_string s acc = PyStr.rev_string s EmptyString +:+ acc.
Proof.
  induction s as [|c s IH]; intros acc; cbn [PyStr.rev_string];
    [reflexivity|].
  rewrite (IH (String c acc)), (IH (String c EmptyString)).
  now rewrite append_assoc.
Qed.

Lemma rev_string_app (a b : string) :
  PyStr.rev_string (a +:+ b) EmptyString
  = PyStr.rev_string b EmptyString +:+ PyStr.rev_string a EmptyString.
Proof.
  induction a as [|c a IH]; cbn [String.append PyStr.rev_string].
  - now rewrite append_nil_r.
  - rewrite rev_string_acc, IH, (rev_string_acc a (String c EmptyString)).
    now rewrite append_assoc.
Qed.

Lemma prefix_app (p : string) : forall x y,
  String.prefix p x = true -> String.prefix p (x +:+ y) = true.
Proof.
  induction p as [|a p IH]; intros x y Hp.
  - destruct (x +:+ y); reflexivity.
  - destruct x as [|b x]; [discriminate|].
    cbn [String.append String.prefix] in *.
    destruct (ascii_dec a b); [now apply IH | discriminate].
Qed.

(** A suffix of a name is a suffix of the name under any prefix. *)
Lemma endswith_app (suffix a b : string) :
  PyStr.endswith suffix b = true -> PyStr.endswith suffix (a +:+ b) = true.
Proof.
  unfold PyStr.endswith. intros Hb. rewrite rev_string_app.
  now apply prefix_app.
Qed.

End ListingNames.

Section StagedNames.

(** A listing names the objects of the bucket, and nothing else. *)
Lemma object_names_In (g : gmap string string) (k : string) :
  In k (object_names g) <-> is_Some (g !! k).
Proof.
  unfold object_names.
  rewrite <- list_elem_of_In, merge_sort_Permutation, list_elem_of_In.
  rewrite in_map_iff. split.
  - intros ([k' d] & <- & Hin).
    apply list_elem_of_In, elem_of_map_to_list in Hin. cbn. eauto.
  - intros [d Hd]. exists (k, d). split; [reflexivity|].
    apply list_elem_of_In. now apply elem_of_map_to_list.
Qed.

(** An object under the processing zone whose name ends in [.csv] is in the
    listing of the loader, under its name without the prefix. *)
Lemma staged_files_in (g : gmap string string) (name : string) :
  is_Some (g !! name) ->
  PyStr.startswith "processing_zone/" name = true ->
  PyStr.endswith ".csv" name = true ->
  In (PyStr.replace "processing_zone/" EmptyString name) (staged_files g).
Proof.
  intros [data Hdata] Hstart Hend. unfold staged_files.
  apply in_map. apply filter_In. split.
  - apply filter_In. split; [|exact Hstart].
    apply object_names_In. eauto.
  - now rewrite Hend, Hstart.
Qed.

End StagedNames.

(** * Further properties of the scripts *)

(** ** The catalog functions of the export script *)

Lemma partitioned_ids_cons (t : TableMeta) (rest : list TableMeta) :
  partitioned_ids (t :: rest)
  = if is_partitioned t then table_id t :: partitioned_ids rest
    else partitioned_ids rest.
Proof. unfold partitioned_ids. cbn. now destruct (is_partitioned t). Qed.

(** The loop of [list_partitioned_tables], for every schedule of faults: a
    list it returns extends the list it was given by some of the
    partitioned tables, in order; it raises only what a call raised that
    was neither [NotFound] nor [Forbidden]. *)
Lemma list_partitioned_loop_result : forall tables acc (w : World),
  match snd (list_partitioned_loop tables acc w) with
  | Ok l => exists l', l = acc ++ l' /\ sublist l' (partitioned_ids tables)
  | Raise e => (e = ApiError \/ e = OtherError) /\ In (Some e) (faults w)
  end.
Proof.
  induction tables as [|t rest IH]; intros acc w.
  - cbn. exists []. split; [now rewrite app_nil_r | apply sublist_nil_l].
  - cbn [list_partitioned_loop].
    unfold bind, try_except, get_table_ref, external, ret, raise.
    rewrite partitioned_ids_cons. unfold is_partitioned.
    destruct (faults w) as [|[e|] fs] eqn:Hf; cbn.
    + destruct (is_Some_b (time_partitioning t) || is_Some_b (range_partitioning t)); cbn.
      * specialize (IH (acc ++ [table_id t])
                       (log (GetTable (table_id t), None) (set_faults [] w))).
        destruct (list_partitioned_loop rest _ _) as [w1 [l|e]]; cbn in *.
        -- destruct IH as (l' & -> & Hsub). exists (table_id t :: l').
           split; [now rewrite <- app_assoc | now constructor].
        -- destruct IH as [_ []].
      * specialize (IH acc
                       (log (GetTable (table_id t), None) (set_faults [] w))).
        destruct (list_partitioned_loop rest _ _) as [w1 [l|e]]; cbn in *.
        -- exact IH.
        -- destruct IH as [_ []].
    + assert (Hskip : forall w0 : World, faults w0 = fs ->
                match snd (list_partitioned_loop rest acc w0) with
                | Ok l =>
                    exists l', l = acc ++ l'
                      /\ sublist l' (if is_Some_b (time_partitioning t)
                                        || is_Some_b (range_partitioning t)
                                     then table_id t :: partitioned_ids rest
                                     else partitioned_ids rest)
                | Raise e0 =>
                    (e0 = ApiError \/ e0 = OtherError)
                    /\ (Some e = Some e0 \/ In (Some e0) fs)
                end).
      { intros w0 Hw0. specialize (IH acc w0).
        destruct (list_partitioned_loop rest acc w0) as [w1 [l|e0]]; cbn in *.
        - destruct IH as (l' & -> & Hsub). exists l'. split; [reflexivity|].
          destruct (is_Some_b (time_partitioning t) || is_Some_b (range_partitioning t));
            [now constructor | exact Hsub].
        - destruct IH as [Hcls Hin]. split; [exact Hcls|]. right.
          now rewrite <- Hw0. }
      destruct e; cbn; try (apply Hskip; reflexivity); split; auto.
    + destruct (is_Some_b (time_partitioning t) || is_Some_b (range_partitioning t)); cbn.
      * specialize (IH (acc ++ [table_id t])
                       (log (GetTable (table_id t), None) (set_faults fs w))).
        destruct (list_partitioned_loop rest _ _) as [w1 [l|e]]; cbn in *.
        -- destruct IH as (l' & -> & Hsub). exists (table_id t :: l').
           split; [now rewrite <- app_assoc | now constructor].
        -- destruct IH as [Hcls Hin]. split; [exact Hcls | now right].
      * specialize (IH acc
                       (log (GetTable (table_id t), None) (set_faults fs w))).
        destruct (list_partitioned_loop rest _ _) as [w1 [l|e]]; cbn in *.
        -- exact IH.
        -- destruct IH as [Hcls Hin]. split; [exact Hcls | now right].
Qed.

(** X1. Whatever the calls of the catalog do, [list_partitioned_tables]
    changes nothing but the record of calls; a list it returns holds only
    partitioned tables of the dataset, each at most once per listing entry
    and in the order of the listing; and it raises only an exception, raised
    by one of its calls, that is no [GoogleAPIError]. *)
Theorem X1_partitioned_tables_sublist (dataset : string) (w : World) :
  exists w' r,
    list_partitioned_tables dataset w = (w', r)
    /\ same_but_log w w'
    /\ match r with
       | Ok l => sublist l (partitioned_ids (bq_tables w))
       | Raise e => e = OtherError /\ In (Some OtherError) (faults w)
       end.
Proof.
  pose proof (list_partitioned_tables_frame dataset w) as Hframe.
  destruct (list_partitioned_tables dataset w) as [w' r] eqn:Hrun.
  exists w', r. split; [reflexivity|]. split; [exact Hframe|].
  revert Hrun.
  unfold list_partitioned_tables, try_except, bind, list_tables, external,
    ret, raise.
  destruct (faults w) as [|[e|] fs] eqn:Hf; cbn.
  - pose proof (list_partitioned_loop_result (bq_tables w) []
                  (log (ListTables dataset, None) (set_faults [] w))) as H.
    destruct (list_partitioned_loop _ _ _) as [w1 [l|e]]; cbn in *.
    + intros [= <- <-]. destruct H as (l' & -> & Hsub). exact Hsub.
    + destruct H as [_ []].
  - destruct e; cbn; intros [= <- <-]; try apply sublist_nil_l.
    split; [reflexivity | now left].
  - pose proof (list_partitioned_loop_result (bq_tables w) []
                  (log (ListTables dataset, None) (set_faults fs w))) as H.
    destruct (list_partitioned_loop _ _ _) as [w1 [l|e]]; cbn in *.
    + intros [= <- <-]. destruct H as (l' & -> & Hsub). exact Hsub.
    + destruct H as [[-> | ->] Hin]; cbn; intros [= <- <-].
      * apply sublist_nil_l.
      * split; [reflexivity | now right].
Qed.

Lemma list_partitioned_loop_calm : forall tables acc (w : World),
  undisturbed (length tables) (faults w) = true ->
  exists w',
    list_partitioned_loop tables acc w
    = (w', Ok (acc ++ partitioned_ids tables))
    /\ faults w' = drop (length tables) (faults w).
Proof.
  induction tables as [|t rest IH]; intros acc w Hcalm.
  - exists w. cbn. rewrite app_nil_r. split; reflexivity.
  - cbn [list_partitioned_loop].
    unfold bind, try_except, get_table_ref, external, ret, raise.
    rewrite partitioned_ids_cons. unfold is_partitioned.
    unfold undisturbed in Hcalm. cbn [length take] in Hcalm.
    destruct (faults w) as [|[e|] fs] eqn:Hf; cbn in Hcalm |- *;
      [| discriminate |].
    + destruct (is_Some_b (time_partitioning t) || is_Some_b (range_partitioning t)); cbn.
      * destruct (IH (acc ++ [table_id t])
                     (log (GetTable (table_id t), None) (set_faults [] w)))
          as (w' & -> & Hf'); [now destruct (length rest)|].
        exists w'. rewrite <- app_assoc. split; [reflexivity|].
        rewrite Hf'. cbn. now rewrite drop_nil.
      * destruct (IH acc
                     (log (GetTable (table_id t), None) (set_faults [] w)))
          as (w' & -> & Hf'); [now destruct (length rest)|].
        exists w'. split; [reflexivity|].
        rewrite Hf'. cbn. now rewrite drop_nil.
    + destruct (is_Some_b (time_partitioning t) || is_Some_b (range_partitioning t)); cbn.
      * destruct (IH (acc ++ [table_id t])
                     (log (GetTable (table_id t), None) (set_faults fs w)))
          as (w' & -> & Hf'); [exact Hcalm|].
        exists w'. rewrite <- app_assoc. split; [reflexivity | exact Hf'].
      * destruct (IH acc
                     (log (GetTable (table_id t), None) (set_faults fs w)))
          as (w' & -> & Hf'); [exact Hcalm|].
        exists w'. split; [reflexivity | exact Hf'].
Qed.

(** X2. When none of its calls is disturbed, [list_partitioned_tables]
    returns the ids of exactly the tables of the dataset that have time or
    range partitioning, in the order of the listing. *)
Theorem X2_partitioned_tables_calm (dataset : string) (w : World) :
  calm (S (length (bq_tables w))) w ->
  exists w',
    list_partitioned_tables dataset w
    = (w', Ok (partitioned_ids (bq_tables w))).
Proof.
  unfold calm, undisturbed. intros Hcalm.
  unfold list_partitioned_tables, try_except, bind, list_tables, external,
    ret, raise.
  destruct (faults w) as [|[e|] fs] eqn:Hf; cbn in Hcalm |- *;
    [| discriminate |].
  - destruct (list_partitioned_loop_calm (bq_tables w) []
                (log (ListTables dataset, None) (set_faults [] w)))
      as (w' & -> & _); [cbn; now destruct (length (bq_tables w))|].
    exists w'. reflexivity.
  - destruct (list_partitioned_loop_calm (bq_tables w) []
                (log (ListTables dataset, None) (set_faults fs w)))
      as (w' & -> & _); [exact Hcalm|].
    exists w'. reflexivity.
Qed.

Lemma X2_partitioned_tables_calm_witness :
  exists w',
    list_partitioned_tables "ds" (world_with [] ∅)
    = (w', Ok ["user_events"; "orders"]).
Proof.
  apply (X2_partitioned_tables_calm "ds" (world_with [] ∅)).
  vm_compute. reflexivity.
Defined.

Lemma list_partitioned_loop_one_fault (e : exn) :
  forall tables acc k (w : World),
  (k < length tables)%nat ->
  faults w = replicate k None ++ [Some e] ->
  exists w',
    list_partitioned_loop tables acc w
    = (w', match e with
           | NotFound | Forbidden =>
               Ok (acc ++ partitioned_ids (delete k tables))
           | _ => Raise e
           end).
Proof.
  induction tables as [|t rest IH]; intros acc k w Hk Hf;
    [cbn in Hk; lia|].
  cbn [list_partitioned_loop].
  unfold bind, try_except, get_table_ref, external, ret, raise.
  destruct k as [|k]; cbn [replicate app] in Hf; rewrite Hf.
  - cbn.
    assert (Hrest : forall w0 : World, faults w0 = [] ->
              exists w', list_partitioned_loop rest acc w0
                         = (w', Ok (acc ++ partitioned_ids rest))).
    { intros w0 Hw0.
      destruct (list_partitioned_loop_calm rest acc w0) as (w' & Hrun & _);
        [rewrite Hw0; now destruct (length rest) | eauto]. }
    destruct e; cbn; try (apply Hrest; reflexivity); eauto.
  - cbn [length] in Hk.
    change (delete (S k) (t :: rest)) with (t :: delete k rest).
    rewrite partitioned_ids_cons. unfold is_partitioned. cbn.
    destruct (is_Some_b (time_partitioning t) || is_Some_b (range_partitioning t)); cbn.
    + destruct (IH (acc ++ [table_id t]) k
                   (log (GetTable (table_id t), None)
                        (set_faults (replicate k None ++ [Some e]) w)))
        as (w' & ->); [lia | reflexivity |].
      exists w'. destruct e; try reflexivity; now rewrite <- app_assoc.
    + destruct (IH acc k
                   (log (GetTable (table_id t), None)
                        (set_faults (replicate k None ++ [Some e]) w)))
        as (w' & ->); [lia | reflexivity |].
      exists w'. reflexivity.
Qed.

(** X3. When the one call that raises is the [get_table] of the [k]-th
    table of the listing: for [NotFound] or [Forbidden] that table alone is
    left out; for any other [GoogleAPIError] the whole result is the empty
    list, the tables found before included; any other exception leaves
    [list_partitioned_tables] as it is. *)
Theorem X3_partitioned_tables_one_fault (dataset : string) (e : exn) (k : nat)
    (w : World) :
  (k < length (bq_tables w))%nat ->
  faults w = replicate (S k) None ++ [Some e] ->
  exists w',
    list_partitioned_tables dataset w
    = (w', match e with
           | NotFound | Forbidden =>
               Ok (partitioned_ids (delete k (bq_tables w)))
           | ApiError => Ok []
           | OtherError => Raise OtherError
           end).
Proof.
  intros Hk Hf.
  unfold list_partitioned_tables, try_except, bind, list_tables, external,
    ret, raise.
  cbn [replicate app] in Hf. rewrite Hf. cbn.
  destruct (list_partitioned_loop_one_fault e (bq_tables w) [] k
              (log (ListTables dataset, None)
                   (set_faults (replicate k None ++ [Some e]) w)))
    as (w' & ->); [exact Hk | reflexivity |].
  exists w'. destruct e; reflexivity.
Qed.

Lemma X3_partitioned_tables_one_fault_witness :
  (exists w',
      list_partitioned_tables "ds"
        (world_with [None; Some NotFound] ∅)
      = (w', Ok ["orders"]))
  /\ (exists w',
         list_partitioned_tables "ds"
           (world_with [None; None; Some ApiError] ∅)
         = (w', Ok []))
  /\ (exists w',
         list_partitioned_tables "ds"
           (world_with [None; None; None; Some OtherError] ∅)
         = (w', Raise OtherError)).
Proof.
  split; [|split].
  - apply (X3_partitioned_tables_one_fault "ds" NotFound 0
             (world_with [None; Some NotFound] ∅)); [vm_compute; lia |].
    reflexivity.
  - apply (X3_partitioned_tables_one_fault "ds" ApiError 1
             (world_with [None; None; Some ApiError] ∅)); [vm_compute; lia |].
    reflexivity.
  - apply (X3_partitioned_tables_one_fault "ds" OtherError 2
             (world_with [None; None; None; Some OtherError] ∅));
      [vm_compute; lia |].
    reflexivity.
Defined.

Section FieldlessTable.
Variable to_csv : DataFrame -> string.

(** X4. A table whose partitioning names no field is never exported. When
    the catalog holds yesterday's partition of the table and no call is
    disturbed, the turn of the export loop asks for the partitioning field,
    which is the field of the time partitioning if the table has one and
    that of the range partitioning otherwise; for a time partitioning
    without field (partitioning by ingestion time) that is [None], and the
    table joins the failed ones with nothing written. *)
Theorem X4_table_without_field_fails (bucket full dataset yesterday
    partition_id table : string) (t : TableMeta) exported failed
    (w : World) :
  calm 3 w ->
  catalog_max w full table = Some (date_key yesterday) ->
  truthy (date_key yesterday) = true ->
  List.find (fun t => String.eqb (table_id t) table) (bq_tables w) = Some t ->
  truthy_opt (match time_partitioning t with
              | Some field => field
              | None => range_partitioning t
              end) = false ->
  exists w',
    export_one to_csv bucket full dataset yesterday partition_id table
      (exported, failed) w
    = (w', Ok (exported, failed ++ [table]))
    /\ same_but_log w w'
    /\ map fst (events_since w w')
       = [PartitionsQuery full table; QueryResult;
          GetTable (dataset +:+ "." +:+ table)].
Proof.
  unfold export_one, check_for_yesterdays_partition, get_partitioning_field,
    get_table, bq_query, query_job_result, try_except, bind, external, ret,
    calm, undisturbed, catalog_max, date_key, events_since.
  destruct_world w. simpl.
  intros Hcalm Hmax Hkey Hfind Hfield.
  destruct (bqp full table) as [|x rs] eqn:Hbq; [discriminate|].
  simpl in Hmax. subst x.
  destruct fs as [|[e1|] [|[e2|] [|[e3|] fs]]]; simpl in *;
    try discriminate;
    rewrite ?Hbq; simpl;
    rewrite ?String.eqb_refl; simpl; rewrite ?Hkey; simpl;
    rewrite ?Hfind; simpl;
    destruct (time_partitioning t) as [[f|]|];
    try destruct (range_partitioning t) as [f'|];
    simpl in *; rewrite ?Hfield; simpl;
    eexists; (split; [reflexivity|]);
    (split; [solve_same_but_log|]);
    cbn [trace log set_faults]; rewrite <- !app_assoc, drop_app_length;
    reflexivity.
Qed.

End FieldlessTable.

Lemma X4_table_without_field_fails_witness :
  let w := ingestion_time_world in
  exists w',
    export_one toy_to_csv "bucket" "proj.ds" "ds" "2024-01-14" "20240114"
      "page_views" ([], []) w
    = (w', Ok ([], ["page_views"]))
    /\ same_but_log w w'.
Proof.
  intros w.
  destruct (X4_table_without_field_fails toy_to_csv "bucket" "proj.ds" "ds"
              "2024-01-14" "20240114" "page_views"
              (mkTableMeta "page_views" (Some None) None) [] [] w)
    as (w' & Hrun & Hsame & _); try reflexivity.
  exists w'. split; [exact Hrun | exact Hsame].
Defined.

Lemma get_partitioning_field_cases (table dataset : string) (w : World) :
  exists w' r o,
    get_partitioning_field table dataset w = (w', r)
    /\ same_but_log w w'
    /\ events_since w w' = [(GetTable (dataset +:+ "." +:+ table), o)]
    /\ match o with
       | Some _ => r = Raise OtherError
       | None =>
           exists t,
             List.find (fun t => String.eqb (table_id t) table) (bq_tables w)
             = Some t
             /\ r = Ok (match time_partitioning t with
                        | Some field => field
                        | None => range_partitioning t
                        end)
       end.
Proof.
  unfold get_partitioning_field, get_table, try_except, bind, external, ret,
    raise, events_since.
  destruct_world w. simpl.
  destruct fs as [|[e|] fs]; simpl;
    try (destruct (List.find _ tbs) as [t|] eqn:Hfind; simpl);
    try (destruct (time_partitioning t) as [field|] eqn:Htp; simpl);
    try (destruct (range_partitioning t) as [field'|] eqn:Hrp; simpl);
    do 3 eexists; (split; [reflexivity|]);
    (split; [solve_same_but_log|]);
    cbn [trace log set_faults]; rewrite drop_app_length;
    (split; [reflexivity|]); cbn beta iota;
    try reflexivity;
    (eexists; split; [reflexivity|]); rewrite ?Htp, ?Hrp; reflexivity.
Qed.

(** X30. [get_partitioning_field] makes one call, the [get_table] of the
    table. When that call goes through, the answer is the field of the time
    partitioning if the table has one and that of the range partitioning
    otherwise. When it raises, whatever it raises, the function does not
    return [None] but raises in its turn: its handlers name classes that
    the module [bigquery] does not have. The export pass then stops and
    returns the empty list, also when it has staged a file before, as in
    the pass over two tables whose second look-up fails: the file of the
    first table is in the processing zone and no table is reported. *)
Theorem X30_field_lookup_raises :
  (forall (table dataset : string) (w : World),
      exists w' r o,
        get_partitioning_field table dataset w = (w', r)
        /\ same_but_log w w'
        /\ events_since w w' = [(GetTable (dataset +:+ "." +:+ table), o)]
        /\ match o with
           | Some _ => r = Raise OtherError
           | None =>
               exists t,
                 List.find (fun t => String.eqb (table_id t) table)
                           (bq_tables w)
                 = Some t
                 /\ r = Ok (match time_partitioning t with
                            | Some field => field
                            | None => range_partitioning t
                            end)
           end)
  /\ (let run := export_all_new_partitions_to_gcs toy_to_csv
                   (two_tables_world field_lookup_fault) in
      snd run = Ok []
      /\ last (trace (fst run)) = Some (GetTable "ds.orders", Some NotFound)
      /\ gcs (fst run) !! "processing_zone/user_events_20240114.csv"
         = Some (toy_to_csv two_rows))
  /\ snd (export_all_new_partitions_to_gcs toy_to_csv (two_tables_world []))
     = Ok ["user_events"; "orders"].
Proof.
  split; [exact get_partitioning_field_cases|].
  split; [|vm_compute; reflexivity].
  vm_compute. repeat split.
Qed.

(** ** The loader's view of the bucket *)

(** X5. [delete_file_from_gcs] never raises and leaves the database alone.
    It returns [True] exactly when its call is not disturbed and the object
    exists, and the object is then gone; in every other case, a missing
    object included, it returns [False] and the bucket is as before. *)
Theorem X5_delete_file (bucket name : string) (w : World) :
  exists w' b,
    delete_file_from_gcs bucket name w = (w', Ok b)
    /\ pg w' = pg w
    /\ (b = true <-> calm 1 w /\ is_Some (gcs w !! name))
    /\ gcs w' = (if b then delete name (gcs w) else gcs w).
Proof.
  unfold delete_file_from_gcs, blob_delete, try_except, bind, external, ret,
    calm, undisturbed.
  destruct_world w. simpl. destruct fs as [|[e|] fs]; simpl;
    try (destruct (g !! name) as [data|] eqn:Hname; simpl);
    do 2 eexists; (split; [reflexivity|]); simpl;
    (split; [reflexivity|]); (split; [|reflexivity]);
    split; try discriminate; eauto;
    try (intros [Hc Hs]; try discriminate Hc; destruct Hs; discriminate).
Qed.

Section Listing.

#[local] Arguments String.append : simpl nomatch.

Lemma prefix_split (p : string) : forall s,
  String.prefix p s = true -> exists r, s = p +:+ r.
Proof.
  induction p as [|a p IH]; intros s Hp.
  - exists s. reflexivity.
  - destruct s as [|b s]; [discriminate|].
    cbn [String.prefix] in Hp.
    destruct (ascii_dec a b) as [<- | Hne]; [|discriminate].
    destruct (IH s Hp) as [r ->]. exists r. reflexivity.
Qed.

Lemma prefix_refl_app (p r : string) : String.prefix p (p +:+ r) = true.
Proof.
  induction p as [|a p IH]; cbn [String.append String.prefix].
  - destruct r; reflexivity.
  - destruct (ascii_dec a a); [exact IH | contradiction].
Qed.

Lemma length_append (s t : string) :
  String.length (s +:+ t) = (String.length s + String.length t)%nat.
Proof. induction s as [|a s IH]; cbn; [reflexivity | now rewrite IH]. Qed.

Lemma map_fst_fmap {A B} (l : list (A * B)) : map fst l = l.*1.
Proof. induction l as [|x l IH]; cbn; [reflexivity | now rewrite IH]. Qed.

(** A listing names no object twice. *)
Lemma NoDup_object_names (g : gmap string string) : NoDup (object_names g).
Proof.
  unfold object_names. rewrite merge_sort_Permutation, map_fst_fmap.
  apply NoDup_fst_map_to_list.
Qed.

Lemma NoDup_map_on {A B} (f : A -> B) (l : list A) :
  (forall x y, In x l -> In y l -> f x = f y -> x = y) ->
  NoDup l -> NoDup (map f l).
Proof.
  intros Hinj Hnd. induction Hnd as [|a l Hnotin Hnd IH]; cbn;
    constructor.
  - rewrite list_elem_of_In. intros (y & Hy & Hin)%in_map_iff.
    apply Hnotin. rewrite list_elem_of_In.
    rewrite (Hinj a y); [exact Hin | now left | now right | now symmetry].
  - apply IH. intros x y Hx Hy. apply Hinj; now right.
Qed.

Lemma NoDup_map_same {A B} (f : A -> B) (l : list A) (x y : A) :
  NoDup (map f l) -> In x l -> In y l -> f x = f y -> x = y.
Proof.
  induction l as [|a l IH]; cbn; intros Hnd Hx Hy Heq; [destruct Hx|].
  apply NoDup_cons in Hnd as [Hnotin Hnd].
  rewrite list_elem_of_In in Hnotin.
  destruct Hx as [<- | Hx], Hy as [<- | Hy]; auto.
  - exfalso. apply Hnotin. rewrite Heq. now apply in_map.
  - exfalso. apply Hnotin. rewrite <- Heq. now apply in_map.
Qed.

(** The names of the objects the loader keeps of a listing. *)
Lemma staged_files_spec (g : gmap string string) (n : string) :
  In n (staged_files g)
  <-> exists k,
        is_Some (g !! k)
        /\ PyStr.startswith "processing_zone/" k = true
        /\ PyStr.endswith ".csv" k = true
        /\ n = PyStr.replace "processing_zone/" EmptyString k.
Proof.
  unfold staged_files. rewrite in_map_iff. split.
  - intros (k & <- & Hk). apply filter_In in Hk as [Hk Hcond].
    apply filter_In in Hk as [Hk Hstart].
    apply andb_true_iff in Hcond as [Hend _].
    exists k. repeat split; auto.
    now apply object_names_In.
  - intros (k & Hk & Hstart & Hend & ->).
    exists k. split; [reflexivity|].
    apply filter_In. split; [|now rewrite Hend, Hstart].
    apply filter_In. split; [|exact Hstart].
    now apply object_names_In.
Qed.

(** X6. [get_gcs_files_in_processing_zone] never raises and changes nothing
    but the record of calls. A listing that goes through gives, for every
    object under [processing_zone/] whose name ends in [.csv], that name with
    every occurrence of the prefix removed, and nothing else: objects with
    another ending are never handed to the loader. A listing that raises
    gives the empty list, as an empty zone does. *)
Theorem X6_staged_listing (bucket : string) (w : World) :
  exists w' files,
    get_gcs_files_in_processing_zone bucket w = (w', Ok files)
    /\ same_but_log w w'
    /\ (calm 1 w -> files = staged_files (gcs w))
    /\ (~ calm 1 w -> files = [])
    /\ forall n,
         In n files ->
         exists k,
           is_Some (gcs w !! k)
           /\ PyStr.startswith "processing_zone/" k = true
           /\ PyStr.endswith ".csv" k = true
           /\ n = PyStr.replace "processing_zone/" EmptyString k.
Proof.
  assert (Hrun : exists w' files,
             get_gcs_files_in_processing_zone bucket w = (w', Ok files)
             /\ same_but_log w w'
             /\ (calm 1 w -> files = staged_files (gcs w))
             /\ (~ calm 1 w -> files = [])).
  { unfold get_gcs_files_in_processing_zone, list_blobs, try_except, bind,
      external, ret, staged_files, calm, undisturbed.
    destruct_world w. simpl.
    destruct fs as [|[e|] fs]; simpl; do 2 eexists;
      (split; [reflexivity|]); (split; [solve_same_but_log|]);
      (split; [intros Hc; try discriminate Hc; reflexivity
              | intros Hc; try reflexivity; now destruct Hc]). }
  destruct Hrun as (w' & files & Hrun & Hsame & Hcalm & Hfault).
  exists w', files. do 4 (split; [assumption|]).
  intros n Hin.
  destruct (undisturbed 1 (faults w)) eqn:Hc.
  - rewrite (Hcalm Hc) in Hin. now apply staged_files_spec.
  - rewrite Hfault in Hin; [destruct Hin|]. unfold calm. now rewrite Hc.
Qed.

Lemma flat_zone_listing (g : gmap string string) :
  (forall rest,
      is_Some (g !! ("processing_zone/" +:+ rest)) ->
      count_char "/" rest = 0%nat) ->
  NoDup (staged_files g)
  /\ forall n,
       In n (staged_files g) ->
       is_Some (g !! ("processing_zone/" +:+ n))
       /\ PyStr.endswith ".csv" ("processing_zone/" +:+ n) = true.
Proof.
  intros Hflat.
  assert (Hname : forall k,
             is_Some (g !! k) ->
             PyStr.startswith "processing_zone/" k = true ->
             k = "processing_zone/"
                 +:+ PyStr.replace "processing_zone/" EmptyString k).
  { intros k Hk Hstart. destruct (prefix_split _ _ Hstart) as [rest ->].
    symmetry. apply listed_name_roundtrip. now apply Hflat. }
  split.
  - unfold staged_files. apply NoDup_map_on.
    + intros x y Hx Hy Heq.
      apply filter_In in Hx as [Hx _]. apply filter_In in Hx as [Hx Hsx].
      apply filter_In in Hy as [Hy _]. apply filter_In in Hy as [Hy Hsy].
      apply object_names_In in Hx, Hy.
      rewrite (Hname x) by assumption. rewrite (Hname y) by assumption.
      now rewrite Heq.
    + apply NoDup_ListNoDup, List.NoDup_filter, List.NoDup_filter.
      apply NoDup_ListNoDup, NoDup_object_names.
  - intros n (k & Hk & Hstart & Hend & ->)%staged_files_spec.
    rewrite <- (Hname k Hk Hstart). auto.
Qed.

(** X7. In a processing zone without sub-folders (no object name holds a
    slash after the prefix, as for the files the export script writes for
    tables without slash in their id), no name is listed twice, and every
    listed name [n] stands for the object [processing_zone/n], which is
    the object the loader then downloads and finalizes. *)
Theorem X7_flat_zone_listing (g : gmap string string) :
  (forall rest,
      is_Some (g !! ("processing_zone/" +:+ rest)) ->
      count_char "/" rest = 0%nat) ->
  NoDup (staged_files g)
  /\ forall n,
       In n (staged_files g) ->
       is_Some (g !! ("processing_zone/" +:+ n))
       /\ PyStr.endswith ".csv" ("processing_zone/" +:+ n) = true.
Proof. exact (flat_zone_listing g). Qed.

Lemma X7_flat_zone_listing_witness :
  NoDup (staged_files one_staged_file)
  /\ forall n,
       In n (staged_files one_staged_file) ->
       is_Some (one_staged_file !! ("processing_zone/" +:+ n))
       /\ PyStr.endswith ".csv" ("processing_zone/" +:+ n) = true.
Proof.
  apply (X7_flat_zone_listing one_staged_file).
  intros rest [data Hdata]. unfold one_staged_file in Hdata.
  apply lookup_singleton_Some in Hdata as [Heq _].
  apply (inj (String.app "processing_zone/")) in Heq. subst rest.
  reflexivity.
Defined.

(** X8. Two objects can stand behind one listed name: when the zone holds
    both [processing_zone/r] and [processing_zone/processing_zone/r], the
    removal of every occurrence of the prefix gives both the name [r], which
    the loader then lists twice. *)
Theorem X8_nested_prefix_listed_twice (g : gmap string string) (r : string) :
  is_Some (g !! ("processing_zone/" +:+ r)) ->
  is_Some (g !! ("processing_zone/" +:+ "processing_zone/" +:+ r)) ->
  PyStr.endswith ".csv" r = true ->
  ~ NoDup (staged_files g).
Proof.
  intros [d1 H1] [d2 H2] Hend Hnd. unfold staged_files in Hnd.
  assert (Hin : forall k data,
             g !! ("processing_zone/" +:+ k) = Some data ->
             PyStr.endswith ".csv" k = true ->
             In ("processing_zone/" +:+ k)
                (List.filter
                   (fun name => PyStr.endswith ".csv" name
                                && PyStr.startswith "processing_zone/" name)
                   (List.filter (PyStr.startswith "processing_zone/")
                                (object_names g)))).
  { intros k data Hk Hek.
    assert (Hs : PyStr.startswith "processing_zone/" ("processing_zone/" +:+ k)
                 = true) by apply prefix_refl_app.
    apply filter_In. split.
    - apply filter_In. split; [|exact Hs].
      apply object_names_In. eauto.
    - rewrite Hs, (endswith_app ".csv" "processing_zone/" k Hek). reflexivity. }
  pose proof (NoDup_map_same _ _ _ _ Hnd
                (Hin r d1 H1 Hend)
                (Hin ("processing_zone/" +:+ r) d2 H2
                     (endswith_app ".csv" "processing_zone/" r Hend))) as Heq.
  assert (Hsame : "processing_zone/" +:+ r
                  = "processing_zone/" +:+ "processing_zone/" +:+ r)
    by (apply Heq; destruct r; reflexivity).
  apply (inj (String.app "processing_zone/")) in Hsame.
  apply (f_equal String.length) in Hsame.
  rewrite length_append in Hsame. cbn in Hsame. lia.
Qed.

End Listing.

Lemma X8_nested_prefix_listed_twice_witness :
  ~ NoDup (staged_files
             (<["processing_zone/a_b_c.csv" := "x"]>
                {["processing_zone/processing_zone/a_b_c.csv" := "y"]})).
Proof.
  apply (X8_nested_prefix_listed_twice _ "a_b_c.csv").
  - eexists. vm_compute. reflexivity.
  - eexists. vm_compute. reflexivity.
  - reflexivity.
Defined.

(** ** Undisturbed runs of the loader *)

Section Calm.

Lemma download_calm name data (w : World) :
  calm 1 w -> gcs w !! name = Some data ->
  exists w',
    download name w = (w', Ok data)
    /\ gcs w' = gcs w /\ pg w' = pg w
    /\ faults w' = drop 1 (faults w)
    /\ trace w' = trace w ++ [(Download name, None)].
Proof.
  unfold download, external, calm, undisturbed. destruct_world w. simpl.
  intros Hc ->. destruct fs as [|[e|] fs]; simpl in *; try discriminate;
    eexists; repeat split.
Qed.

(** [to_sql] on the connection of the loader, left to itself: it raises,
    and no table is written. *)
Lemma to_sql_raw_calm name chunksize mode df (w : World) :
  calm 1 w ->
  exists w',
    to_sql name RawConnection chunksize mode df w = (w', Raise OtherError)
    /\ gcs w' = gcs w /\ pg w' = pg w
    /\ faults w' = drop 1 (faults w)
    /\ trace w' = trace w ++ [(ToSql name mode (columns df) chunksize,
                               Some OtherError)].
Proof.
  unfold to_sql, external, calm, undisturbed. destruct_world w. simpl.
  intros Hc. destruct fs as [|[e|] fs]; simpl in *; try discriminate;
    eexists; repeat split.
Qed.

Section Turn.
Variable read_csv : string -> option DataFrame.
Variable str_lower : string -> string.

Lemma load_partition_calm bucket f table data (w : World) :
  calm 2 w -> gcs w !! ("processing_zone/" +:+ f) = Some data ->
  exists w',
    load_partition_to_postgresql read_csv str_lower bucket f RawConnection
      table w
    = (w', Ok false)
    /\ gcs w' = gcs w /\ pg w' = pg w
    /\ trace w' = trace w ++ load_events read_csv str_lower f table data
    /\ faults w' = drop (length (load_events read_csv str_lower f table data)) (faults w).
Proof.
  intros Hc Hdata.
  unfold load_partition_to_postgresql, try_except, bind, ret, pd_read_csv,
    raise, load_events.
  cbv zeta. fold (write_policy table).
  destruct (download_calm _ data w (calm_le 1 2 w ltac:(lia) Hc) Hdata)
    as (w1 & -> & Hg1 & Hpg1 & Hf1 & Htr1).
  destruct (read_csv data) as [df|]; unfold ret, raise.
  2:{ exists w1. cbn. repeat split; auto. }
  destruct (to_sql_raw_calm table CHUNKSIZE (write_policy table)
              (set_columns (map str_lower (columns df)) df) w1
              (calm_drop 1 1 w w1 Hc Hf1))
    as (w2 & -> & Hg2 & Hpg2 & Hf2 & Htr2).
  cbn [columns rows set_columns] in *.
  exists w2. split; [reflexivity|]. split; [congruence|].
  split; [congruence|].
  split; [rewrite Htr2, Htr1, <- app_assoc; reflexivity|].
  cbn [length]. rewrite Hf2, Hf1. apply tail_drop.
Qed.

(** One undisturbed turn of the loop on an object that is there. *)
Lemma load_one_calm bucket f successful failed data (w : World) :
  let src := "processing_zone/" +:+ f in
  let dst := "unprocess_zone/" +:+ f in
  let table := extract_table_name_from_filename f in
  let evs := load_events read_csv str_lower f table data
             ++ [(Copy src dst, None); (Delete src, None)] in
  calm 4 w -> gcs w !! src = Some data ->
  exists w',
    load_one read_csv str_lower RawConnection bucket f (successful, failed) w
    = (w', Ok (successful, failed ++ [f]))
    /\ pg w' = pg w
    /\ gcs w' = delete src (<[dst := data]> (gcs w))
    /\ trace w' = trace w ++ evs
    /\ (length evs <= 4)%nat
    /\ faults w' = drop (length evs) (faults w).
Proof.
  intros src dst table evs Hc Hdata. unfold load_one, bind, ret.
  fold src dst table.
  destruct (load_partition_calm bucket f table data w
              (calm_le 2 4 w ltac:(lia) Hc) Hdata)
    as (w1 & -> & Hg1 & Hpg1 & Htr1 & Hf1).
  assert (Hk : (length (load_events read_csv str_lower f table data) <= 2)%nat).
  { unfold load_events. destruct (read_csv data); cbn; lia. }
  assert (Hc1 : calm 2 w1).
  { apply (calm_drop (length (load_events read_csv str_lower f table data)) 2 w w1);
      [|exact Hf1].
    apply (calm_le _ 4); [lia | exact Hc]. }
  destruct (move_file_calm bucket src dst data w1 Hc1)
    as (w2 & -> & Hg2 & Hpg2 & Hf2 & Htr2).
  { now rewrite Hg1. }
  { apply processing_neq_unprocess. }
  exists w2. split; [reflexivity|]. split; [congruence|].
  split; [congruence|].
  split; [unfold evs; rewrite Htr2, Htr1, <- app_assoc; reflexivity|].
  unfold evs. rewrite length_app. cbn [length].
  split; [lia|].
  rewrite Hf2, Hf1, drop_drop. reflexivity.
Qed.

Lemma load_one_calm_frame bucket f successful failed (w : World) :
  let src := "processing_zone/" +:+ f in
  let dst := "unprocess_zone/" +:+ f in
  fault_free w -> is_Some (gcs w !! src) ->
  exists w' s1 f1,
    load_one read_csv str_lower RawConnection bucket f (successful, failed) w
    = (w', Ok (successful ++ s1, failed ++ f1))
    /\ fault_free w'
    /\ ((s1 = [f] /\ f1 = [] /\ gcs w' !! dst = gcs w !! dst)
        \/ (s1 = [] /\ f1 = [f] /\ gcs w' !! dst = gcs w !! src))
    /\ gcs w' !! src = None
    /\ (forall k, k <> src -> k <> dst -> gcs w' !! k = gcs w !! k).
Proof.
  intros src dst Hff [data Hdata].
  assert (Hne : src <> dst) by apply processing_neq_unprocess.
  destruct (load_one_calm bucket f successful failed data w (Hff 4%nat) Hdata)
    as (w' & Hrun & _ & Hg & _ & _ & Hf).
  fold src dst in Hg.
  pose proof (fault_free_drop _ w w' Hff Hf) as Hff'.
  exists w', [], [f]. rewrite Hg, app_nil_r.
  split; [exact Hrun|]. split; [exact Hff'|].
  split; [right; rewrite lookup_delete_ne, lookup_insert_eq by congruence;
          auto|].
  split; [apply lookup_delete_eq|].
  intros k' H1 H2.
  now rewrite lookup_delete_ne, lookup_insert_ne by congruence.
Qed.

Lemma load_files_calm bucket : forall files successful failed (w : World),
  fault_free w -> NoDup files ->
  (forall f, In f files -> is_Some (gcs w !! ("processing_zone/" +:+ f))) ->
  exists w' s1 f1,
    load_files read_csv str_lower RawConnection bucket files (successful, failed) w
    = (w', Ok (successful ++ s1, failed ++ f1))
    /\ fault_free w'
    /\ s1 ++ f1 ≡ₚ files
    /\ (forall f, In f files -> gcs w' !! ("processing_zone/" +:+ f) = None)
    /\ (forall f, In f f1 ->
          gcs w' !! ("unprocess_zone/" +:+ f)
          = gcs w !! ("processing_zone/" +:+ f))
    /\ (forall f, In f s1 ->
          gcs w' !! ("unprocess_zone/" +:+ f)
          = gcs w !! ("unprocess_zone/" +:+ f))
    /\ (forall k,
          (forall f, In f files ->
                     k <> "processing_zone/" +:+ f
                     /\ k <> "unprocess_zone/" +:+ f) ->
          gcs w' !! k = gcs w !! k).
Proof.
  induction files as [|f0 rest IH]; intros successful failed w Hff Hnd Hin.
  - exists w, [], []. rewrite !app_nil_r. split; [reflexivity|].
    split; [exact Hff|]. split; [reflexivity|].
    split; [intros f []|]. split; [intros f []|]. split; [intros f []|].
    reflexivity.
  - apply NoDup_cons in Hnd as [Hnotin Hnd].
    rewrite list_elem_of_In in Hnotin.
    cbn [load_files]. unfold bind.
    destruct (load_one_calm_frame bucket f0 successful failed w Hff
                (Hin f0 (or_introl eq_refl)))
      as (w1 & s1 & f1 & -> & Hff1 & Hcase & Hsrc0 & Hframe1).
    assert (Hother : forall f, In f rest ->
               "processing_zone/" +:+ f <> "processing_zone/" +:+ f0
               /\ "processing_zone/" +:+ f <> "unprocess_zone/" +:+ f0
               /\ "unprocess_zone/" +:+ f <> "processing_zone/" +:+ f0
               /\ "unprocess_zone/" +:+ f <> "unprocess_zone/" +:+ f0).
    { intros f Hf.
      assert (f <> f0) by (intros ->; contradiction).
      split; [intros H'; apply processing_name_inj in H'; contradiction|].
      split; [apply processing_neq_unprocess|].
      split; [intros H'; symmetry in H';
              now apply processing_neq_unprocess in H'|].
      intros H'; apply unprocess_name_inj in H'; contradiction. }
    destruct (IH (successful ++ s1) (failed ++ f1) w1 Hff1 Hnd)
      as (w2 & s2 & f2 & -> & Hff2 & Hperm & Hnone & Hfailed & Hsucc
          & Hframe2).
    { intros f Hf. destruct (Hother f Hf) as (H1 & H2 & _).
      rewrite Hframe1 by assumption. apply Hin. now right. }
    assert (Hin2 : forall f, In f (s2 ++ f2) -> In f rest).
    { intros f Hf. apply list_elem_of_In. rewrite <- Hperm.
      now apply list_elem_of_In. }
    assert (Hkeep : forall k,
               (k = "processing_zone/" +:+ f0
                \/ k = "unprocess_zone/" +:+ f0) ->
               gcs w2 !! k = gcs w1 !! k).
    { intros k Hk. apply Hframe2. intros f Hf.
      destruct (Hother f Hf) as (H1 & H2 & H3 & H4).
      destruct Hk as [-> | ->]; split; congruence. }
    exists w2, (s1 ++ s2), (f1 ++ f2).
    split; [now rewrite !app_assoc|]. split; [exact Hff2|].
    split; [|split; [|split; [|split]]].
    + destruct Hcase as [(-> & -> & _) | (-> & -> & _)]; cbn.
      * now apply perm_skip.
      * symmetry. now apply Permutation_cons_app.
    + intros f [<- | Hf]; [|now apply Hnone].
      rewrite Hkeep by auto. exact Hsrc0.
    + intros f Hf. apply in_app_or in Hf as [Hf | Hf].
      * destruct Hcase as [(_ & -> & _) | (_ & -> & Hdst)]; [destruct Hf|].
        destruct Hf as [<- | []]. rewrite Hkeep by auto. exact Hdst.
      * rewrite (Hfailed f Hf).
        destruct (Hother f (Hin2 f (in_or_app _ _ _ (or_intror Hf))))
          as (H1 & H2 & _).
        now apply Hframe1.
    + intros f Hf. apply in_app_or in Hf as [Hf | Hf].
      * destruct Hcase as [(-> & _ & Hdst) | (-> & _ & _)]; [|destruct Hf].
        destruct Hf as [<- | []]. rewrite Hkeep by auto. exact Hdst.
      * rewrite (Hsucc f Hf).
        destruct (Hother f (Hin2 f (in_or_app _ _ _ (or_introl Hf))))
          as (_ & _ & H3 & H4).
        now apply Hframe1.
    + intros k Hk. rewrite Hframe2.
      * apply Hframe1; apply (Hk f0); now left.
      * intros f Hf. apply Hk. now right.
Qed.

Lemma plain_external_calm (c : call) (w : World) :
  calm 1 w ->
  exists w',
    external c (fun w => (w, Ok tt)) w = (w', Ok tt)
    /\ gcs w' = gcs w /\ pg w' = pg w
    /\ bucket_name w' = bucket_name w
    /\ faults w' = drop 1 (faults w)
    /\ trace w' = trace w ++ [(c, None)].
Proof.
  unfold external, calm, undisturbed. destruct_world w. simpl.
  intros Hc. destruct fs as [|[e|] fs]; simpl in *; try discriminate;
    eexists; repeat split.
Qed.

Lemma pg_connect_calm (w : World) :
  calm 1 w ->
  exists w',
    external PgConnect (fun w => (w, Ok RawConnection)) w
    = (w', Ok RawConnection)
    /\ gcs w' = gcs w /\ pg w' = pg w
    /\ bucket_name w' = bucket_name w
    /\ faults w' = drop 1 (faults w)
    /\ trace w' = trace w ++ [(PgConnect, None)].
Proof.
  unfold external, calm, undisturbed. destruct_world w. simpl.
  intros Hc. destruct fs as [|[e|] fs]; simpl in *; try discriminate;
    eexists; repeat split.
Qed.

Lemma get_gcs_files_calm bucket (w : World) :
  calm 1 w ->
  exists w',
    get_gcs_files_in_processing_zone bucket w
    = (w', Ok (staged_files (gcs w)))
    /\ gcs w' = gcs w /\ pg w' = pg w
    /\ faults w' = drop 1 (faults w)
    /\ trace w' = trace w ++ [(ListBlobs "processing_zone/", None)].
Proof.
  unfold get_gcs_files_in_processing_zone, list_blobs, try_except, bind,
    external, ret, staged_files, calm, undisturbed.
  destruct_world w. simpl.
  intros Hc. destruct fs as [|[e|] fs]; simpl in *; try discriminate;
    eexists; repeat split.
Qed.

(** An undisturbed load pass over a configured bucket: the prelude, the
    loop over the listing, and the two closes. *)
Lemma load_all_calm (w : World) :
  fault_free w ->
  truthy (bucket_name w) = true ->
  exists w1 w2 r,
    load_all_partitions_to_postgresql read_csv str_lower w = (w2, Ok r)
    /\ fault_free w1 /\ gcs w1 = gcs w /\ pg w1 = pg w
    /\ (exists w3,
           load_files read_csv str_lower RawConnection (bucket_name w) (staged_files (gcs w))
                      ([], []) w1 = (w3, Ok r)
           /\ gcs w2 = gcs w3 /\ pg w2 = pg w3).
Proof.
  intros Hff Hbucket.
  unfold load_all_partitions_to_postgresql, try_except, try_finally, bind,
    get_gcp_clients, get_gcs_client, get_postgresql_connection,
    pg_client_get_postgresql_connection, config_bucket_name,
    pg_connection_close, close_postgresql_connection, local_call, ret.
  destruct (plain_external_calm GetGcpClients w (Hff 1%nat))
    as (wa & -> & Hga & Hpa & Hba & Hfa & _).
  pose proof (fault_free_drop 1 w wa Hff Hfa) as Hffa.
  destruct (plain_external_calm GetGcsClient wa (Hffa 1%nat))
    as (wb & -> & Hgb & Hpb & Hbb & Hfb & _).
  pose proof (fault_free_drop 1 wa wb Hffa Hfb) as Hffb.
  destruct (plain_external_calm GetPgClient wb (Hffb 1%nat))
    as (wc & -> & Hgc & Hpc & Hbc & Hfc & _).
  pose proof (fault_free_drop 1 wb wc Hffb Hfc) as Hffc.
  destruct (pg_connect_calm wc (Hffc 1%nat))
    as (wd & -> & Hgd & Hpd & Hbd & Hfd & _).
  pose proof (fault_free_drop 1 wc wd Hffc Hfd) as Hffd.
  assert (Hb : bucket_name wd = bucket_name w) by congruence.
  rewrite Hb, Hbucket. cbn [negb].
  destruct (get_gcs_files_calm (bucket_name w) wd (Hffd 1%nat))
    as (w1 & -> & Hg1 & Hp1 & Hf1 & _).
  pose proof (fault_free_drop 1 wd w1 Hffd Hf1) as Hff1.
  assert (Hg : gcs wd = gcs w) by congruence. rewrite Hg.
  destruct (staged_files (gcs w)) as [|f0 rest] eqn:Hfiles.
  - exists w1. eexists. exists ([], []). split; [reflexivity|].
    split; [exact Hff1|]. split; [congruence|]. split; [congruence|].
    exists w1. repeat split.
  - destruct (load_files read_csv str_lower RawConnection (bucket_name w) (f0 :: rest) ([], []) w1)
      as [w3 r3] eqn:Hloop.
    destruct (load_files_spec read_csv str_lower (bucket_name w) (f0 :: rest) [] [] w1)
      as (w3' & s & fl & evs & Hrun & _).
    rewrite Hloop in Hrun. inversion Hrun; subst w3' r3. clear Hrun.
    exists w1. eexists. eexists. split; [reflexivity|].
    split; [exact Hff1|]. split; [congruence|]. split; [congruence|].
    exists w3. split; [exact Hloop|]. split; reflexivity.
Qed.


(** An undisturbed load pass over a flat processing zone. *)
Lemma undisturbed_pass (w : World) :
  fault_free w ->
  truthy (bucket_name w) = true ->
  (forall rest,
      is_Some (gcs w !! ("processing_zone/" +:+ rest)) ->
      count_char "/" rest = 0%nat) ->
  exists w' successful failed,
    load_all_partitions_to_postgresql read_csv str_lower w
    = (w', Ok (successful, failed))
    /\ successful ++ failed ≡ₚ staged_files (gcs w)
    /\ staged_files (gcs w') = []
    /\ (forall f, In f failed ->
          gcs w' !! ("unprocess_zone/" +:+ f)
          = gcs w !! ("processing_zone/" +:+ f))
    /\ (forall f, In f successful ->
          gcs w' !! ("unprocess_zone/" +:+ f)
          = gcs w !! ("unprocess_zone/" +:+ f))
    /\ (forall k,
          PyStr.startswith "processing_zone/" k = false ->
          PyStr.startswith "unprocess_zone/" k = false ->
          gcs w' !! k = gcs w !! k).
Proof.
  intros Hff Hbucket Hflat.
  destruct (flat_zone_listing (gcs w) Hflat) as [Hnd Hlisted].
  destruct (load_all_calm w Hff Hbucket)
    as (w1 & w2 & r & Hrun & Hff1 & Hg1 & _ & w3 & Hloop & Hg2 & _).
  destruct (load_files_calm (bucket_name w) (staged_files (gcs w)) [] [] w1
              Hff1 Hnd)
    as (w3' & s & fl & Hloop' & _ & Hperm & Hnone & Hfailed & Hsucc
        & Hframe).
  { intros f Hf. rewrite Hg1. now apply Hlisted. }
  rewrite Hloop in Hloop'. inversion Hloop'; subst w3' r. clear Hloop'.
  cbn [app] in Hrun. rewrite <- Hg2, Hg1 in *.
  exists w2, s, fl. split; [exact Hrun|]. split; [exact Hperm|].
  split; [|split; [exact Hfailed | split; [exact Hsucc|]]].
  - destruct (staged_files (gcs w2)) as [|n l] eqn:Hleft; [reflexivity|].
    exfalso.
    assert (Hn : In n (staged_files (gcs w2))) by (rewrite Hleft; now left).
    apply staged_files_spec in Hn as (k & Hk & Hstart & Hend & _).
    destruct (prefix_split _ _ Hstart) as [bare ->].
    assert (Hwas : In bare (staged_files (gcs w)) -> False).
    { intros Hb. rewrite (Hnone bare Hb) in Hk. now destruct Hk. }
    apply Hwas.
    rewrite Hframe in Hk.
    + pose proof (staged_files_in (gcs w) _ Hk Hstart Hend) as Hin.
      pose proof (listed_name_roundtrip bare (Hflat bare Hk)) as Hrt.
      apply processing_name_inj in Hrt. now rewrite Hrt in Hin.
    + intros f Hf. split; [|apply processing_neq_unprocess].
      intros Heq. apply processing_name_inj in Heq. subst f. contradiction.
  - intros k Hp Hu. apply Hframe. intros f _. split; intros ->.
    + pose proof (prefix_refl_app "processing_zone/" f) as H'.
      unfold PyStr.startswith in Hp. congruence.
    + pose proof (prefix_refl_app "unprocess_zone/" f) as H'.
      unfold PyStr.startswith in Hu. congruence.
Qed.

(** X9. One undisturbed turn of the loader's loop on a file whose object
    is in the processing zone, with the connection the loader works with:
    the object is downloaded; when its content parses, [to_sql] is asked to
    write the target table named after the file, under the write policy,
    with the column names lower-cased and a chunk size of 5000, and raises;
    the object is then copied to [unprocess_zone/] and deleted from
    [processing_zone/]. These are all the calls, at most four. The file
    joins the failed ones, the database is as before, and the object is in
    [unprocess_zone/] with its content. *)
Theorem X9_undisturbed_turn bucket f successful failed data (w : World) :
  calm 4 w ->
  gcs w !! ("processing_zone/" +:+ f) = Some data ->
  let src := "processing_zone/" +:+ f in
  let dst := "unprocess_zone/" +:+ f in
  let table := extract_table_name_from_filename f in
  let evs :=
    (Download src, None)
    :: match read_csv data with
       | Some df =>
           [(ToSql table
                   (if String.eqb table "partitioned_table3"
                    then Replace else Append)
                   (map str_lower (columns df)) 5000, Some OtherError)]
       | None => []
       end
    ++ [(Copy src dst, None); (Delete src, None)] in
  exists w',
    load_one read_csv str_lower RawConnection bucket f (successful, failed) w
    = (w', Ok (successful, failed ++ [f]))
    /\ pg w' = pg w
    /\ gcs w' = delete src (<[dst := data]> (gcs w))
    /\ trace w' = trace w ++ evs
    /\ (length evs <= 4)%nat
    /\ faults w' = drop (length evs) (faults w).
Proof.
  intros Hc Hdata.
  exact (load_one_calm bucket f successful failed data w Hc Hdata).
Qed.

(** X10. An undisturbed load pass over a configured bucket whose
    processing zone has no sub-folders reports every staged file exactly
    once, as successful or as failed, and leaves no staged file behind: a
    second pass would find nothing to load. The failed files are in
    [unprocess_zone/] with the content they had, the objects outside the
    two zones are as before. *)
Theorem X10_undisturbed_pass (w : World) :
  fault_free w ->
  truthy (bucket_name w) = true ->
  (forall rest,
      is_Some (gcs w !! ("processing_zone/" +:+ rest)) ->
      count_char "/" rest = 0%nat) ->
  exists w' successful failed,
    load_all_partitions_to_postgresql read_csv str_lower w
    = (w', Ok (successful, failed))
    /\ successful ++ failed ≡ₚ staged_files (gcs w)
    /\ staged_files (gcs w') = []
    /\ (forall f, In f failed ->
          gcs w' !! ("unprocess_zone/" +:+ f)
          = gcs w !! ("processing_zone/" +:+ f))
    /\ (forall f, In f successful ->
          gcs w' !! ("unprocess_zone/" +:+ f)
          = gcs w !! ("unprocess_zone/" +:+ f))
    /\ (forall k,
          PyStr.startswith "processing_zone/" k = false ->
          PyStr.startswith "unprocess_zone/" k = false ->
          gcs w' !! k = gcs w !! k).
Proof. exact (undisturbed_pass w). Qed.

End Turn.

End Calm.

Lemma X9_undisturbed_turn_witness :
  let w := world_with [] one_staged_file in
  let f := "user_events_20240114.csv" in
  exists w',
    load_one toy_read_csv toy_lower RawConnection "bucket" f ([], []) w
    = (w', Ok ([], [f]))
    /\ pg w' = pg w
    /\ gcs w' = {[ "unprocess_zone/" +:+ f := toy_to_csv two_rows ]}
    /\ trace w'
       = [(Download ("processing_zone/" +:+ f), None);
          (ToSql "user_events" Append ["id"; "event_date"] 5000,
           Some OtherError);
          (Copy ("processing_zone/" +:+ f) ("unprocess_zone/" +:+ f), None);
          (Delete ("processing_zone/" +:+ f), None)].
Proof.
  intros w f.
  destruct (X9_undisturbed_turn toy_read_csv toy_lower "bucket" f [] []
              (toy_to_csv two_rows) w)
    as (w' & Hrun & Hpg & Hg & Htr & _).
  - reflexivity.
  - vm_compute. reflexivity.
  - exists w'. split; [exact Hrun|]. split; [exact Hpg|].
    split; [|exact Htr].
    rewrite Hg. unfold w, f, world_with, one_staged_file. cbn [gcs].
    rewrite insert_singleton_ne by discriminate.
    rewrite delete_insert_eq, delete_singleton_ne by discriminate.
    reflexivity.
Defined.

Lemma X10_undisturbed_pass_witness :
  exists w' successful failed,
    load_all_partitions_to_postgresql toy_read_csv toy_lower
      (world_with [] one_staged_file)
    = (w', Ok (successful, failed))
    /\ successful ++ failed ≡ₚ staged_files one_staged_file
    /\ staged_files (gcs w') = [].
Proof.
  destruct (X10_undisturbed_pass toy_read_csv toy_lower
              (world_with [] one_staged_file))
    as (w' & successful & failed & Hrun & Hperm & Hnone & _).
  - intros n. unfold calm, undisturbed. cbn. now rewrite take_nil.
  - reflexivity.
  - intros rest [data Hdata]. cbn in Hdata. unfold one_staged_file in Hdata.
    apply lookup_singleton_Some in Hdata as [Heq _].
    apply (inj (String.app "processing_zone/")) in Heq. subst rest.
    reflexivity.
  - exists w', successful, failed. auto.
Defined.

(** ** The calls of a load pass, for every schedule of faults *)

Section LoadCalls.
Variable read_csv : string -> option DataFrame.
Variable str_lower : string -> string.

Lemma load_one_calls bucket f successful failed (w : World) :
  exists w' s1 f1 evs,
    load_one read_csv str_lower RawConnection bucket f (successful, failed) w
    = (w', Ok (successful ++ s1, failed ++ f1))
    /\ trace w' = trace w ++ evs
    /\ Forall data_event evs
    /\ (length s1 + length f1 <= 1)%nat
    /\ (forall t, t <> extract_table_name_from_filename f ->
                  pg w' !! t = pg w !! t)
    /\ s1 = [] /\ pg w' = pg w.
Proof.
  unfold load_one, bind, ret.
  destruct (load_partition_to_postgresql_spec read_csv str_lower bucket f
              RawConnection (extract_table_name_from_filename f) w)
    as (w1 & b & -> & _ & Hload).
  assert (Hw1 : exists evs1,
             trace w1 = trace w ++ evs1 /\ Forall data_event evs1
             /\ b = false /\ pg w1 = pg w).
  { destruct Hload as [(e & Hb & Hpg & _ & Htr)
                      | [(data & Hb & Hpg & _ & _ & Htr)
                        | (data & df & o & _ & _ & Htr & Ho)]];
      eexists; (split; [exact Htr|]);
      (split; [repeat constructor|]); auto.
    destruct o as [e|].
    - destruct Ho as (Hb & Hpg). auto.
    - destruct Ho as (_ & Hcon & _). discriminate. }
  destruct Hw1 as (evs1 & Htr1 & Hev1 & -> & Hpg1). clear Hload.
  destruct (move_file_in_gcs_spec bucket ("processing_zone/" +:+ f)
              ("unprocess_zone/" +:+ f) w1)
    as (w2 & b2 & -> & Hpg2
        & [(e & -> & _ & Htr2)
          | [(data & e & _ & -> & _ & Htr2) | (data & _ & -> & _ & Htr2)]]).
  - exists w2, [], []. eexists.
    split; [rewrite !app_nil_r; reflexivity|].
    split; [rewrite Htr2, Htr1, <- app_assoc; reflexivity|].
    split; [apply Forall_app; split; [exact Hev1 | repeat constructor]|].
    split; [cbn; lia|].
    split; [intros t Ht; congruence|]. split; [reflexivity | congruence].
  - exists w2, [], []. eexists.
    split; [rewrite !app_nil_r; reflexivity|].
    split; [rewrite Htr2, Htr1, <- app_assoc; reflexivity|].
    split; [apply Forall_app; split; [exact Hev1 | repeat constructor]|].
    split; [cbn; lia|].
    split; [intros t Ht; congruence|]. split; [reflexivity | congruence].
  - exists w2, [], [f]. eexists.
    split; [rewrite !app_nil_r; reflexivity|].
    split; [rewrite Htr2, Htr1, <- app_assoc; reflexivity|].
    split; [apply Forall_app; split; [exact Hev1 | repeat constructor]|].
    split; [cbn; lia|].
    split; [intros t Ht; congruence|]. split; [reflexivity | congruence].
Qed.

Lemma load_files_calls bucket : forall files successful failed (w : World),
  exists w' s1 f1 evs,
    load_files read_csv str_lower RawConnection bucket files (successful, failed) w
    = (w', Ok (successful ++ s1, failed ++ f1))
    /\ trace w' = trace w ++ evs
    /\ Forall data_event evs
    /\ (length s1 + length f1 <= length files)%nat
    /\ (forall t,
           (forall f, In f files ->
                      extract_table_name_from_filename f <> t) ->
           pg w' !! t = pg w !! t)
    /\ s1 = [] /\ pg w' = pg w.
Proof.
  induction files as [|f0 rest IH]; intros successful failed w.
  - exists w, [], [], []. rewrite !app_nil_r.
    split; [reflexivity|]. split; [reflexivity|].
    split; [constructor|]. split; [cbn; lia|]. auto.
  - cbn [load_files]. unfold bind.
    destruct (load_one_calls bucket f0 successful failed w)
      as (w1 & s1 & f1 & evs1 & -> & Htr1 & Hev1 & Hlen1 & _ & Hs1 & Hpg1).
    destruct (IH (successful ++ s1) (failed ++ f1) w1)
      as (w2 & s2 & f2 & evs2 & -> & Htr2 & Hev2 & Hlen2 & _ & Hs2 & Hpg2).
    exists w2, (s1 ++ s2), (f1 ++ f2), (evs1 ++ evs2).
    split; [now rewrite !app_assoc|].
    split; [rewrite Htr2, Htr1, <- app_assoc; reflexivity|].
    split; [apply Forall_app; auto|].
    split; [rewrite !length_app; cbn [length]; lia|].
    split; [intros t _; congruence|].
    split; [now subst s1 s2 | congruence].
Qed.

Lemma get_gcs_files_full bucket (w : World) :
  exists w' files o,
    get_gcs_files_in_processing_zone bucket w = (w', Ok files)
    /\ gcs w' = gcs w /\ pg w' = pg w
    /\ trace w' = trace w ++ [(ListBlobs "processing_zone/", o)]
    /\ match o with
       | None => files = staged_files (gcs w)
       | Some _ => files = []
       end.
Proof.
  unfold get_gcs_files_in_processing_zone, list_blobs, try_except, bind,
    external, ret, staged_files.
  destruct_world w. simpl.
  destruct fs as [|[e|] fs]; simpl; do 3 eexists;
    (split; [reflexivity|]); simpl; repeat split.
Qed.

(** The shape of a load pass: it stops before the loop, with the clients
    it got to bind given back, or it runs the loop over the listing between
    the opening calls and the closing calls. *)
Lemma load_all_shape (w : World) :
  exists w' r evs,
    load_all_partitions_to_postgresql read_csv str_lower w = (w', Ok r)
    /\ trace w' = trace w ++ evs
    /\ ((r = ([], []) /\ pg w' = pg w /\ gcs w' = gcs w
         /\ ((exists e,
                 evs = [(GetGcpClients, Some e)]
                 \/ evs = [(GetGcpClients, None); (GetGcsClient, Some e)]
                 \/ evs = [(GetGcpClients, None); (GetGcsClient, None);
                           (GetPgClient, Some e)]
                 \/ evs = [(GetGcpClients, None); (GetGcsClient, None);
                           (GetPgClient, None); (PgConnect, Some e);
                           (PgClientClose, None)])
             \/ (exists body,
                    evs = opening ++ body ++ closing
                    /\ (body = []
                        \/ (truthy (bucket_name w) = true
                            /\ exists o,
                                 body = [(ListBlobs "processing_zone/",
                                          o)])))))
        \/ (exists w1 w3 body,
               truthy (bucket_name w) = true
               /\ gcs w1 = gcs w /\ pg w1 = pg w
               /\ load_files read_csv str_lower RawConnection (bucket_name w) (staged_files (gcs w))
                             ([], []) w1 = (w3, Ok r)
               /\ trace w3 = trace w1 ++ body
               /\ gcs w' = gcs w3 /\ pg w' = pg w3
               /\ evs = opening ++ [(ListBlobs "processing_zone/", None)]
                              ++ body ++ closing)).
Proof.
  unfold load_all_partitions_to_postgresql, try_except, try_finally, bind,
    get_gcp_clients, get_gcs_client, get_postgresql_connection,
    pg_client_get_postgresql_connection, config_bucket_name,
    pg_connection_close, close_postgresql_connection, local_call, ret.
  destruct (plain_external_spec GetGcpClients w)
    as (w1 & r1 & -> & Hg1 & Hp1 & Hb1 & _ & _ & _ & _ & _ & _ & _ & _ & Htr1).
  destruct r1 as [[]|e1]; cbn [outcome] in Htr1.
  2:{ do 3 eexists. split; [reflexivity|]. split; [exact Htr1|].
      left. do 3 (split; [auto|]). left. exists e1. auto. }
  destruct (plain_external_spec GetGcsClient w1)
    as (w2 & r2 & -> & Hg2 & Hp2 & Hb2 & _ & _ & _ & _ & _ & _ & _ & _ & Htr2).
  destruct r2 as [[]|e2]; cbn [outcome] in Htr2.
  2:{ do 3 eexists. split; [reflexivity|].
      split; [rewrite Htr2, Htr1, <- !app_assoc; reflexivity|].
      left. do 3 (split; [congruence|]). left. exists e2. auto. }
  destruct (plain_external_spec GetPgClient w2)
    as (w3 & r3 & -> & Hg3 & Hp3 & Hb3 & _ & _ & _ & _ & _ & _ & _ & _ & Htr3).
  destruct r3 as [[]|e3]; cbn [outcome] in Htr3.
  2:{ do 3 eexists. split; [reflexivity|].
      split; [rewrite Htr3, Htr2, Htr1, <- !app_assoc; reflexivity|].
      left. do 3 (split; [congruence|]). left. exists e3. auto. }
  destruct (pg_connect_spec w3)
    as (w4 & r4 & -> & Hg4 & Hp4 & Hb4 & _ & _ & _ & _ & _ & _ & _ & _ & Htr4).
  destruct r4 as [[]|e4]; cbn [outcome] in Htr4.
  2:{ do 3 eexists. split; [reflexivity|].
      split; [cbn [log trace];
              rewrite Htr4, Htr3, Htr2, Htr1, <- !app_assoc; reflexivity|].
      left. split; [reflexivity|].
      do 2 (split; [cbn [log gcs pg]; congruence|]).
      left. exists e4. cbn [app]. auto. }
  assert (Hg : gcs w4 = gcs w) by congruence.
  assert (Hp : pg w4 = pg w) by congruence.
  assert (Hb : bucket_name w4 = bucket_name w) by congruence.
  rewrite Hb.
  destruct (truthy (bucket_name w)) eqn:Hbucket; cbn [negb].
  2:{ do 3 eexists. split; [reflexivity|].
      split; [cbn [log trace];
              rewrite Htr4, Htr3, Htr2, Htr1, <- !app_assoc; reflexivity|].
      left. split; [reflexivity|].
      do 2 (split; [cbn [log gcs pg]; congruence|]).
      right. exists []. split; [reflexivity | now left]. }
  destruct (get_gcs_files_full (bucket_name w) w4)
    as (w5 & listed & o & -> & Hg5 & Hp5 & Htr5 & Hlisted).
  destruct o as [e5|]; subst listed.
  { do 3 eexists. split; [reflexivity|].
    split; [cbn [log trace];
            rewrite Htr5, Htr4, Htr3, Htr2, Htr1, <- !app_assoc;
            reflexivity|].
    left. split; [reflexivity|].
    do 2 (split; [cbn [log gcs pg]; congruence|]).
    right. eexists.
    split; [|right; split; [reflexivity | eexists; reflexivity]].
    reflexivity. }
  rewrite Hg.
  destruct (staged_files (gcs w)) as [|f0 rest] eqn:Hfiles.
  { do 3 eexists. split; [reflexivity|].
    split; [cbn [log trace];
            rewrite Htr5, Htr4, Htr3, Htr2, Htr1, <- !app_assoc;
            reflexivity|].
    left. split; [reflexivity|].
    do 2 (split; [cbn [log gcs pg]; congruence|]).
    right. eexists.
    split; [|right; split; [reflexivity | eexists; reflexivity]].
    reflexivity. }
  destruct (load_files_calls (bucket_name w) (f0 :: rest) [] [] w5)
    as (w6 & s1 & f1 & evs6 & Hrun & Htr6 & _).
  cbn [app] in Hrun. rewrite Hrun.
  do 3 eexists. split; [reflexivity|].
  split; [cbn [log trace];
          rewrite Htr6, Htr5, Htr4, Htr3, Htr2, Htr1, <- !app_assoc;
          reflexivity|].
  right. exists w5, w6, evs6. split; [reflexivity|].
  split; [congruence|]. split; [congruence|]. split; [exact Hrun|].
  split; [exact Htr6|]. repeat split.
Qed.

(** A load pass loads nothing: it reports no file as successful and
    leaves the database as it was, whatever is disturbed. *)
Lemma load_all_raw (w : World) :
  exists w' failed,
    load_all_partitions_to_postgresql read_csv str_lower w
    = (w', Ok ([], failed))
    /\ pg w' = pg w.
Proof.
  destruct (load_all_shape w)
    as (w' & r & evs & Hrun & _ & Hshape).
  destruct Hshape
    as [(-> & Hpg & _)
       | (w1 & w3 & body & _ & _ & Hpg1 & Hloop & _ & _ & Hpg3 & _)].
  - now exists w', [].
  - destruct (load_files_calls (bucket_name w) (staged_files (gcs w))
                [] [] w1)
      as (w3' & s1 & f1 & evs3 & Hloop' & _ & _ & _ & _ & -> & Hpg).
    rewrite Hloop in Hloop'. inversion Hloop'; subst w3' r.
    exists w', f1. split; [exact Hrun | congruence].
Qed.

(** X11. Whatever is disturbed, a load pass gives back what it opened.
    Either the database connection was opened: the calls of the pass are
    then the four opening calls, calls on the bucket and the database only,
    and last the close of the connection and the close of the client. Or it
    was not opened: the pass then makes no call on the bucket or the
    database, reports nothing, closes no connection, and still closes the
    client if it got one. *)
Theorem X11_connection_released (w : World) :
  exists w' r evs,
    load_all_partitions_to_postgresql read_csv str_lower w = (w', Ok r)
    /\ trace w' = trace w ++ evs
    /\ ((exists body,
            evs = opening ++ body ++ closing /\ Forall data_event body)
        \/ (r = ([], [])
            /\ Forall (fun ev => data_call (fst ev) = false) evs
            /\ ~ In (PgConnect, None) evs
            /\ ~ In (PgClose, None) evs
            /\ (In (GetPgClient, None) evs ->
                last evs = Some (PgClientClose, None)))).
Proof.
  destruct (load_all_shape w)
    as (w' & r & evs & Hrun & Htr & Hshape).
  exists w', r, evs. split; [exact Hrun|]. split; [exact Htr|].
  destruct Hshape
    as [(Hr & _ & _ & [(e & Hevs) | (body & Hevs & Hbody)])
       | (w1 & w3 & body & _ & _ & _ & Hloop & Htr3 & _ & _ & Hevs)].
  - right. split; [exact Hr|].
    destruct Hevs as [-> | [-> | [-> | ->]]];
      (split; [repeat constructor|]);
      (split; [cbn [In]; intros H;
               repeat (destruct H as [H | H]; [discriminate|]); exact H|]);
      (split; [cbn [In]; intros H;
               repeat (destruct H as [H | H]; [discriminate|]); exact H|]);
      cbn [In]; intros H; try reflexivity;
      repeat (destruct H as [H | H]; [discriminate|]); destruct H.
  - left. exists body. split; [exact Hevs|].
    destruct Hbody as [-> | (_ & o & ->)]; repeat constructor.
  - left. exists ((ListBlobs "processing_zone/", None) :: body).
    split; [exact Hevs|]. constructor; [reflexivity|].
    destruct (load_files_calls (bucket_name w) (staged_files (gcs w))
                [] [] w1)
      as (w3' & s1 & f1 & evs3 & Hloop' & Htr3' & Hev & _).
    rewrite Hloop in Hloop'. inversion Hloop'; subst w3'.
    rewrite Htr3 in Htr3'. apply app_inv_head in Htr3'. now subst body.
Qed.

(** X12. Whatever is disturbed, a load pass writes no table but those
    named after the files of the listing: every other table of the database
    is as before. *)
Theorem X12_other_tables_untouched (w : World) :
  exists w' r,
    load_all_partitions_to_postgresql read_csv str_lower w = (w', Ok r)
    /\ forall t,
         (forall f, In f (staged_files (gcs w)) ->
                    extract_table_name_from_filename f <> t) ->
         pg w' !! t = pg w !! t.
Proof.
  destruct (load_all_shape w)
    as (w' & r & evs & Hrun & _ & Hshape).
  exists w', r. split; [exact Hrun|]. intros t Ht.
  destruct Hshape
    as [(_ & Hpg & _)
       | (w1 & w3 & body & _ & _ & Hpg1 & Hloop & _ & _ & Hpg3 & _)].
  - now rewrite Hpg.
  - destruct (load_files_calls (bucket_name w) (staged_files (gcs w))
                [] [] w1)
      as (w3' & s1 & f1 & evs3 & Hloop' & _ & _ & _ & Hframe & _).
    rewrite Hloop in Hloop'. inversion Hloop'; subst w3'.
    rewrite Hpg3, (Hframe t Ht), Hpg1. reflexivity.
Qed.

(** X13. Whatever is disturbed, a load pass reports no more files than the
    processing zone listed: a file is counted at most once, as successful
    or as failed. *)
Theorem X13_reported_at_most_listed (w : World) :
  exists w' successful failed,
    load_all_partitions_to_postgresql read_csv str_lower w
    = (w', Ok (successful, failed))
    /\ (length successful + length failed
        <= length (staged_files (gcs w)))%nat.
Proof.
  destruct (load_all_shape w)
    as (w' & r & evs & Hrun & _ & Hshape).
  destruct Hshape
    as [(-> & _)
       | (w1 & w3 & body & _ & _ & _ & Hloop & _)].
  - exists w', [], []. split; [exact Hrun | cbn; lia].
  - destruct (load_files_calls (bucket_name w) (staged_files (gcs w))
                [] [] w1)
      as (w3' & s1 & f1 & evs3 & Hloop' & _ & _ & Hlen & _).
    rewrite Hloop in Hloop'. inversion Hloop'; subst w3' r.
    exists w', s1, f1. split; [exact Hrun | exact Hlen].
Qed.

(** An undisturbed load pass without a bucket name: the opening calls,
    then the closing calls. *)
Lemma load_all_unconfigured_calm (w : World) :
  calm 4 w ->
  truthy (bucket_name w) = false ->
  exists w',
    load_all_partitions_to_postgresql read_csv str_lower w
    = (w', Ok ([], []))
    /\ trace w' = trace w ++ opening ++ closing.
Proof.
  intros Hc Hbucket.
  unfold load_all_partitions_to_postgresql, try_except, try_finally, bind,
    get_gcp_clients, get_gcs_client, get_postgresql_connection,
    pg_client_get_postgresql_connection, config_bucket_name,
    pg_connection_close, close_postgresql_connection, local_call, ret.
  destruct (plain_external_calm GetGcpClients w (calm_le 1 4 w ltac:(lia) Hc))
    as (wa & -> & _ & _ & Hba & Hfa & Htra).
  pose proof (calm_drop 1 3 w wa Hc Hfa) as Hca.
  destruct (plain_external_calm GetGcsClient wa
              (calm_le 1 3 wa ltac:(lia) Hca))
    as (wb & -> & _ & _ & Hbb & Hfb & Htrb).
  pose proof (calm_drop 1 2 wa wb Hca Hfb) as Hcb.
  destruct (plain_external_calm GetPgClient wb
              (calm_le 1 2 wb ltac:(lia) Hcb))
    as (wc & -> & _ & _ & Hbc & Hfc & Htrc).
  pose proof (calm_drop 1 1 wb wc Hcb Hfc) as Hcc.
  destruct (pg_connect_calm wc Hcc)
    as (wd & -> & _ & _ & Hbd & _ & Htrd).
  assert (Hb : bucket_name wd = bucket_name w) by congruence.
  rewrite Hb, Hbucket. cbn [negb].
  eexists. split; [reflexivity|].
  cbn [log trace]. rewrite Htrd, Htrc, Htrb, Htra. unfold opening, closing.
  rewrite <- !app_assoc. reflexivity.
Qed.

(** X14. With no bucket name in the configuration a load pass lists
    nothing and loads nothing, whatever is disturbed. The bucket name is
    looked up only after the database connection was opened: the pass gets
    its clients, opens the connection, and closes it and the client again
    at once; when one of the four opening calls raises it stops there, and
    closes the client if it was the connection that failed. It makes no
    call that lists, reads or writes the objects of the bucket or the
    tables of the database, reports no file, and leaves both as they
    were. *)
Theorem X14_unconfigured_bucket (w : World) :
  truthy (bucket_name w) = false ->
  exists w' evs,
    load_all_partitions_to_postgresql read_csv str_lower w = (w', Ok ([], []))
    /\ trace w' = trace w ++ evs
    /\ Forall (fun ev => data_call (fst ev) = false) evs
    /\ gcs w' = gcs w /\ pg w' = pg w
    /\ (evs = [(GetGcpClients, None); (GetGcsClient, None);
               (GetPgClient, None); (PgConnect, None);
               (PgClose, None); (PgClientClose, None)]
        \/ exists e,
             evs = [(GetGcpClients, Some e)]
             \/ evs = [(GetGcpClients, None); (GetGcsClient, Some e)]
             \/ evs = [(GetGcpClients, None); (GetGcsClient, None);
                       (GetPgClient, Some e)]
             \/ evs = [(GetGcpClients, None); (GetGcsClient, None);
                       (GetPgClient, None); (PgConnect, Some e);
                       (PgClientClose, None)])
    /\ (calm 4 w ->
        evs = [(GetGcpClients, None); (GetGcsClient, None);
               (GetPgClient, None); (PgConnect, None);
               (PgClose, None); (PgClientClose, None)]).
Proof.
  intros Hbucket.
  destruct (load_all_shape w)
    as (w' & r & evs & Hrun & Htr & Hshape).
  assert (Hcalm : calm 4 w -> evs = opening ++ closing).
  { intros Hc.
    destruct (load_all_unconfigured_calm w Hc Hbucket) as (w2 & Hrun2 & Htr2).
    rewrite Hrun in Hrun2. inversion Hrun2; subst w2.
    rewrite Htr in Htr2. now apply app_inv_head in Htr2. }
  destruct Hshape
    as [(-> & Hpg & Hg & [(e & Hevs) | (body & Hevs & Hbody)])
       | (w1 & w3 & body & Htrue & _)]; [| |congruence];
    exists w', evs; (split; [exact Hrun|]); (split; [exact Htr|]);
    (split; [|split; [assumption|split; [assumption|split; [|exact Hcalm]]]]).
  - destruct Hevs as [-> | [-> | [-> | ->]]]; repeat constructor.
  - right. exists e. exact Hevs.
  - destruct Hbody as [-> | (Htrue & _)]; [|congruence].
    subst evs. repeat constructor.
  - destruct Hbody as [-> | (Htrue & _)]; [|congruence].
    left. exact Hevs.
Qed.

End LoadCalls.

Lemma X14_unconfigured_bucket_witness :
  let w := no_bucket_world in
  exists w',
    load_all_partitions_to_postgresql toy_read_csv toy_lower w
    = (w', Ok ([], []))
    /\ trace w'
       = [(GetGcpClients, None); (GetGcsClient, None); (GetPgClient, None);
          (PgConnect, None); (PgClose, None); (PgClientClose, None)]
    /\ gcs w' = one_staged_file /\ pg w' = ∅.
Proof.
  intros w.
  destruct (X14_unconfigured_bucket toy_read_csv toy_lower w)
    as (w' & evs & Hrun & Htr & _ & Hg & Hpg & _ & Hcalm);
    [reflexivity|].
  exists w'. split; [exact Hrun|].
  split; [rewrite Htr, Hcalm by reflexivity; reflexivity|].
  split; [exact Hg | exact Hpg].
Defined.

(** ** What the loader writes *)

(** C4 fails on the code. [load_partition_to_postgresql] asks for what the
    claim says: for a file that downloads and parses, its one call of
    [to_sql] names the target table, the column names in lower case, a
    chunk size of 5000, and [replace] exactly when the target is
    [partitioned_table3], [append] otherwise. But the connection it passes
    is the one [psycopg2.connect] made, which [to_sql] does not write
    through: the call raises, the function returns [False] for every file,
    and the database is as it was. So a load pass reports no file as
    successful and writes no row, whatever the bucket holds and whatever is
    disturbed. In the undisturbed pass over the one staged file of
    [user_events], the two rows are asked to be appended, [to_sql] raises,
    the table is still absent afterwards, and the file is reported failed
    and moved to the failed zone. *)
Theorem C4_nothing_is_loaded :
  (forall read_csv str_lower bucket file_name table_name data df (w : World),
      gcs w !! ("processing_zone/" +:+ file_name) = Some data ->
      read_csv data = Some df ->
      calm 2 w ->
      exists w',
        load_partition_to_postgresql read_csv str_lower bucket file_name
          RawConnection table_name w
        = (w', Ok false)
        /\ pg w' = pg w
        /\ events_since w w'
           = [(Download ("processing_zone/" +:+ file_name), None);
              (ToSql table_name
                     (if String.eqb table_name "partitioned_table3"
                      then Replace else Append)
                     (map str_lower (columns df)) 5000,
               Some OtherError)])
  /\ (forall read_csv str_lower bucket file_name table_name (w : World),
         exists w',
           load_partition_to_postgresql read_csv str_lower bucket file_name
             RawConnection table_name w
           = (w', Ok false)
           /\ pg w' = pg w)
  /\ (forall read_csv str_lower (w : World),
         exists w' failed,
           load_all_partitions_to_postgresql read_csv str_lower w
           = (w', Ok ([], failed))
           /\ pg w' = pg w)
  /\ (let w := world_with [] one_staged_file in
      let f := "user_events_20240114.csv" in
      let run := load_all_partitions_to_postgresql toy_read_csv toy_lower w in
      staged_files (gcs w) = [f]
      /\ snd run = Ok ([], [f])
      /\ events_since w (fst run)
         = [(GetGcpClients, None); (GetGcsClient, None); (GetPgClient, None);
            (PgConnect, None); (ListBlobs "processing_zone/", None);
            (Download ("processing_zone/" +:+ f), None);
            (ToSql "user_events" Append ["id"; "event_date"] 5000,
             Some OtherError);
            (Copy ("processing_zone/" +:+ f) ("unprocess_zone/" +:+ f), None);
            (Delete ("processing_zone/" +:+ f), None);
            (PgClose, None); (PgClientClose, None)]
      /\ pg (fst run) !! "user_events" = None
      /\ gcs (fst run) !! ("processing_zone/" +:+ f) = None
      /\ gcs (fst run) !! ("unprocess_zone/" +:+ f)
         = Some (toy_to_csv two_rows)).
Proof.
  split; [|split; [|split]].
  - intros read_csv str_lower bucket file_name table_name data df w
           Hdata Hparse Hc.
    destruct (load_partition_calm read_csv str_lower bucket file_name
                table_name data w Hc Hdata)
      as (w' & Hrun & _ & Hpg & Htr & _).
    exists w'. split; [exact Hrun|]. split; [exact Hpg|].
    unfold events_since. rewrite Htr, drop_app_length.
    unfold load_events. rewrite Hparse. reflexivity.
  - intros read_csv str_lower bucket file_name table_name w.
    destruct (load_partition_raw read_csv str_lower bucket file_name
                table_name w)
      as (w' & Hrun & _ & Hpg).
    now exists w'.
  - intros read_csv str_lower w. exact (load_all_raw read_csv str_lower w).
  - vm_compute. repeat split.
Qed.

(** For comparison, the same load through a connectable of SQLAlchemy:
    the two rows are in the table, under the lower-cased column names. *)
Lemma load_through_engine :
  let w := world_with [] one_staged_file in
  let run := load_partition_to_postgresql toy_read_csv toy_lower "bucket"
               "user_events_20240114.csv" Engine "user_events" w in
  snd run = Ok true
  /\ pg (fst run) !! "user_events"
     = Some (mkDataFrame ["id"; "event_date"]
                         [["1"; "2024-01-14"]; ["2"; "2024-01-14"]]).
Proof. vm_compute. split; reflexivity. Qed.

(** ** The export run and what it hands to the loader *)

Section ExportHandOver.
Variable to_csv : DataFrame -> string.

(** X15. Every object an export run writes is one the loader will pick
    up: it is in the bucket after the run, under [processing_zone/] and
    with the ending [.csv], so its name is in the listing a load pass
    derives from that bucket. *)
Theorem X15_exports_are_staged (w : World) :
  exists w' exported,
    export_main to_csv w = (w', Ok exported)
    /\ forall k,
         gcs w' !! k <> gcs w !! k ->
         is_Some (gcs w' !! k)
         /\ PyStr.startswith "processing_zone/" k = true
         /\ PyStr.endswith ".csv" k = true
         /\ In (PyStr.replace "processing_zone/" EmptyString k)
               (staged_files (gcs w')).
Proof.
  destruct (export_main_spec to_csv w)
    as (w' & exported & Hrun & _ & _ & Hkeep & Hcase).
  exists w', exported. split; [exact Hrun|]. intros k Hk.
  assert (Hsome : is_Some (gcs w' !! k)).
  { destruct (gcs w !! k) as [data|] eqn:Hold.
    - apply Hkeep. rewrite Hold. eauto.
    - destruct (gcs w' !! k); [eauto | contradiction]. }
  assert (Hname : exists t key,
             k = "processing_zone/" +:+ staged_name t key).
  { destruct Hcase as [(_ & Hg & _) | (_ & _ & wrote & _ & _ & Hdiff)].
    - rewrite Hg in Hk. contradiction.
    - destruct (Hdiff k Hk) as (t & _ & ->). eauto. }
  destruct Hname as (t & key & ->).
  assert (Hstart : PyStr.startswith "processing_zone/"
                     ("processing_zone/" +:+ staged_name t key) = true)
    by apply prefix_refl_app.
  assert (Hend : PyStr.endswith ".csv"
                   ("processing_zone/" +:+ staged_name t key) = true).
  { unfold staged_name. repeat apply endswith_app. reflexivity. }
  split; [exact Hsome|]. split; [exact Hstart|]. split; [exact Hend|].
  now apply staged_files_in.
Qed.

(** X16. Whatever is disturbed, an export run leaves the configuration,
    the warehouse and the database as they were, removes no object from the
    bucket, and changes no object outside [processing_zone/]. *)
Theorem X16_export_frame (w : World) :
  exists w' exported,
    export_main to_csv w = (w', Ok exported)
    /\ static w w' /\ pg w' = pg w
    /\ keeps_objects (gcs w) (gcs w')
    /\ forall k,
         PyStr.startswith "processing_zone/" k = false ->
         gcs w' !! k = gcs w !! k.
Proof.
  destruct (export_main_spec to_csv w)
    as (w' & exported & Hrun & Hstatic & Hpg & Hkeep & Hcase).
  exists w', exported. split; [exact Hrun|]. split; [exact Hstatic|].
  split; [exact Hpg|]. split; [exact Hkeep|]. intros k Hout.
  destruct (decide (gcs w' !! k = gcs w !! k)) as [Heq | Hne];
    [exact Heq|]. exfalso.
  destruct Hcase as [(_ & Hg & _) | (_ & _ & wrote & _ & _ & Hdiff)].
  - rewrite Hg in Hne. contradiction.
  - destruct (Hdiff k Hne) as (t & _ & ->).
    pose proof (prefix_refl_app "processing_zone/"
                  (t +:+ "_"
                   +:+ date_key (yesterday_of (clock w (S (ticks w))))
                   +:+ ".csv")) as H'.
    unfold PyStr.startswith, staged_name in Hout. congruence.
Qed.

(** X17. Without a project or a dataset in the configuration the export
    script returns the empty list whatever is disturbed: it reads no clock,
    and the bucket and the database are as before. *)
Theorem X17_unconfigured_export (w : World) :
  truthy (project_id w) && truthy (dataset_id w) = false ->
  exists w',
    export_main to_csv w = (w', Ok []) /\ same_but_log w w'.
Proof.
  intros Hconf.
  unfold export_main, try_except, bind, get_gcp_clients, get_bigquery_client,
    config_project_id, config_dataset_id, ret.
  destruct (plain_external_same GetGcpClients w) as (w1 & r1 & -> & Hs1).
  destruct r1 as [[]|e1]; [|now exists w1].
  destruct (plain_external_same GetBigQueryClient w1) as (w2 & r2 & -> & Hs2).
  pose proof (same_but_log_trans _ _ _ Hs1 Hs2) as Hs.
  destruct r2 as [[]|e2]; [|now exists w2].
  pose proof Hs as [(_ & Hp & Hd & _) _].
  rewrite Hp, Hd.
  destruct (truthy (project_id w)), (truthy (dataset_id w));
    try discriminate; cbn; now exists w2.
Qed.

Lemma export_all_unconfigured (w : World) :
  truthy (project_id w) && truthy (dataset_id w) && truthy (bucket_name w)
  = false ->
  exists w',
    export_all_new_partitions_to_gcs to_csv w = (w', Ok [])
    /\ same_but_log w w'.
Proof.
  intros Hconf.
  unfold export_all_new_partitions_to_gcs, try_except, bind, get_gcp_clients,
    get_bigquery_client, get_gcs_client, config_project_id,
    config_dataset_id, config_bucket_name, ret.
  destruct (plain_external_same GetGcpClients w) as (w1 & r1 & -> & Hs1).
  destruct r1 as [[]|e1]; [|now exists w1].
  destruct (plain_external_same GetBigQueryClient w1) as (w2 & r2 & -> & Hs2).
  pose proof (same_but_log_trans _ _ _ Hs1 Hs2) as Hs12.
  destruct r2 as [[]|e2]; [|now exists w2].
  destruct (plain_external_same GetGcsClient w2) as (w3 & r3 & -> & Hs3).
  pose proof (same_but_log_trans _ _ _ Hs12 Hs3) as Hs.
  destruct r3 as [[]|e3]; [|now exists w3].
  pose proof Hs as [(_ & Hp & Hd & Hb & _) _].
  rewrite Hp, Hd, Hb.
  destruct (truthy (project_id w)), (truthy (dataset_id w)),
    (truthy (bucket_name w)); try discriminate; cbn; now exists w3.
Qed.

(** X18. [export_all_new_partitions_to_gcs] asks for all three of project,
    dataset and bucket: when one is missing from the configuration it
    returns the empty list, reads no clock, and leaves the bucket and the
    database as they were, whatever is disturbed. *)
Theorem X18_unconfigured_export_pass (w : World) :
  truthy (project_id w) && truthy (dataset_id w) && truthy (bucket_name w)
  = false ->
  exists w',
    export_all_new_partitions_to_gcs to_csv w = (w', Ok [])
    /\ same_but_log w w'.
Proof. exact (export_all_unconfigured w). Qed.

(** Without a bucket name the export script exports nothing. *)
Lemma export_main_no_bucket (w : World) :
  truthy (bucket_name w) = false ->
  exists w',
    export_main to_csv w = (w', Ok [])
    /\ gcs w' = gcs w /\ pg w' = pg w
    /\ (ticks w' <= S (ticks w))%nat.
Proof.
  intros Hbucket.
  unfold export_main, try_except, bind, get_gcp_clients, get_bigquery_client,
    config_project_id, config_dataset_id, ret.
  destruct (plain_external_same GetGcpClients w)
    as (w1 & r1 & -> & (Hst1 & Htk1 & Hg1 & Hpg1)).
  destruct r1 as [[]|e1].
  2:{ eexists. split; [reflexivity|]. repeat split; try congruence; lia. }
  destruct (plain_external_same GetBigQueryClient w1)
    as (w2 & r2 & -> & (Hst2 & Htk2 & Hg2 & Hpg2)).
  destruct r2 as [[]|e2].
  2:{ eexists. split; [reflexivity|]. repeat split; try congruence; lia. }
  destruct (negb (truthy (project_id w2)) || negb (truthy (dataset_id w2))).
  { eexists. split; [reflexivity|]. repeat split; try congruence; lia. }
  rewrite get_yesterday_date_run.
  destruct (clock_read_frame w2) as (Hst3 & Htk3 & Hg3 & Hpg3).
  set (w3 := log (Now, None) (set_ticks (S (ticks w2)) w2)) in *.
  pose proof (list_partitioned_tables_frame (dataset_id w2) w3)
    as (Hst4 & Htk4 & Hg4 & Hpg4).
  destruct (list_partitioned_tables (dataset_id w2) w3) as [w4 [tables|e4]];
    cbn [fst] in *.
  2:{ eexists. split; [reflexivity|]. repeat split; try congruence; lia. }
  destruct tables as [|t0 rest].
  { eexists. split; [reflexivity|]. repeat split; try congruence; lia. }
  destruct (check_loop_spec (project_id w2 +:+ "." +:+ dataset_id w2)
              (yesterday_of (clock w2 (ticks w2))) (t0 :: rest) [] w4)
    as (w5 & found & Hrun & (Hst5 & Htk5 & Hg5 & Hpg5) & _).
  cbn [app] in Hrun. rewrite Hrun.
  destruct found as [|t1 found'].
  { eexists. split; [reflexivity|]. repeat split; try congruence; lia. }
  assert (Hb5 : bucket_name w5 = bucket_name w).
  { transitivity (bucket_name w4); [apply Hst5|].
    transitivity (bucket_name w3); [apply Hst4|].
    transitivity (bucket_name w2); [apply Hst3|].
    transitivity (bucket_name w1); [apply Hst2 | apply Hst1]. }
  destruct (export_all_unconfigured w5)
    as (w6 & -> & (_ & Htk6 & Hg6 & Hpg6)).
  { rewrite Hb5, Hbucket. now rewrite andb_false_r. }
  eexists. split; [reflexivity|]. repeat split; try congruence; lia.
Qed.

(** X19. The export script itself does not ask for the bucket: with a
    project and a dataset but no bucket name it still reads the clock and
    questions the warehouse, and then exports nothing. Whatever the catalog
    holds it returns the empty list, reads the clock at most once, and
    leaves the bucket and the database as they were. *)
Theorem X19_no_bucket_no_export (w : World) :
  truthy (bucket_name w) = false ->
  exists w',
    export_main to_csv w = (w', Ok [])
    /\ gcs w' = gcs w /\ pg w' = pg w
    /\ (ticks w' <= S (ticks w))%nat.
Proof. exact (export_main_no_bucket w). Qed.

End ExportHandOver.

Lemma X17_unconfigured_export_witness :
  exists w',
    export_main toy_to_csv no_dataset_world = (w', Ok [])
    /\ same_but_log no_dataset_world w'.
Proof. apply (X17_unconfigured_export toy_to_csv no_dataset_world). reflexivity. Defined.

Lemma X18_unconfigured_export_pass_witness :
  exists w',
    export_all_new_partitions_to_gcs toy_to_csv no_bucket_world = (w', Ok [])
    /\ same_but_log no_bucket_world w'.
Proof.
  apply (X18_unconfigured_export_pass toy_to_csv no_bucket_world).
  reflexivity.
Defined.

Lemma X19_no_bucket_no_export_witness :
  exists w',
    export_main toy_to_csv no_bucket_world = (w', Ok [])
    /\ gcs w' = gcs no_bucket_world /\ pg w' = pg no_bucket_world
    /\ (ticks w' <= S (ticks no_bucket_world))%nat.
Proof.
  apply (X19_no_bucket_no_export toy_to_csv no_bucket_world). reflexivity.
Defined.

(** ** The orchestrator: export, then load *)

Section OrchestratorRun.
Variable to_csv : DataFrame -> string.
Variable read_csv : string -> option DataFrame.
Variable str_lower : string -> string.


End OrchestratorRun.

(** ** Names and keys *)

Section Names.

#[local] Arguments String.append : simpl nomatch.

Lemma count_char_before_nth_sep sep s : forall n,
  (count_char sep (before_nth_sep sep n s) <= n - 1)%nat.
Proof.
  induction s as [|c s IH]; intros n; [cbn; lia|].
  cbn [before_nth_sep]. destruct (Ascii.eqb c sep) eqn:Hc.
  - destruct n as [|[|m]]; [cbn; lia | cbn; lia|].
    cbn [count_char]. rewrite Hc. specialize (IH (S m)). lia.
  - destruct n as [|m]; [cbn; lia|].
    cbn [count_char]. rewrite Hc. specialize (IH (S m)). lia.
Qed.

Lemma substring_prefix (n : nat) : forall s,
  exists r, s = String.substring 0 n s +:+ r.
Proof.
  induction n as [|n IH]; intros [|c s].
  - now exists EmptyString.
  - now exists (String c s).
  - now exists EmptyString.
  - destruct (IH s) as [r Hr]. exists r. cbn. now rewrite <- Hr.
Qed.

Lemma splitext_root_prefix (p : string) :
  exists r, p = fst (PyStr.splitext p) +:+ r.
Proof.
  unfold PyStr.splitext. cbv zeta.
  destruct (_ && _); cbn [fst].
  - unfold PyStr.slice. change (Z.to_nat 0) with 0%nat.
    apply substring_prefix.
  - exists EmptyString. now rewrite append_nil_r.
Qed.

(** X20. The target table of a staged file is always a prefix of the file
    name, and it never holds more than one underscore. *)
Theorem X20_target_table_shape (file_name : string) :
  String.prefix (extract_table_name_from_filename file_name) file_name = true
  /\ (count_char "_" (extract_table_name_from_filename file_name) <= 1)%nat.
Proof.
  rewrite extract_before_second_underscore. split.
  - destruct (splitext_root_prefix file_name) as [r1 Hr1].
    destruct (before_nth_sep_prefix "_" (fst (PyStr.splitext file_name)) 2)
      as [r2 Hr2].
    rewrite Hr1 at 2. rewrite Hr2 at 2. rewrite append_assoc.
    apply prefix_refl_app.
  - apply (count_char_before_nth_sep "_" _ 2).
Qed.

Lemma digit_not c (n : Z) :
  (nat_of_ascii c <? 48)%nat || (57 <? nat_of_ascii c)%nat = true ->
  digit n <> c.
Proof.
  intros Hc <-. unfold digit in Hc.
  pose proof (Z.mod_pos_bound n 10 eq_refl) as Hb.
  rewrite nat_ascii_embedding in Hc by lia.
  apply orb_true_iff in Hc as [Hc | Hc].
  - apply Nat.ltb_lt in Hc. lia.
  - apply Nat.ltb_lt in Hc. lia.
Qed.

Lemma replace_dash_keep c s :
  c <> "-"%char ->
  PyStr.replace_go "-" EmptyString 0 (String c s)
  = String c (PyStr.replace_go "-" EmptyString 0 s).
Proof.
  intros Hc. cbn [PyStr.replace_go String.prefix].
  destruct (ascii_dec "-" c) as [Heq | _]; [congruence | reflexivity].
Qed.

Lemma replace_dash_drop s :
  PyStr.replace_go "-" EmptyString 0 (String "-" s)
  = PyStr.replace_go "-" EmptyString 0 s.
Proof.
  cbn [PyStr.replace_go String.prefix].
  destruct (ascii_dec "-" "-") as [_ | Hne]; [|contradiction].
  destruct s; reflexivity.
Qed.

(** X21. For a date whose year has four digits, the partition key the
    scripts make of it holds the digits of the year, the month and the day
    in a row: the dashes of the formatted date are the only characters the
    replacement removes. It is eight characters long and holds neither a
    dash nor an underscore. (The year of an earlier date is printed with
    fewer digits, and the key is shorter.) *)
Theorem X21_partition_key_digits (d : datetime) :
  (1000 <= year d <= 9999)%Z ->
  date_key (strftime_Y_m_d d)
  = pad4 (year d) +:+ pad2 (month d) +:+ pad2 (day d)
  /\ String.length (date_key (strftime_Y_m_d d)) = 8%nat
  /\ count_char "-" (date_key (strftime_Y_m_d d)) = 0%nat
  /\ count_char "_" (date_key (strftime_Y_m_d d)) = 0%nat.
Proof.
  intros Hyear.
  assert (Hdash : forall n, digit n <> "-"%char)
    by (intros n; apply digit_not; reflexivity).
  assert (Hund : forall n, digit n <> "_"%char)
    by (intros n; apply digit_not; reflexivity).
  assert (Hfour : year_digits (year d) = pad4 (year d)).
  { unfold year_digits.
    destruct (Z.ltb_spec (year d) 10); [lia|].
    destruct (Z.ltb_spec (year d) 100); [lia|].
    destruct (Z.ltb_spec (year d) 1000); [lia | reflexivity]. }
  assert (Hkey : date_key (strftime_Y_m_d d)
                 = pad4 (year d) +:+ pad2 (month d) +:+ pad2 (day d)).
  { unfold date_key, strftime_Y_m_d. rewrite Hfour.
    unfold pad4, pad2, PyStr.replace. cbn [String.append].
    rewrite !replace_dash_keep, replace_dash_drop by apply Hdash.
    rewrite !replace_dash_keep, replace_dash_drop by apply Hdash.
    rewrite !replace_dash_keep by apply Hdash. reflexivity. }
  rewrite Hkey. split; [reflexivity|]. split; [reflexivity|].
  unfold pad4, pad2. cbn [String.append count_char].
  split.
  - repeat match goal with
           | |- context [Ascii.eqb (digit ?n) "-"] =>
               destruct (Ascii.eqb_spec (digit n) "-");
               [now apply Hdash in e|]
           end. reflexivity.
  - repeat match goal with
           | |- context [Ascii.eqb (digit ?n) "_"] =>
               destruct (Ascii.eqb_spec (digit n) "_");
               [now apply Hund in e|]
           end. reflexivity.
Qed.

(** The key of a date before the year 1000 is shorter than eight
    characters. *)
Lemma short_year_key :
  date_key (strftime_Y_m_d (mkDatetime 999 2 28 0 0 0)) = "9990228".
Proof. reflexivity. Qed.

End Names.

Lemma X21_partition_key_digits_witness :
  date_key (strftime_Y_m_d (mkDatetime 2024 1 14 3 0 0)) = "20240114"
  /\ String.length (date_key (strftime_Y_m_d (mkDatetime 2024 1 14 3 0 0)))
     = 8%nat.
Proof.
  destruct (X21_partition_key_digits (mkDatetime 2024 1 14 3 0 0))
    as (Hkey & Hlen & _).
  - cbn. lia.
  - split; [rewrite Hkey; reflexivity | exact Hlen].
Defined.

(** ** The database client *)

Section PgClient.
Import PgConn.

Lemma validate_None (params : list (string * yaml)) :
  validate params = None ->
  Forall (fun kv => yaml_truthy (snd kv) = true) params.
Proof.
  induction params as [|[key value] rest IH]; intros H; constructor.
  - cbn in *. now destruct (yaml_truthy value).
  - apply IH. cbn in H. now destruct (yaml_truthy value).
Qed.

Lemma connection_params_keys (self : obj) params :
  connection_params self = inl params ->
  map fst params = ["host"; "port"; "database"; "user"; "password"].
Proof.
  unfold connection_params, section_get. intros H.
  repeat case_match; simplify_eq. reflexivity.
Qed.

Lemma psycopg2_connect_spec params (h : heap) :
  exists h' r,
    psycopg2_connect params h = (h', r)
    /\ connects h' = connects h ++ [params]
    /\ match r with
       | inl conn =>
           conn = length (closed h) /\ closed h' = closed h ++ [false]
       | inr c => c = ConnectRefused /\ closed h' = closed h
       end.
Proof.
  unfold psycopg2_connect. destruct (refused h) as [|[|] rest];
    do 2 eexists; repeat split.
Qed.

(** What [initialize_postgresql_connection] does, for every configuration
    and schedule. *)
Lemma initialize_spec (self : obj) (h : heap) :
  exists self' h' r,
    initialize_postgresql_connection self h = (self', h', r)
    /\ config self' = config self
    /\ ((h' = h /\ self' = self
         /\ exists c, r = Raises (InitFailed c) /\ c <> ConnectRefused
            /\ match connection_params self with
               | inl params => validate params = Some c
               | inr c' => c' = c
               end)
        \/ (exists params,
               connection_params self = inl params
               /\ validate params = None
               /\ connects h' = connects h ++ [params]
               /\ ((r = Raises (InitFailed ConnectRefused)
                    /\ self' = self /\ closed h' = closed h)
                   \/ (r = Returns (length (closed h))
                       /\ pg_connection self' = Some (length (closed h))
                       /\ closed h' = closed h ++ [false])))).
Proof.
  unfold initialize_postgresql_connection.
  destruct (connection_params self) as [params | c] eqn:Hparams.
  2:{ do 3 eexists. split; [reflexivity|]. split; [reflexivity|]. left.
      repeat split. exists c. repeat split.
      unfold connection_params, section_get in Hparams.
      repeat case_match; simplify_eq; discriminate. }
  destruct (validate params) as [c|] eqn:Hval.
  { do 3 eexists. split; [reflexivity|]. split; [reflexivity|]. left.
    repeat split. exists c. repeat split.
    clear Hparams. induction params as [|[key value] rest IH];
      [discriminate|]. cbn in Hval.
    destruct (yaml_truthy value); cbn in Hval; [auto | now inversion Hval]. }
  destruct (psycopg2_connect_spec params h)
    as (h' & r & -> & Hlog & Hr).
  destruct r as [conn | c].
  - destruct Hr as [-> Hclosed].
    do 3 eexists. split; [reflexivity|]. split; [reflexivity|].
    right. exists params. repeat split; auto.
  - destruct Hr as [-> Hclosed].
    do 3 eexists. split; [reflexivity|]. split; [reflexivity|].
    right. exists params. repeat split; auto.
Qed.

(** X22. [psycopg2.connect] is never called on a configuration with a
    missing or falsy parameter: [initialize_postgresql_connection] then
    raises with the object and the heap as they were. When the driver is
    called, it is with the five parameters, none of them falsy; so the
    record of its calls keeps that property. *)
Theorem X22_connect_params_checked (self : obj) (h : heap) :
  exists self' h' r,
    initialize_postgresql_connection self h = (self', h', r)
    /\ (connects_checked h -> connects_checked h')
    /\ (connects h' = connects h
        \/ exists params,
             connects h' = connects h ++ [params]
             /\ connection_params self = inl params
             /\ Forall (fun kv => yaml_truthy (snd kv) = true) params)
    /\ (forall params,
           connection_params self = inl params ->
           Exists (fun kv => yaml_truthy (snd kv) = false) params ->
           self' = self /\ h' = h /\ exists c, r = Raises (InitFailed c))
    /\ (forall c,
           connection_params self = inr c ->
           self' = self /\ h' = h /\ r = Raises (InitFailed c)).
Proof.
  destruct (initialize_spec self h)
    as (self' & h' & r & Hrun & _ & Hcase).
  exists self', h', r. split; [exact Hrun|].
  destruct Hcase as [(-> & -> & c & -> & _ & Hwhy)
                    | (params & Hparams & Hval & Hlog & _)].
  - split; [auto|]. split; [now left|]. split.
    + intros params Hp _. eauto.
    + intros c' Hp. rewrite Hp in Hwhy. subst c'. auto.
  - pose proof (validate_None params Hval) as Hall. split.
    + unfold connects_checked. rewrite Hlog. intros Hold.
      apply Forall_app. split; [exact Hold|]. constructor; [|constructor].
      split; [now apply (connection_params_keys self) | exact Hall].
    + split; [right; eauto|]. split.
      * intros params' Hp Hbad. rewrite Hparams in Hp. simplify_eq.
        exfalso. apply Exists_exists in Hbad as (kv & Hin & Hkv).
        rewrite Forall_forall in Hall. specialize (Hall kv Hin). congruence.
      * intros c Hp. congruence.
Qed.

Lemma get_connection_spec (self : obj) (h : heap) :
  exists self' h' r,
    get_postgresql_connection self h = (self', h', r)
    /\ config self' = config self
    /\ match r with
       | Returns c =>
           exists conn,
             c = Some conn /\ pg_connection self' = Some conn
             /\ closed h' !! conn = Some false
             /\ ((self' = self /\ h' = h)
                 \/ (conn = length (closed h)
                     /\ closed h' = closed h ++ [false]
                     /\ ~ holds_open self h
                     /\ exists params,
                          connection_params self = inl params
                          /\ validate params = None
                          /\ connects h' = connects h ++ [params]))
       | Raises e =>
           exists c, e = InitFailed c /\ self' = self
                     /\ closed h' = closed h /\ ~ holds_open self h
       end.
Proof.
  unfold get_postgresql_connection.
  destruct (match pg_connection self with
            | Some conn => is_closed h conn
            | None => true
            end) eqn:Hneed.
  - assert (Hnot : ~ holds_open self h).
    { intros (conn & Hconn & Hopen). rewrite Hconn in Hneed. congruence. }
    destruct (initialize_spec self h)
      as (self' & h' & r & -> & Hcfg
          & [(-> & -> & c & -> & _)
            | (params & Hparams & Hval & Hlog
               & [(-> & -> & Hclosed) | (-> & Hconn & Hclosed)])]).
    + do 3 eexists. split; [reflexivity|]. split; [reflexivity|]. eauto.
    + do 3 eexists. split; [reflexivity|]. split; [reflexivity|]. eauto.
    + do 3 eexists. split; [reflexivity|]. split; [exact Hcfg|].
      exists (length (closed h)). rewrite Hclosed.
      split; [exact Hconn|]. split; [exact Hconn|].
      split; [now rewrite lookup_app_r, Nat.sub_diag by lia|].
      right. do 3 (split; [auto|]). eauto.
  - destruct (pg_connection self) as [conn|] eqn:Hconn; [|discriminate].
    do 3 eexists. split; [reflexivity|]. split; [reflexivity|].
    exists conn. repeat split; auto.
    unfold is_closed in Hneed.
    destruct (closed h !! conn) as [[|]|]; cbn in Hneed; congruence.
Qed.

(** X23. When [get_postgresql_connection] returns, it returns the
    connection the object holds, and that connection is open. If the
    object held an open connection, that is the one returned, with no call
    of the driver; otherwise the connection is a new one. When it raises,
    the object and the connections are as before. *)
Theorem X23_returned_connection_is_open (self : obj) (h : heap) :
  exists self' h' r,
    get_postgresql_connection self h = (self', h', r)
    /\ (holds_open self h ->
        self' = self /\ h' = h /\ r = Returns (pg_connection self))
    /\ match r with
       | Returns c =>
           holds_open self' h'
           /\ c = pg_connection self'
           /\ (~ holds_open self h ->
               c = Some (length (closed h))
               /\ closed h' = closed h ++ [false])
       | Raises e =>
           self' = self /\ closed h' = closed h /\ ~ holds_open self h
       end.
Proof.
  destruct (get_connection_spec self h)
    as (self' & h' & r & Hrun & _ & Hr).
  exists self', h', r. split; [exact Hrun|]. split.
  - intros Hopen. destruct r as [c | e].
    + destruct Hr
        as (conn & -> & Hconn & _ & [(-> & ->) | (_ & _ & Hnot & _)]);
        [|contradiction]. now rewrite Hconn.
    + destruct Hr as (c & _ & _ & _ & Hnot). contradiction.
  - destruct r as [c | e].
    + destruct Hr as (conn & -> & Hconn & Hlook & Hcase).
      split; [|split; [now rewrite Hconn|]].
      * exists conn. split; [exact Hconn|]. unfold is_closed.
        now rewrite Hlook.
      * intros Hnot. destruct Hcase as [(-> & ->) | (-> & Hclosed & _)].
        -- exfalso. apply Hnot. exists conn. split; [exact Hconn|].
           unfold is_closed. now rewrite Hlook.
        -- auto.
    + destruct Hr as (c & _ & -> & Hclosed & Hnot). auto.
Qed.

(** X24. After [close_postgresql_connection] the object holds no open
    connection, whatever it held before. The driver is not called, no
    other connection is touched, a connection that was closed stays so, and
    closing a second time changes nothing. *)
Theorem X24_close_connection (self : obj) (h : heap) :
  exists self' h',
    close_postgresql_connection self h = (self', h')
    /\ ~ holds_open self' h'
    /\ connects h' = connects h /\ refused h' = refused h
    /\ (forall conn,
          pg_connection self <> Some conn ->
          closed h' !! conn = closed h !! conn)
    /\ (forall conn, is_closed h conn = true -> is_closed h' conn = true)
    /\ close_postgresql_connection self' h' = (self', h').
Proof.
  unfold close_postgresql_connection.
  destruct (pg_connection self) as [conn|] eqn:Hconn.
  - destruct (is_closed h conn) eqn:Hclosed; cbn [negb].
    + exists self, h. split; [reflexivity|].
      split; [intros (c & Hc & Hopen); congruence|].
      do 4 (split; [auto|]). now rewrite Hconn, Hclosed.
    + do 2 eexists. split; [reflexivity|].
      split; [intros (c & Hc & _); discriminate|].
      cbn. do 2 (split; [reflexivity|]). split; [|split; [|reflexivity]].
      * intros c Hc. apply list_lookup_insert_ne. congruence.
      * intros c Hc. unfold is_closed, connection_close in *. cbn.
        destruct (decide (c = conn)) as [-> | Hne]; [congruence|].
        now rewrite list_lookup_insert_ne by congruence.
  - exists self, h. split; [reflexivity|].
    split; [intros (c & Hc & _); congruence|].
    do 4 (split; [auto|]). now rewrite Hconn.
Qed.

(** X25. The loader closes the connection it was given and then asks the
    object to close: the object then finds its connection closed already
    and keeps the handle. The next [get_postgresql_connection] never hands
    that connection out again: it stays closed, and what is returned is
    another connection, open, made by one more call of the driver. *)
Theorem X25_stale_handle (self : obj) (h : heap) self1 h1 conn :
  get_postgresql_connection self h = (self1, h1, Returns (Some conn)) ->
  let h2 := connection_close conn h1 in
  close_postgresql_connection self1 h2 = (self1, h2)
  /\ pg_connection self1 = Some conn
  /\ is_closed h2 conn = true
  /\ exists self3 h3 r,
       get_postgresql_connection self1 h2 = (self3, h3, r)
       /\ is_closed h3 conn = true
       /\ match r with
          | Returns c =>
              exists conn',
                c = Some conn' /\ conn' <> conn
                /\ pg_connection self3 = Some conn'
                /\ is_closed h3 conn' = false
                /\ length (connects h3) = S (length (connects h2))
          | Raises _ => self3 = self1
          end.
Proof.
  intros Hget h2.
  destruct (get_connection_spec self h)
    as (self' & h' & r & Hrun & Hcfg & Hr).
  rewrite Hget in Hrun. inversion Hrun; subst self' h' r. clear Hrun.
  destruct Hr as (conn0 & Heq & Hconn & Hlook & _).
  inversion Heq; subst conn0. clear Heq.
  assert (Hlt : (conn < length (closed h1))%nat)
    by (apply lookup_lt_is_Some; eauto).
  assert (Hlook2 : closed h2 !! conn = Some true).
  { unfold h2, connection_close. cbn.
    now rewrite list_lookup_insert_eq by exact Hlt. }
  assert (Hclosed2 : is_closed h2 conn = true)
    by (unfold is_closed; now rewrite Hlook2).
  split; [unfold close_postgresql_connection;
          now rewrite Hconn, Hclosed2|].
  split; [exact Hconn|]. split; [exact Hclosed2|].
  destruct (get_connection_spec self1 h2)
    as (self3 & h3 & r & Hrun & _ & Hr).
  exists self3, h3, r. split; [exact Hrun|].
  destruct r as [c | e].
  - destruct Hr as (conn' & -> & Hconn' & Hlook'
                    & [(-> & ->)
                      | (-> & Hclosed3 & _ & params & _ & _ & Hlog)]).
    + congruence.
    + assert (Hlen : length (closed h2) = length (closed h1))
        by (unfold h2, connection_close; cbn; apply length_insert).
      split.
      * unfold is_closed. rewrite Hclosed3, lookup_app_l by lia.
        now rewrite Hlook2.
      * exists (length (closed h2)). split; [reflexivity|].
        split; [lia|]. split; [exact Hconn'|].
        split; [unfold is_closed; now rewrite Hlook'|].
        rewrite Hlog, length_app. cbn. lia.
  - destruct Hr as (c & _ & -> & Hclosed3 & _).
    split; [|reflexivity]. unfold is_closed. now rewrite Hclosed3, Hlook2.
Qed.

(** X26. [test_connection] never raises. It answers [True] only when the
    object then holds an open connection. With an open connection in hand
    the answer is whether the statement goes through, and the driver is not
    asked for a connection; without one, a configuration that lacks a
    parameter gives [False]. *)
Theorem X26_test_connection (self : obj) (h : heap) :
  exists self' h' b,
    test_connection self h = (self', h', Returns b)
    /\ (b = true -> holds_open self' h')
    /\ (holds_open self h ->
        self' = self /\ connects h' = connects h
        /\ b = match refused h with true :: _ => false | _ => true end)
    /\ (forall c,
          connection_params self = inr c -> ~ holds_open self h ->
          b = false /\ self' = self /\ h' = h).
Proof.
  unfold test_connection, get_postgresql_cursor, cursor_execute.
  destruct (get_connection_spec self h)
    as (self' & h' & r & Hrun & _ & Hr).
  rewrite Hrun.
  destruct r as [c | e].
  - destruct Hr as (conn & -> & Hconn & Hlook & Hcase).
    assert (Hopen : is_closed h' conn = false)
      by (unfold is_closed; now rewrite Hlook).
    rewrite Hopen.
    assert (Hheld : holds_open self h -> self' = self /\ h' = h).
    { intros Hh. destruct Hcase as [(-> & ->) | (_ & _ & Hnot & _)];
        [auto | contradiction]. }
    assert (Hmissing : forall c,
               connection_params self = inr c -> ~ holds_open self h ->
               False).
    { intros c Hc Hnot.
      destruct Hcase as [(-> & ->) | (_ & _ & _ & params & Hp & _)].
      - apply Hnot. now exists conn.
      - congruence. }
    destruct (refused h') as [|[|] rest] eqn:Href;
      do 3 eexists; (split; [reflexivity|]); cbn.
    + split; [intros _; now exists conn|].
      split; [|intros c Hc Hnot; destruct (Hmissing c Hc Hnot)].
      intros Hh. destruct (Hheld Hh) as [-> ->]. now rewrite Href.
    + split; [discriminate|].
      split; [|intros c Hc Hnot; destruct (Hmissing c Hc Hnot)].
      intros Hh. destruct (Hheld Hh) as [-> ->]. now rewrite Href.
    + split; [intros _; now exists conn|].
      split; [|intros c Hc Hnot; destruct (Hmissing c Hc Hnot)].
      intros Hh. destruct (Hheld Hh) as [-> ->]. now rewrite Href.
  - destruct Hr as (c & -> & -> & Hclosed & Hnot).
    do 3 eexists. split; [reflexivity|]. split; [discriminate|].
    split; [intros Hh; contradiction|].
    intros c' Hc _. split; [reflexivity|]. split; [reflexivity|].
    unfold get_postgresql_connection, initialize_postgresql_connection
      in Hrun.
    rewrite Hc in Hrun.
    destruct (match pg_connection self with
              | Some conn => is_closed h conn
              | None => true
              end); now inversion Hrun.
Qed.

(** X27. The module makes its object once. A call that finds no object
    reads the configuration file once; if the file is missing or does not
    parse, the call raises and no object is kept, so that the next call
    reads the file again. After a call that returned, the object is kept:
    a later call returns it without reading the file, whatever the file
    has become since. *)
Theorem X27_one_object (m : module) :
  exists m1 r1,
    get_instance m = (m1, r1)
    /\ file m1 = file m
    /\ (is_Some (instance m) -> m1 = m /\ r1 = Returns tt)
    /\ (instance m = None -> reads m1 = S (reads m))
    /\ match r1 with
       | Returns _ =>
           is_Some (instance m1)
           /\ (instance m = None ->
               exists postgresql,
                 file m = Parsed postgresql
                 /\ instance m1 = Some (mkObj postgresql None))
           /\ forall file',
                let m2 := mkModule file' (reads m1) (instance m1) in
                get_instance m2 = (m2, Returns tt)
       | Raises e =>
           instance m1 = None
           /\ ((file m = Missing /\ e = FileNotFoundError)
               \/ (file m = Malformed /\ e = ValueError))
           /\ reads (fst (get_instance m1)) = S (reads m1)
       end.
Proof.
  unfold get_instance, new_connection_object, load_config.
  destruct (instance m) as [o|] eqn:Hinst.
  - exists m, (Returns tt). split; [reflexivity|]. split; [reflexivity|].
    split; [auto|]. split; [discriminate|].
    split; [rewrite Hinst; eauto|]. split; [discriminate|].
    intros file'. cbn. now rewrite Hinst.
  - destruct (file m) as [| |postgresql] eqn:Hfile;
      do 2 eexists; (split; [reflexivity|]); cbn;
      (split; [auto|]); (split; [intros [? ?]; discriminate|]);
      (split; [reflexivity|]).
    + rewrite ?Hinst, ?Hfile. cbn. auto.
    + rewrite ?Hinst, ?Hfile. cbn. auto.
    + split; [eauto|]. split; [eauto|]. reflexivity.
Qed.

Lemma X25_stale_handle_witness :
  let self := mkObj (Some good_section) None in
  let self1 := fst (fst (get_postgresql_connection self empty_heap)) in
  let h1 := snd (fst (get_postgresql_connection self empty_heap)) in
  close_postgresql_connection self1 (connection_close 0 h1)
  = (self1, connection_close 0 h1)
  /\ pg_connection self1 = Some 0%nat.
Proof.
  intros self self1 h1.
  destruct (X25_stale_handle self empty_heap self1 h1 0%nat)
    as (Hclose & Hheld & _).
  - vm_compute. reflexivity.
  - split; [exact Hclose | exact Hheld].
Defined.

End PgClient.

(** ** The cloud clients *)

Section CloudClients.
Import GcpClients.

Lemma make_client_spec (s : service) (configured : option string) (e : env) :
  exists e' r,
    make_client s configured e = (e', r)
    /\ base e' = base e /\ file_exists e' = file_exists e
    /\ match r with
       | inl client =>
           client = length (made e)
           /\ exists path,
                configured = Some path
                /\ file_exists e (resolve e path) = true
                /\ made e' = made e ++ [(s, resolve e path)]
       | inr _ => made e' = made e
       end.
Proof.
  unfold make_client, from_service_account_json.
  destruct configured as [path|].
  2:{ do 2 eexists. repeat split. }
  cbv zeta. destruct (file_exists e (resolve e path)) eqn:Hfile; cbn [negb].
  2:{ do 2 eexists. repeat split. }
  destruct (refused e) as [|[|] rest]; do 2 eexists;
    (split; [reflexivity|]); cbn; repeat split; eauto.
Qed.

(** What [get_clients] does, for every configuration and schedule. *)
Lemma get_clients_spec (self : obj) (e : env) :
  exists self' e' r bqs gss,
    get_clients self e = (self', e', r)
    /\ file_exists e' = file_exists e
    /\ made e' = made e ++ bqs ++ gss
    /\ ((bqs = [] /\ bq_client self' = bq_client self)
        \/ (bq_client self = None
            /\ bq_client self' = Some (length (made e))
            /\ exists path,
                 bigquery_path self = Some path
                 /\ file_exists e (resolve e path) = true
                 /\ bqs = [(BigQuery, resolve e path)]))
    /\ ((gss = [] /\ gcs_client self' = gcs_client self)
        \/ (gcs_client self = None
            /\ gcs_client self' = Some (length (made e ++ bqs))
            /\ exists path,
                 gcs_path self = Some path
                 /\ file_exists e (resolve e path) = true
                 /\ gss = [(Storage, resolve e path)]))
    /\ match r with
       | Returns (b, g) =>
           b = bq_client self' /\ g = gcs_client self'
           /\ is_Some b /\ is_Some g
       | Raises (InitFailed BigQuery _) =>
           self' = self /\ bq_client self = None /\ gss = []
       | Raises (InitFailed Storage _) =>
           is_Some (bq_client self') /\ gcs_client self' = None
       end.
Proof.
  unfold get_clients, initialize_bigquery_client, initialize_gcs_client.
  destruct (bq_client self) as [b|] eqn:Hb.
  - destruct (gcs_client self) as [g|] eqn:Hg.
    + exists self, e, (Returns (Some b, Some g)), [], [].
      rewrite Hb, Hg, !app_nil_r. repeat split; eauto.
    + destruct (make_client_spec Storage (gcs_path self) e)
        as (e2 & r2 & -> & Hbase2 & Hfile2 & Hr2).
      destruct r2 as [client | c].
      * destruct Hr2 as (-> & path & Hpath & Hexists & Hmade).
        do 3 eexists. exists [], [(Storage, resolve e path)].
        split; [reflexivity|]. cbn [bq_client gcs_client].
        rewrite app_nil_r, ?Hb.
        split; [exact Hfile2|]. split; [exact Hmade|].
        split; [now left|].
        split; [right; split; [reflexivity | split; [reflexivity|]]; eauto|].
        repeat split; eauto.
      * do 3 eexists. exists [], []. split; [reflexivity|].
        rewrite !app_nil_r, ?Hb, ?Hg.
        split; [exact Hfile2|]. split; [exact Hr2|].
        split; [now left|]. split; [now left|]. split; eauto.
  - destruct (make_client_spec BigQuery (bigquery_path self) e)
      as (e1 & r1 & -> & Hbase1 & Hfile1 & Hr1).
    destruct r1 as [client | c].
    2:{ do 3 eexists. exists [], []. split; [reflexivity|].
        rewrite !app_nil_r, ?Hb. split; [exact Hfile1|]. split; [exact Hr1|].
        split; [now left|]. split; [now left|]. repeat split. }
    destruct Hr1 as (-> & path1 & Hpath1 & Hexists1 & Hmade1).
    cbn [gcs_client bq_client bigquery_path gcs_path].
    destruct (gcs_client self) as [g|] eqn:Hg.
    + do 3 eexists. exists [(BigQuery, resolve e path1)], [].
      split; [reflexivity|]. cbn [bq_client gcs_client].
      rewrite !app_nil_r.
      split; [exact Hfile1|]. split; [exact Hmade1|].
      split; [right; split; [reflexivity | split; [reflexivity|]]; eauto|].
      split; [left; split; [reflexivity | first [reflexivity | now rewrite Hg]]|].
      repeat split; eauto.
    + destruct (make_client_spec Storage (gcs_path self) e1)
        as (e2 & r2 & -> & Hbase2 & Hfile2 & Hr2).
      assert (Hres : forall p, resolve e1 p = resolve e p)
        by (intros p; unfold resolve; now rewrite Hbase1).
      destruct r2 as [client | c].
      * destruct Hr2 as (-> & path2 & Hpath2 & Hexists2 & Hmade2).
        rewrite Hres, Hfile1 in *.
        do 3 eexists.
        exists [(BigQuery, resolve e path1)], [(Storage, resolve e path2)].
        split; [reflexivity|]. cbn [bq_client gcs_client].
        split; [congruence|].
        split; [rewrite Hmade2, Hmade1, <- app_assoc; reflexivity|].
        split; [right; split; [reflexivity | split; [reflexivity|]]; eauto|].
        split; [right; split; [reflexivity|];
                split; [now rewrite Hmade1|]; eauto|].
        repeat split; eauto.
      * do 3 eexists. exists [(BigQuery, resolve e path1)], [].
        split; [reflexivity|]. cbn [bq_client gcs_client].
        rewrite app_nil_r.
        split; [congruence|]. split; [congruence|].
        split; [right; split; [reflexivity | split; [reflexivity|]]; eauto|].
        split; [left; split; [reflexivity | first [reflexivity | now rewrite Hg]]|].
        repeat split; eauto.
Qed.

(** X28. [get_clients] turns to BigQuery first and to the bucket second,
    and makes a client only where the object holds none: a client the
    object holds is kept. When it returns, the object holds both clients
    and they are the ones returned. When the BigQuery client cannot be
    made, nothing is tried for the bucket and the object is as before; when
    the client of the bucket cannot be made, the BigQuery client is
    kept, also the one made just before. *)
Theorem X28_get_clients (self : obj) (e : env) :
  exists self' e' r bqs gss,
    get_clients self e = (self', e', r)
    /\ made e' = made e ++ bqs ++ gss
    /\ ((bqs = [] /\ bq_client self' = bq_client self)
        \/ (bq_client self = None
            /\ bq_client self' = Some (length (made e))
            /\ exists path, bqs = [(BigQuery, path)]))
    /\ ((gss = [] /\ gcs_client self' = gcs_client self)
        \/ (gcs_client self = None
            /\ gcs_client self' = Some (length (made e ++ bqs))
            /\ exists path, gss = [(Storage, path)]))
    /\ match r with
       | Returns (b, g) =>
           b = bq_client self' /\ g = gcs_client self'
           /\ is_Some b /\ is_Some g
       | Raises (InitFailed BigQuery _) =>
           self' = self /\ bq_client self = None /\ gss = []
       | Raises (InitFailed Storage _) =>
           is_Some (bq_client self') /\ gcs_client self' = None
       end.
Proof.
  destruct (get_clients_spec self e)
    as (self' & e' & r & bqs & gss & Hrun & _ & Hmade & Hbq & Hgcs & Hr).
  exists self', e', r, bqs, gss. split; [exact Hrun|].
  split; [exact Hmade|].
  split; [destruct Hbq as [? | (? & ? & path & _ & _ & ->)]; eauto|].
  split; [destruct Hgcs as [? | (? & ? & path & _ & _ & ->)]; eauto|].
  exact Hr.
Qed.

(** X29. No client is made from a credentials file that does not exist:
    if every client made so far came from an existing file, so does every
    client after [get_clients]; and the clients the object holds stay
    among the clients made, each for its own service. *)
Theorem X29_clients_from_existing_files (self : obj) (e : env) :
  made_from_files e ->
  clients_known self e ->
  exists self' e' r,
    get_clients self e = (self', e', r)
    /\ made_from_files e'
    /\ clients_known self' e'.
Proof.
  intros Hfiles [Hknown_b Hknown_g].
  destruct (get_clients_spec self e)
    as (self' & e' & r & bqs & gss & Hrun & Hfile & Hmade & Hbq & Hgcs & _).
  exists self', e', r. split; [exact Hrun|]. split.
  - unfold made_from_files in *. rewrite Hmade, Hfile.
    apply Forall_app. split; [exact Hfiles|]. apply Forall_app. split.
    + destruct Hbq as [[-> _] | (_ & _ & path & _ & Hexists & ->)];
        repeat constructor. exact Hexists.
    + destruct Hgcs as [[-> _] | (_ & _ & path & _ & Hexists & ->)];
        repeat constructor. exact Hexists.
  - split; intros c Hc; rewrite Hmade.
    + destruct Hbq as [[-> Hsame] | (_ & Hnew & path & _ & _ & ->)].
      * rewrite Hsame in Hc. destruct (Hknown_b c Hc) as [path Hpath].
        exists path. now apply lookup_app_l_Some.
      * rewrite Hnew in Hc. simplify_eq. eexists.
        rewrite lookup_app_r by lia. now rewrite Nat.sub_diag.
    + destruct Hgcs as [[-> Hsame] | (_ & Hnew & path & _ & _ & ->)].
      * rewrite Hsame in Hc. destruct (Hknown_g c Hc) as [path Hpath].
        exists path. rewrite app_nil_r. now apply lookup_app_l_Some.
      * rewrite Hnew in Hc. simplify_eq. eexists.
        rewrite app_assoc, lookup_app_r by lia. now rewrite Nat.sub_diag.
Qed.

Lemma X29_clients_from_existing_files_witness :
  exists self' e' r,
    get_clients fresh_object half_keyed = (self', e', r)
    /\ made_from_files e'
    /\ clients_known self' e'.
Proof.
  apply (X29_clients_from_existing_files fresh_object half_keyed).
  - constructor.
  - split; intros c Hc; discriminate.
Defined.

End CloudClients.
